(** * data-chatbot backend: a shallow embedding of its decision logic

    The development follows the Python sources under [backend/app]:

    - [PyStr]   the [str] methods the services call ([lower], [strip],
                [in], [startswith], [rfind], [split], [int]);
    - [Sql]     [openai_service.validate_sql_safety] and
                [openai_service._estimate_result_size];
    - [Auth]    the in-memory session table of [auth_service];
    - [Py]      dynamically typed row values and the builtins [float], [str],
                [+], [<] applied to them;
    - [CPython] a runtime: [float(s)], [str(x)] and [repr] as CPython has them;
    - [Json]    [clean_data_for_json] / [clean_data_for_serialization];
    - [Viz]     [visualization_service];
    - [Chat]    the [/query] handler of [routes/chat.py].

    Text is modelled as [string] (8-bit characters).  The embedding is exact
    on 7-bit ASCII text; characters above 127 are kept as they are by
    [lower] and are never white space. *)

From Stdlib Require Import ZArith String Ascii List Bool Lia Sorted.
From Stdlib Require Import Floats.
From stdpp Require Import base option list gmap strings pretty.

Local Open Scope string_scope.
Local Open Scope Z_scope.

Set Warnings "-register-all,-inexact-float".

(** ** Python's [str] methods *)

Module PyStr.

(** [c.isspace()] for a 7-bit character: TAB, LF, VT, FF, CR, the four
    separators FS, GS, RS, US, and the blank. *)
Definition is_space (c : ascii) : bool :=
  let n := nat_of_ascii c in
  ((9 <=? n)%nat && (n <=? 13)%nat) || ((28 <=? n)%nat && (n <=? 32)%nat).

Definition lower_char (c : ascii) : ascii :=
  let n := nat_of_ascii c in
  if ((65 <=? n)%nat && (n <=? 90)%nat) then ascii_of_nat (n + 32) else c.

(** [s.lower()] *)
Fixpoint lower (s : string) : string :=
  match s with
  | EmptyString => EmptyString
  | String c s' => String (lower_char c) (lower s')
  end.

(** [s.lstrip()] *)
Fixpoint lstrip (s : string) : string :=
  match s with
  | EmptyString => EmptyString
  | String c s' => if is_space c then lstrip s' else s
  end.

(** [s.rstrip()]: a character is kept when it is not white space or when
    something is kept after it. *)
Fixpoint rstrip (s : string) : string :=
  match s with
  | EmptyString => EmptyString
  | String c s' =>
      match rstrip s' with
      | EmptyString => if is_space c then EmptyString else String c EmptyString
      | r => String c r
      end
  end.

(** [s.strip()] *)
Definition strip (s : string) : string := rstrip (lstrip s).

(** [s.startswith(p)] *)
Definition startswith (s p : string) : bool := String.prefix p s.

(** [p in s] *)
Fixpoint contains (p s : string) : bool :=
  String.prefix p s ||
  match s with
  | EmptyString => false
  | String _ s' => contains p s'
  end.

(** [s.find(p)], with [-1] for no occurrence. *)
Fixpoint find (p s : string) : Z :=
  if String.prefix p s then 0
  else match s with
       | EmptyString => -1
       | String _ s' => let i := find p s' in if i <? 0 then -1 else i + 1
       end.

(** [s.rfind(p)]: the highest index at which [p] occurs, [-1] for none. *)
Fixpoint rfind (p s : string) : Z :=
  match s with
  | EmptyString => if String.prefix p s then 0 else -1
  | String _ s' =>
      let i := rfind p s' in
      if 0 <=? i then i + 1
      else if String.prefix p s then 0 else -1
  end.

Fixpoint drop (n : nat) (s : string) : string :=
  match n, s with
  | O, _ => s
  | S n', EmptyString => EmptyString
  | S n', String _ s' => drop n' s'
  end.

(** [s[i:]]: a negative index counts from the end. *)
Definition slice_from (i : Z) (s : string) : string :=
  let len := Z.of_nat (String.length s) in
  if i <? 0 then drop (Z.to_nat (Z.max 0 (len + i))) s
  else drop (Z.to_nat i) s.

(** [s.split()]: the maximal runs of characters that are not white space.
    [cur] is the run being read, in reverse. *)
Fixpoint split_ws_aux (cur : list ascii) (s : string) : list string :=
  match s with
  | EmptyString =>
      match cur with
      | [] => []
      | _ => [string_of_list_ascii (rev cur)]
      end
  | String c s' =>
      if is_space c then
        match cur with
        | [] => split_ws_aux [] s'
        | _ => string_of_list_ascii (rev cur) :: split_ws_aux [] s'
        end
      else split_ws_aux (c :: cur) s'
  end.

Definition split_ws (s : string) : list string := split_ws_aux [] s.

(** [s.split(sep)] for a one-character separator: every separator ends a
    field, and the list is never empty. *)
Fixpoint split_on_aux (sep : ascii) (cur : list ascii) (s : string) : list string :=
  match s with
  | EmptyString => [string_of_list_ascii (rev cur)]
  | String c s' =>
      if Ascii.eqb c sep then string_of_list_ascii (rev cur) :: split_on_aux sep [] s'
      else split_on_aux sep (c :: cur) s'
  end.

Definition split_on (sep : ascii) (s : string) : list string := split_on_aux sep [] s.

Definition digit_val (c : ascii) : option Z :=
  let n := nat_of_ascii c in
  if ((48 <=? n)%nat && (n <=? 57)%nat) then Some (Z.of_nat (n - 48)) else None.

(** The digits of a decimal literal as [int] reads them: a digit, then
    digits each optionally preceded by one underscore.  [acc] is the value
    read so far; [after_digit] tells whether an underscore may come next. *)
Fixpoint int_digits (acc : Z) (after_digit : bool) (s : string) : option Z :=
  match s with
  | EmptyString => if after_digit then Some acc else None
  | String c s' =>
      match digit_val c with
      | Some d => int_digits (10 * acc + d) true s'
      | None =>
          if Ascii.eqb c "_" && after_digit then int_digits acc false s' else None
      end
  end.

(** [int(s)] in base ten; [None] stands for [ValueError]. *)
Definition int_of_str (s : string) : option Z :=
  match strip s with
  | String "+" s' => int_digits 0 false s'
  | String "-" s' => option_map Z.opp (int_digits 0 false s')
  | s' => int_digits 0 false s'
  end.

Definition is_upper (c : ascii) : bool :=
  let n := nat_of_ascii c in ((65 <=? n)%nat && (n <=? 90)%nat).

Definition is_lower (c : ascii) : bool :=
  let n := nat_of_ascii c in ((97 <=? n)%nat && (n <=? 122)%nat).

Definition upper_char (c : ascii) : ascii :=
  if is_lower c then ascii_of_nat (nat_of_ascii c - 32) else c.

(** [s.title()]: a letter is put in upper case when the character before it
    is not a letter, in lower case otherwise. *)
Fixpoint title_aux (after_letter : bool) (s : string) : string :=
  match s with
  | EmptyString => EmptyString
  | String c s' =>
      let letter := is_upper c || is_lower c in
      String (if after_letter then lower_char c else upper_char c) (title_aux letter s')
  end.

Definition title (s : string) : string := title_aux false s.

(** [s.upper()] *)
Fixpoint upper (s : string) : string :=
  match s with
  | EmptyString => EmptyString
  | String c s' => String (upper_char c) (upper s')
  end.

(** The first [n] characters. *)
Fixpoint first_chars (n : nat) (s : string) : string :=
  match n, s with
  | O, _ => EmptyString
  | S n', EmptyString => EmptyString
  | S n', String c s' => String c (first_chars n' s')
  end.

(** An index of a slice, brought within [0 .. len]. *)
Definition slice_index (i len : Z) : Z :=
  if i <? 0 then Z.max 0 (len + i) else Z.min i len.

(** [s[i:j]] *)
Definition slice (i j : Z) (s : string) : string :=
  let len := Z.of_nat (String.length s) in
  let start := slice_index i len in
  let stop := slice_index j len in
  first_chars (Z.to_nat (stop - start)) (drop (Z.to_nat start) s).

(** [s[:j]] *)
Definition slice_to (j : Z) (s : string) : string := slice 0 j s.

(** [s.find(p, start)] for a pattern that is not empty and [0 <= start]:
    the search begins at [start], and nothing is found beyond the end. *)
Definition find_from (p : string) (start : Z) (s : string) : Z :=
  let i := find p (drop (Z.to_nat start) s) in
  if i <? 0 then -1 else start + i.

(** [s.replace(old, new)] for one-character [old] and [new]. *)
Fixpoint replace_char (old new : ascii) (s : string) : string :=
  match s with
  | EmptyString => EmptyString
  | String c s' => String (if Ascii.eqb c old then new else c) (replace_char old new s')
  end.

(** A string whose characters all satisfy [P], and the decimal digits. *)
Fixpoint all_chars (P : ascii -> bool) (s : string) : bool :=
  match s with
  | EmptyString => true
  | String c s' => P c && all_chars P s'
  end.


End PyStr.

(** ** The completion client's SQL checks ([openai_service.py]) *)

Module Sql.
Import PyStr.

(** [dangerous_keywords]: every entry ends in a blank. *)
Definition dangerous_keywords : list string :=
  [ "drop "; "delete "; "update "; "insert "; "alter ";
    "create "; "truncate "; "grant "; "revoke " ].

(** One round of the loop over [dangerous_keywords]: [true] when the loop
    goes on with the next keyword (the keyword does not occur, or one of the
    three [continue] statements is reached), [false] when the round returns
    the rejection. *)
Definition keyword_passes (query_lower keyword : string) : bool :=
  if contains keyword query_lower then
    if String.eqb (strip keyword) "create"
       && (contains "created_at" query_lower || contains "create_" query_lower)
    then true
    else if String.eqb (strip keyword) "update"
            && (contains "updated_at" query_lower || contains "update_" query_lower)
    then true
    else if String.eqb (strip keyword) "delete"
            && (contains "deleted_at" query_lower || contains "delete_" query_lower)
    then true
    else false
  else true.

(** The loop: the first keyword whose round rejects, if any. *)
Fixpoint first_rejected (query_lower : string) (keywords : list string) : option string :=
  match keywords with
  | [] => None
  | keyword :: rest =>
      if keyword_passes query_lower keyword then first_rejected query_lower rest
      else Some keyword
  end.

(** [validate_sql_safety(sql_query) -> (is_safe, message)] *)
Definition validate_sql_safety (sql_query : string) : bool * string :=
  let query_lower := strip (lower sql_query) in
  match first_rejected query_lower dangerous_keywords with
  | Some keyword => (false, "Dangerous SQL keyword detected: " +:+ strip keyword)
  | None =>
      if negb (startswith query_lower "select")
      then (false, "Only SELECT queries are allowed")
      else (true, "Query is safe")
  end.

(** The [try] block of the [limit] branch: [None] stands for any exception
    ([IndexError] from [[1]], [ValueError] from [int]), which the bare
    [except] turns into 100. *)
Definition limit_value (sql_query query_lower : string) : option Z :=
  let limit_pos := rfind "limit" query_lower in
  match split_ws (slice_from limit_pos sql_query) !! 1%nat with
  | None => None
  | Some limit_part =>
      match split_on ";" limit_part with
      | first :: _ => int_of_str first
      | [] => None
      end
  end.

(** [_estimate_result_size(sql_query) -> Optional[int]] *)
Definition _estimate_result_size (sql_query : string) : option Z :=
  let query_lower := lower sql_query in
  if contains "count(" query_lower && negb (contains "group by" query_lower) then Some 1
  else if contains "group by" query_lower then Some 50
  else if contains "limit" query_lower then
    match limit_value sql_query query_lower with
    | Some n => Some n
    | None => Some 100
    end
  else Some 1000.

(** *** The policy as the specification words it

    The text, trimmed and lowercased, is cut at blanks; a keyword is present
    when one of the pieces is that keyword.  A piece such as [created_at] or
    [update_count] is a column name and not the keyword, which is what the
    carve-outs ask for. *)
Definition denylist : list string :=
  [ "drop"; "delete"; "update"; "insert"; "alter";
    "create"; "truncate"; "grant"; "revoke" ].

Definition tokens (s : string) : list string := split_on " " s.

Definition has_token (keyword s : string) : bool :=
  existsb (String.eqb keyword) (tokens s).

Definition policy_safe (sql_query : string) : bool :=
  let q := strip (lower sql_query) in
  startswith q "select" && forallb (fun keyword => negb (has_token keyword q)) denylist.



End Sql.

(** ** The session table ([auth_service.py]) *)

Module Auth.

(** [models.auth.SessionData].  A [datetime] is a number of microseconds
    since the epoch. *)
Record SessionData := {
  username : string;
  metabase_session_id : string;
  user_id : Z;
  expires_at : Z
}.

(** [timedelta(hours=24)] *)
Definition hours_24 : Z := 24 * 3600 * 1000000.

(** What an [httpx] call gives: a response with its status code and the
    part of the JSON body the service reads, or an exception
    ([httpx.RequestError], or any other). *)
Inductive reply (A : Type) :=
| Response (status_code : Z) (body : A)
| RequestError
| OtherException.
Arguments Response {A} status_code body.
Arguments RequestError {A}.
Arguments OtherException {A}.

(** [fastapi.HTTPException(status_code, detail)] *)
Record HTTPException := { status_code : Z; detail : string }.

Record LoginResponse := {
  session_token : string;
  login_user_id : Z;
  login_expires_at : Z;
  login_metabase_session_id : string
}.

Definition truthy (s : string) : bool := negb (String.eqb s "").

(** [authenticate_with_metabase]: [auth_response] is the reply to
    [POST /api/session] with the [id] of its body, [user_response] the reply
    to [GET /api/user/current] with the [id] of its body, [token] the value
    [secrets.token_urlsafe(32)] returns.  A body without a numeric [id]
    fails the validation of [SessionData] and is caught by the last
    handler. *)
Definition authenticate_with_metabase
    (now : Z) (login_username : string)
    (auth_response : reply (option string)) (user_response : reply (option Z))
    (token : string) (sessions : gmap string SessionData)
  : (HTTPException + LoginResponse) * gmap string SessionData :=
  let unavailable := {| status_code := 503; detail := "Unable to connect to Metabase server" |} in
  let internal := {| status_code := 500; detail := "Authentication failed due to internal error" |} in
  match auth_response with
  | RequestError => (inl unavailable, sessions)
  | OtherException => (inl internal, sessions)
  | Response code id =>
      if negb (code =? 200) then
        (inl {| status_code := 401; detail := "Invalid Metabase credentials" |}, sessions)
      else
        match id with
        | None => (inl {| status_code := 500; detail := "Failed to get Metabase session ID" |}, sessions)
        | Some sid =>
            if negb (truthy sid) then
              (inl {| status_code := 500; detail := "Failed to get Metabase session ID" |}, sessions)
            else
              match user_response with
              | RequestError => (inl unavailable, sessions)
              | OtherException => (inl internal, sessions)
              | Response ucode uid =>
                  if negb (ucode =? 200) then
                    (inl {| status_code := 500;
                            detail := "Failed to get user information from Metabase" |}, sessions)
                  else
                    match uid with
                    | None => (inl internal, sessions)
                    | Some uid =>
                        let expires := now + hours_24 in
                        let session_data :=
                          {| username := login_username; metabase_session_id := sid;
                             user_id := uid; expires_at := expires |} in
                        (inr {| session_token := token; login_user_id := uid;
                                login_expires_at := expires;
                                login_metabase_session_id := sid |},
                         <[token := session_data]> sessions)
                    end
              end
        end
  end.

(** [validate_session(session_token)] at time [now = datetime.utcnow()]:
    the value returned and the table afterwards. *)
Definition validate_session (now : Z) (session_token : string)
    (sessions : gmap string SessionData)
  : option SessionData * gmap string SessionData :=
  if negb (truthy session_token) then (None, sessions)
  else
    match sessions !! session_token with
    | None => (None, sessions)
    | Some session_data =>
        if expires_at session_data <? now
        then (None, delete session_token sessions)
        else (Some session_data, sessions)
    end.

(** The [except Exception] handler of [logout]. *)
Definition logout_handler (session_token : string) (sessions : gmap string SessionData)
  : bool * gmap string SessionData :=
  match sessions !! session_token with
  | Some _ => (true, delete session_token sessions)
  | None => (true, sessions)
  end.

(** [logout(session_token)].  [delete_call] is the outcome of
    [DELETE /api/session] (any status code counts as an answer: the code
    does not look at it).  The coroutine is suspended at that call;
    [during] is what the handlers that run meanwhile do to the table.
    [del self.sessions[session_token]] raises [KeyError] when the entry is
    gone by then, which the handler catches. *)
Definition logout (delete_call : reply unit)
    (during : gmap string SessionData -> gmap string SessionData)
    (session_token : string) (sessions : gmap string SessionData)
  : bool * gmap string SessionData :=
  match sessions !! session_token with
  | None => (false, sessions)
  | Some session_data =>
      let sessions := during sessions in
      match delete_call with
      | Response _ _ =>
          match sessions !! session_token with
          | Some _ => (true, delete session_token sessions)
          | None => logout_handler session_token sessions
          end
      | RequestError | OtherException => logout_handler session_token sessions
      end
  end.

(** [get_active_sessions_count()] at time [current_time]. *)
Definition get_active_sessions_count (current_time : Z)
    (sessions : gmap string SessionData) : nat :=
  let active_sessions :=
    List.filter (fun session => current_time <? expires_at session)
                (map snd (map_to_list sessions)) in
  length active_sessions.

(** [cleanup_expired_sessions()] at time [current_time]. *)
Definition cleanup_expired_sessions (current_time : Z)
    (sessions : gmap string SessionData) : gmap string SessionData :=
  let expired_tokens :=
    map fst (List.filter (fun ts => expires_at (snd ts) <=? current_time)
                         (map_to_list sessions)) in
  fold_left (fun acc token => delete token acc) expired_tokens sessions.

(** The table [s'] is reached from [s] by calls of the service none of
    which stores a session under [tok].  In [ev_logout] the handlers that run
    while the logout is suspended are such calls themselves. *)
Inductive evolves (tok : string) : gmap string SessionData -> gmap string SessionData -> Prop :=
| ev_refl s : evolves tok s s
| ev_login s s' now user auth_response user_response token :
    evolves tok s s' -> token <> tok ->
    evolves tok s (authenticate_with_metabase now user auth_response user_response token s').2
| ev_validate s s' now token :
    evolves tok s s' -> evolves tok s (validate_session now token s').2
| ev_logout s s' delete_call during token :
    evolves tok s s' -> (forall x, evolves tok x (during x)) ->
    evolves tok s (logout delete_call during token s').2
| ev_cleanup s s' now :
    evolves tok s s' -> evolves tok s (cleanup_expired_sessions now s').

(** A session for the examples. *)
Definition sample_session : SessionData :=
  {| username := "ada"; metabase_session_id := "mb-1"; user_id := 7; expires_at := 100 |}.

End Auth.

(** ** Python values and the builtins applied to them *)

Module Py.

(** The exceptions the modelled code can meet.  [Error msg] is a plain
    [Exception(msg)]. *)
Inductive exn :=
| TypeError
| ValueError
| OverflowError
| KeyError
| IndexError
| Error (msg : string).

(** A computation that returns or raises. *)
Definition result (A : Type) : Type := exn + A.

Definition raise {A} (e : exn) : result A := inl e.

#[global] Instance result_ret : MRet result := fun A x => inr x.
#[global] Instance result_bind : MBind result := fun A B f m =>
  match m with
  | inl e => inl e
  | inr x => f x
  end.

(** A dynamically typed value: what a JSON document holds ([None], [bool],
    [int], [float], [str], [list], [dict] with string keys), and an object of
    another library, described by what the code asks of it: the [__module__]
    of its type, what [tolist()] and [item()] return when it has these
    methods, and what [str] gives.  [json.dumps] refuses such an object. *)
Inductive value :=
| VNone
| VBool (b : bool)
| VInt (n : Z)
| VFloat (x : float)
| VStr (s : string)
| VList (items : list value)
| VDict (entries : list (string * value))
| VObject (type_module : string) (tolist : option value) (item : option value)
          (as_str : string).

(** A Python number: the type of the sums and coordinates the chart
    builders produce. *)
Inductive num :=
| NInt (n : Z)
| NFloat (x : float).

(** What the interpreter and its library contribute beyond this file: the
    parser behind [float(s)] ([None] for [ValueError]), and the text [str]
    gives for a float, a list and a dict. *)
Class Runtime := {
  float_of_str : string -> option float;
  str_of_float : float -> string;
  str_of_list : list value -> string;
  str_of_dict : list (string * value) -> string
}.

(** [int] to [float]: round to nearest, ties to even; [None] when the result
    is out of range ([OverflowError]). *)
Definition float_of_Z (n : Z) : option float :=
  match binary_normalize prec emax n 0 false with
  | S754_infinity _ => None
  | x => Some (SF2Prim x)
  end.

Definition float_of_bool (b : bool) : float := if b then 1%float else 0%float.

(** [d.get(k)] and [d.get(k, default)] on a dict given by its items in
    insertion order. *)
Fixpoint dict_get {A} (k : string) (d : list (string * A)) : option A :=
  match d with
  | [] => None
  | (k', v) :: d' => if String.eqb k' k then Some v else dict_get k d'
  end.

(** [d[k] = v]: a present key keeps its place, a new one goes last. *)
Fixpoint dict_set {A} (k : string) (v : A) (d : list (string * A)) : list (string * A) :=
  match d with
  | [] => [(k, v)]
  | (k', v') :: d' => if String.eqb k' k then (k', v) :: d' else (k', v') :: dict_set k v d'
  end.

Section Builtins.
Context `{Runtime}.

(** [float(v)] *)
Definition to_float (v : value) : result float :=
  match v with
  | VNone => raise TypeError
  | VBool b => mret (float_of_bool b)
  | VInt n =>
      match float_of_Z n with
      | Some x => mret x
      | None => raise OverflowError
      end
  | VFloat x => mret x
  | VStr s =>
      match float_of_str s with
      | Some x => mret x
      | None => raise ValueError
      end
  | VList _ | VDict _ | VObject _ _ _ _ => raise TypeError
  end.

(** [str(v)] *)
Definition to_str (v : value) : string :=
  match v with
  | VNone => "None"
  | VBool true => "True"
  | VBool false => "False"
  | VInt n => pretty n
  | VFloat x => str_of_float x
  | VStr s => s
  | VList l => str_of_list l
  | VDict d => str_of_dict d
  | VObject _ _ _ s => s
  end.

End Builtins.

(** [isinstance(v, str)] *)
Definition is_str (v : value) : bool :=
  match v with
  | VStr _ => true
  | _ => false
  end.

(** [isinstance(v, (int, float)) and not isinstance(v, bool)] *)
Definition is_number (v : value) : bool :=
  match v with
  | VInt _ | VFloat _ => true
  | _ => false
  end.

(** [a + b] on numbers; the [int] operand of a mixed sum is converted. *)
Definition add (a b : num) : result num :=
  match a, b with
  | NInt m, NInt n => mret (NInt (m + n))
  | NFloat x, NFloat y => mret (NFloat (x + y))
  | NInt m, NFloat y =>
      match float_of_Z m with
      | Some x => mret (NFloat (x + y))
      | None => raise OverflowError
      end
  | NFloat x, NInt n =>
      match float_of_Z n with
      | Some y => mret (NFloat (x + y))
      | None => raise OverflowError
      end
  end.

(** The exact comparison of an [int] with a [float]; [None] when the float
    is not a number. *)
Definition compare_Z_float (n : Z) (x : float) : option comparison :=
  match Prim2SF x with
  | S754_nan => None
  | S754_infinity negative => Some (if negative then Gt else Lt)
  | S754_zero _ => Some (n ?= 0)
  | S754_finite negative m e =>
      let v := if negative then Z.neg m else Z.pos m in
      if 0 <=? e then Some (n ?= v * 2 ^ e) else Some (n * 2 ^ (- e) ?= v)
  end.

(** [a < b] on numbers. *)
Definition lt (a b : num) : bool :=
  match a, b with
  | NInt m, NInt n => m <? n
  | NFloat x, NFloat y => PrimFloat.ltb x y
  | NInt m, NFloat y =>
      match compare_Z_float m y with
      | Some Lt => true
      | _ => false
      end
  | NFloat x, NInt n =>
      match compare_Z_float n x with
      | Some Gt => true
      | _ => false
      end
  end.

End Py.

(** ** The places of Python numbers *)

Module NumOrder.
Import Py.

(** A number that is not a NaN has a place on the line of the integers
    scaled by [2 ^ 1074], the weight of the last bit of the smallest
    double, closed by the two infinities. *)
Inductive point := Below | At (z : Z) | Above.

(** The order of the places. *)
Definition point_ltb (a b : point) : bool :=
  match a, b with
  | Below, Below => false
  | Below, _ => true
  | At _, Below => false
  | At x, At y => x <? y
  | At _, Above => true
  | Above, _ => false
  end.




End NumOrder.

(** ** A runtime: CPython's conversions between text and numbers *)

Module CPython.
Import Py.

(** [mant * 10 ^ e10], with the sign given apart, rounded to the nearest
    double, ties to even; beyond the range the result is an infinity. *)
Definition float_of_decimal (negative : bool) (mant : Z) (e10 : Z) : float :=
  if mant =? 0 then (if negative then (-0)%float else 0%float)
  else if 0 <=? e10 then
    SF2Prim (binary_normalize prec emax
               ((if negative then - mant else mant) * 10 ^ e10) 0 false)
  else
    let '(q, e, loc) := SFdiv_core_binary prec emax mant 0 (10 ^ (- e10)) 0 in
    SF2Prim (binary_round_aux prec emax negative q e loc).

Definition starts_with_digit (s : string) : bool :=
  match s with
  | String c _ => bool_decide (is_Some (PyStr.digit_val c))
  | EmptyString => false
  end.

(** Digits with single underscores between them: the value read on top of
    [acc], the number of digits, and what follows. *)
Fixpoint read_digits (after_digit : bool) (acc : Z) (count : Z) (s : string)
  : Z * Z * string :=
  match s with
  | EmptyString => (acc, count, s)
  | String c s' =>
      match PyStr.digit_val c with
      | Some d => read_digits true (10 * acc + d) (count + 1) s'
      | None =>
          if Ascii.eqb c "_" && after_digit && starts_with_digit s'
          then read_digits false acc count s'
          else (acc, count, s)
      end
  end.

Definition read_sign (s : string) : bool * string :=
  match s with
  | String "-" s' => (true, s')
  | String "+" s' => (false, s')
  | _ => (false, s)
  end.

(** [float(s)] for a string: white space around is dropped; then a sign,
    and [inf], [infinity], [nan] in any case or a decimal numeral with an
    optional fraction and exponent. *)
Definition float_of_str (s : string) : option float :=
  let '(negative, body) := read_sign (PyStr.strip s) in
  let word := PyStr.lower body in
  if String.eqb word "inf" || String.eqb word "infinity" then
    Some (if negative then neg_infinity else infinity)
  else if String.eqb word "nan" then Some nan
  else
    let '(int_part, n_int, rest) := read_digits false 0 0 body in
    let '(mant, n_frac, rest) :=
      match rest with
      | String "." rest' =>
          read_digits false int_part 0 rest'
      | _ => (int_part, 0, rest)
      end in
    if n_int + n_frac =? 0 then None
    else
      match rest with
      | EmptyString => Some (float_of_decimal negative mant (- n_frac))
      | String c rest' =>
          if Ascii.eqb c "e" || Ascii.eqb c "E" then
            let '(exp_negative, digits) := read_sign rest' in
            let '(e, n_exp, rest'') := read_digits false 0 0 digits in
            if (n_exp =? 0) || negb (String.eqb rest'' "") then None
            else Some (float_of_decimal negative mant
                         ((if exp_negative then - e else e) - n_frac))
          else None
      end.

(** *** [repr] of a float: the shortest numeral that reads back *)

Section Shortest.
(** The magnitude is [num / den]. *)
Variables (x : float) (num den : Z).

(** [10 ^ k <= num / den] *)
Definition at_least_pow10 (k : Z) : bool :=
  if 0 <=? k then den * 10 ^ k <=? num else den <=? num * 10 ^ (- k).

(** The decimal exponent [k], with [10 ^ k <= num / den < 10 ^ (k + 1)],
    found from an estimate by the bit lengths. *)
Definition decimal_exponent : Z :=
  let k0 := (Z.log2 num - Z.log2 den) * 30103 / 100000 in
  if at_least_pow10 (k0 + 2) then k0 + 2
  else if at_least_pow10 (k0 + 1) then k0 + 1
  else if at_least_pow10 k0 then k0
  else if at_least_pow10 (k0 - 1) then k0 - 1
  else k0 - 2.

Definition reads_back (digits t : Z) : bool :=
  (0 <? digits) && PrimFloat.eqb (float_of_decimal false digits t) (abs x).

(** With [p] digits: the two numerals around the magnitude, and the closer
    of those that read back, the even one on a tie. *)
Definition candidate (k p : Z) : option (Z * Z) :=
  let t := k - p + 1 in
  let n := if t <? 0 then num * 10 ^ (- t) else num in
  let d := if t <? 0 then den else den * 10 ^ t in
  let lo := n / d in
  let r := n mod d in
  match reads_back lo t, reads_back (lo + 1) t with
  | true, true =>
      match 2 * r ?= d with
      | Lt => Some (lo, t)
      | Gt => Some (lo + 1, t)
      | Eq => Some (if Z.even lo then lo else lo + 1, t)
      end
  | true, false => Some (lo, t)
  | false, true => Some (lo + 1, t)
  | false, false => None
  end.

Fixpoint shortest (fuel : nat) (k p : Z) : Z * Z :=
  match fuel with
  | O => (num / den, 0)
  | S fuel' =>
      match candidate k p with
      | Some r => r
      | None => shortest fuel' k (p + 1)
      end
  end.

End Shortest.

Fixpoint strip_zeros (fuel : nat) (digits t : Z) : Z * Z :=
  match fuel with
  | O => (digits, t)
  | S fuel' =>
      if (digits mod 10 =? 0) && negb (digits =? 0)
      then strip_zeros fuel' (digits / 10) (t + 1)
      else (digits, t)
  end.

Fixpoint zeros (n : nat) : string :=
  match n with
  | O => ""
  | S n' => String "0" (zeros n')
  end.

(** The layout of [repr]: the digits [ds] with the decimal point after
    [decpt] of them; an exponent when [decpt] is above 16 or below -3. *)
Definition layout (ds : string) (decpt : Z) : string :=
  let len := Z.of_nat (String.length ds) in
  if (16 <? decpt) || (decpt <? -3) then
    let e := decpt - 1 in
    let mantissa :=
      match ds with
      | String c EmptyString => ds
      | String c rest => String c (String "." rest)
      | EmptyString => ds
      end in
    let exponent := pretty (Z.abs e) in
    mantissa +:+ "e" +:+ (if e <? 0 then "-" else "+")
      +:+ (if Z.abs e <? 10 then "0" else "") +:+ exponent
  else if decpt <=? 0 then "0." +:+ zeros (Z.to_nat (- decpt)) +:+ ds
  else if len <=? decpt then ds +:+ zeros (Z.to_nat (decpt - len)) +:+ ".0"
  else
    String.substring 0 (Z.to_nat decpt) ds +:+ "."
      +:+ String.substring (Z.to_nat decpt) (Z.to_nat (len - decpt)) ds.

(** [str(x)] and [repr(x)] for a float *)
Definition str_of_float (x : float) : string :=
  match Prim2SF x with
  | S754_nan => "nan"
  | S754_infinity negative => if negative then "-inf" else "inf"
  | S754_zero negative => if negative then "-0.0" else "0.0"
  | S754_finite negative m e =>
      let num := if 0 <=? e then Z.pos m * 2 ^ e else Z.pos m in
      let den := if 0 <=? e then 1 else 2 ^ (- e) in
      let k := decimal_exponent num den in
      let '(digits, t) := shortest x num den 17 k 1 in
      let '(digits, t) := strip_zeros 20 digits t in
      let ds := pretty digits in
      (if negative then "-" else "") +:+ layout ds (Z.of_nat (String.length ds) + t)
  end.

(** *** [repr] of a string, a list and a dict *)

Definition double_quote : ascii := ascii_of_nat 34.
Definition backslash : ascii := ascii_of_nat 92.

Definition hex_digit (n : nat) : ascii :=
  if (n <? 10)%nat then ascii_of_nat (48 + n) else ascii_of_nat (87 + n).

Fixpoint has_char (c : ascii) (s : string) : bool :=
  match s with
  | EmptyString => false
  | String x s' => Ascii.eqb x c || has_char c s'
  end.

Fixpoint escape (quote : ascii) (s : string) : string :=
  match s with
  | EmptyString => EmptyString
  | String c s' =>
      let n := nat_of_ascii c in
      let rest := escape quote s' in
      if Ascii.eqb c backslash || Ascii.eqb c quote then String backslash (String c rest)
      else if (n =? 10)%nat then String backslash (String "n" rest)
      else if (n =? 13)%nat then String backslash (String "r" rest)
      else if (n =? 9)%nat then String backslash (String "t" rest)
      else if (n <? 32)%nat || (n =? 127)%nat then
        String backslash (String "x" (String (hex_digit (n / 16))
                                        (String (hex_digit (n mod 16)) rest)))
      else String c rest
  end.

Definition repr_str (s : string) : string :=
  let quote := if has_char "'" s && negb (has_char double_quote s)
               then double_quote else "'"%char in
  String quote (escape quote s) +:+ String quote "".

Fixpoint join (sep : string) (l : list string) : string :=
  match l with
  | [] => ""
  | [x] => x
  | x :: l' => x +:+ sep +:+ join sep l'
  end.

(** [repr(v)]; an object of another library is shown by the text [str]
    gives for it. *)
Fixpoint repr (v : value) : string :=
  match v with
  | VNone => "None"
  | VBool true => "True"
  | VBool false => "False"
  | VInt n => pretty n
  | VFloat x => str_of_float x
  | VStr s => repr_str s
  | VList items => "[" +:+ join ", " (map repr items) +:+ "]"
  | VDict entries =>
      "{" +:+ join ", " (map (fun kv => repr_str (fst kv) +:+ ": " +:+ repr (snd kv)) entries)
          +:+ "}"
  | VObject _ _ _ s => s
  end.

#[global] Instance runtime : Runtime := {|
  Py.float_of_str := float_of_str;
  Py.str_of_float := str_of_float;
  Py.str_of_list := fun items => repr (VList items);
  Py.str_of_dict := fun entries => repr (VDict entries)
|}.

End CPython.

(** ** Making a result fit for JSON ([routes/chat.py], [database_service.py]) *)

Module Json.
Import Py.

(** [json.dumps(data)] used as a test: it raises [TypeError] on an object
    that is not a JSON value, wherever it sits. *)
Fixpoint json_dumps (data : value) : result unit :=
  match data with
  | VNone | VBool _ | VInt _ | VFloat _ | VStr _ => mret tt
  | VList items =>
      fold_right (fun item rest => _ ← json_dumps item; rest) (mret tt) items
  | VDict entries =>
      fold_right (fun entry rest => _ ← json_dumps (snd entry); rest) (mret tt) entries
  | VObject _ _ _ _ => raise TypeError
  end.

(** A list comprehension whose element expression may raise. *)
Fixpoint traverse {A B} (f : A -> result B) (l : list A) : result (list B) :=
  match l with
  | [] => mret []
  | x :: l' => y ← f x; ys ← traverse f l'; mret (y :: ys)
  end.

Section Clean.
Context `{Runtime}.

(** [clean_data_for_json(data)].  The first test reads the module of the
    value's type, which holds [numpy] for no builtin type. *)
Fixpoint clean_data_for_json (data : value) : result value :=
  let other_types :=
    match data with
    | VDict entries =>
        entries' ← traverse (fun kv => v ← clean_data_for_json (snd kv); mret (fst kv, v)) entries;
        mret (VDict entries')
    | VList items =>
        items' ← traverse clean_data_for_json items;
        mret (VList items')
    | VNone => mret VNone
    | _ =>
        match json_dumps data with
        | inr _ => mret data
        | inl TypeError | inl ValueError => mret (VStr (to_str data))
        | inl e => raise e
        end
    end in
  match data with
  | VObject type_module tolist item _ =>
      if PyStr.contains "numpy" type_module then
        match tolist, item with
        | Some l, _ => mret l
        | None, Some x => mret x
        | None, None => other_types
        end
      else other_types
  | _ => other_types
  end.

(** [DatabaseService.clean_data_for_serialization] has the same body. *)
Definition clean_data_for_serialization (data : value) : result value :=
  clean_data_for_json data.

(** *** Vocabulary of the properties *)

(** What [clean_data_for_json] makes of an object: the result of its
    [tolist()] or else of its [item()] when its type is numpy's, and
    otherwise, [json.dumps] refusing it, its text. *)
Definition converted (type_module : string) (tolist item : option value) : option value :=
  if PyStr.contains "numpy" type_module then
    match tolist with
    | Some l => Some l
    | None => item
    end
  else None.


End Clean.



End Json.

(** ** Charts ([visualization_service.py], [models/chat.py]) *)

Module Viz.
Import Py.

Inductive ChartType := BAR | LINE | PIE | SCATTER | HISTOGRAM | AREA.

(** [chart_type.value] *)
Definition chart_type_value (t : ChartType) : string :=
  match t with
  | BAR => "bar"
  | LINE => "line"
  | PIE => "pie"
  | SCATTER => "scatter"
  | HISTOGRAM => "histogram"
  | AREA => "area"
  end.

(** A row is a dict from column name to value. *)
Definition row : Type := list (string * value).

Record QueryResult := {
  data : list row;
  columns : list string;
  row_count : Z;
  execution_time_ms : float
}.

(** The dict a builder returns, by builder. *)
Inductive payload :=
| BarData (labels : list string) (values : list num) (x_label y_label : string)
| PieData (labels : list string) (values : list num) (total : num)
| ScatterData (x_values y_values : list num) (x_label y_label : string).

Record ChartData := {
  chart_type : ChartType;
  chart_payload : payload;
  title : string;
  description : option string
}.

Definition max_categories : nat := 15.

(** [data[0].get(col) if data else None] *)
Definition sample_val (data : list row) (col : string) : value :=
  match data with
  | [] => VNone
  | first :: _ => default VNone (dict_get col first)
  end.

(** The truth value of a variable that holds [None] or a string. *)
Definition truthy (s : option string) : bool :=
  match s with
  | None => false
  | Some s => negb (String.eqb s "")
  end.

(** The loop of [_create_bar_data] that looks for the first text column and
    the first numeric column, with its [break]. *)
Fixpoint find_columns (data : list row) (columns : list string)
    (text_col numeric_col : option string) : option string * option string :=
  match columns with
  | [] => (text_col, numeric_col)
  | col :: rest =>
      let text_col :=
        match text_col with
        | None => if is_str (sample_val data col) then Some col else None
        | Some _ => text_col
        end in
      let numeric_col :=
        match numeric_col with
        | None => if is_number (sample_val data col) then Some col else None
        | Some _ => numeric_col
        end in
      if truthy text_col && truthy numeric_col then (text_col, numeric_col)
      else find_columns data rest text_col numeric_col
  end.

(** The two fallbacks after the loop. *)
Definition text_column (columns : list string) (text_col : option string) : string :=
  if truthy text_col then default "" text_col
  else match columns with
       | c :: _ => c
       | [] => "category"
       end.

Definition numeric_column (columns : list string) (numeric_col : option string) : string :=
  if truthy numeric_col then default "" numeric_col
  else match columns with
       | _ :: c :: _ => c
       | [c] => c
       | [] => "value"
       end.

(** [dict(items)] *)
Definition dict_of_items {A} (items : list (string * A)) : list (string * A) :=
  fold_left (fun d kv => dict_set (fst kv) (snd kv) d) items [].

(** [sorted(items, key=lambda x: x[1], reverse=True)]: decreasing values,
    equal values in their first order.  [insert_desc] puts an item in front
    of the first item that is not larger. *)
Fixpoint insert_desc (x : string * num) (l : list (string * num)) : list (string * num) :=
  match l with
  | [] => [x]
  | y :: l' => if lt (snd x) (snd y) then y :: insert_desc x l' else x :: l
  end.

Definition sorted_desc (items : list (string * num)) : list (string * num) :=
  fold_right insert_desc [] items.

(** [sum(values)] *)
Definition sum (values : list num) : result num :=
  fold_left (fun acc v => a ← acc; add a v) values (mret (NInt 0)).

Section Builders.
Context `{Runtime}.

(** The [try] block of the bar loop:
    [float(value) if value is not None else 0], and 1 when [float] raises
    [TypeError] or [ValueError]. *)
Definition bar_value (value : value) : result num :=
  match value with
  | VNone => mret (NInt 0)
  | _ =>
      match to_float value with
      | inr x => mret (NFloat x)
      | inl TypeError | inl ValueError => mret (NInt 1)
      | inl e => raise e
      end
  end.

(** The aggregation loop. *)
Fixpoint aggregate (text_col numeric_col : string) (data : list row)
    (aggregated : list (string * num)) : result (list (string * num)) :=
  match data with
  | [] => mret aggregated
  | row :: rest =>
      let key := to_str (default (VStr "Unknown") (dict_get text_col row)) in
      let value := default (VInt 0) (dict_get numeric_col row) in
      value ← bar_value value;
      aggregated ←
        match dict_get key aggregated with
        | Some old => total ← add old value; mret (dict_set key total aggregated)
        | None => mret (dict_set key value aggregated)
        end;
      aggregate text_col numeric_col rest aggregated
  end.

(** The cap on the number of categories. *)
Definition limit_categories (aggregated : list (string * num)) : list (string * num) :=
  if (max_categories <? length aggregated)%nat
  then dict_of_items (take max_categories (sorted_desc aggregated))
  else aggregated.

(** [_create_bar_data(query_result)] *)
Definition _create_bar_data (query_result : QueryResult) : result payload :=
  let columns := columns query_result in
  let data := data query_result in
  let '(text_col, numeric_col) := find_columns data columns None None in
  let text_col := text_column columns text_col in
  let numeric_col := numeric_column columns numeric_col in
  aggregated ← aggregate text_col numeric_col data [];
  let aggregated := limit_categories aggregated in
  mret (BarData (map fst aggregated) (map snd aggregated) text_col numeric_col).

(** [_create_pie_data(query_result)] *)
Definition _create_pie_data (query_result : QueryResult) : result payload :=
  bar_data ← _create_bar_data query_result;
  match bar_data with
  | BarData labels values _ _ =>
      total ← sum values;
      mret (PieData labels values total)
  | _ => raise KeyError
  end.

(** The loop of [_create_scatter_data] that collects numeric columns, with
    its [break]. *)
Fixpoint find_numeric (data : list row) (columns numeric_cols : list string) : list string :=
  match columns with
  | [] => numeric_cols
  | col :: rest =>
      let numeric_cols :=
        if is_number (sample_val data col) then (numeric_cols ++ [col])%list else numeric_cols in
      if (2 <=? length numeric_cols)%nat then numeric_cols
      else find_numeric data rest numeric_cols
  end.

(** The [try] block of the scatter loop: both conversions, and both
    coordinates 0 when either raises [TypeError] or [ValueError]. *)
Definition scatter_point (x_val y_val : value) : result (num * num) :=
  let convert (v : value) : result num :=
    match v with
    | VNone => mret (NInt 0)
    | _ => x ← to_float v; mret (NFloat x)
    end in
  match (x ← convert x_val; y ← convert y_val; mret (x, y)) with
  | inr point => mret point
  | inl TypeError | inl ValueError => mret (NInt 0, NInt 0)
  | inl e => raise e
  end.

Fixpoint scatter_points (x_col y_col : string) (data : list row) : result (list (num * num)) :=
  match data with
  | [] => mret []
  | row :: rest =>
      let x_val := default (VInt 0) (dict_get x_col row) in
      let y_val := default (VInt 0) (dict_get y_col row) in
      point ← scatter_point x_val y_val;
      points ← scatter_points x_col y_col rest;
      mret (point :: points)
  end.

(** [l[i]], which raises [IndexError] out of range. *)
Definition index {A} (l : list A) (i : nat) : result A :=
  match l !! i with
  | Some x => mret x
  | None => raise IndexError
  end.

(** [_create_scatter_data(query_result)] *)
Definition _create_scatter_data (query_result : QueryResult) : result payload :=
  let columns := columns query_result in
  let data := data query_result in
  let numeric_cols := find_numeric data columns [] in
  let numeric_cols :=
    if (length numeric_cols <? 2)%nat then
      if (2 <=? length columns)%nat then take 2 columns else (columns ++ ["value"])%list
    else numeric_cols in
  x_col ← index numeric_cols 0;
  y_col ← (if (1 <? length numeric_cols)%nat then index numeric_cols 1
           else index numeric_cols 0);
  points ← scatter_points x_col y_col data;
  mret (ScatterData (map fst points) (map snd points) x_col y_col).

(** [_create_chart_data(query_result, chart_type)] *)
Definition _create_chart_data (query_result : QueryResult) (chart_type : ChartType)
  : result ChartData :=
  chart_data ←
    match chart_type with
    | BAR => _create_bar_data query_result
    | PIE => _create_pie_data query_result
    | SCATTER => _create_scatter_data query_result
    | _ => _create_bar_data query_result
    end;
  mret {| chart_type := chart_type;
          chart_payload := chart_data;
          title := PyStr.title (chart_type_value chart_type) +:+ " Chart";
          description :=
            Some ("Showing " +:+ pretty (length (data query_result)) +:+ " records") |}.

(** [create_visualization(query_result, suggested_chart_type)]: every
    exception of the body is caught and answered with [None]. *)
Definition create_visualization (query_result : QueryResult)
    (suggested_chart_type : option ChartType) : option ChartData :=
  match data query_result, suggested_chart_type with
  | [], _ | _, None => None
  | _ :: _, Some chart_type =>
      match _create_chart_data query_result chart_type with
      | inr chart_data => Some chart_data
      | inl _ => None
      end
  end.

(** *** Vocabulary of the properties *)

(** The label of a row. *)
Definition row_key (text_col : string) (r : row) : string :=
  to_str (default (VStr "Unknown") (dict_get text_col r)).

(** The number a row contributes to its label. *)
Definition row_value (numeric_col : string) (r : row) : result num :=
  bar_value (default (VInt 0) (dict_get numeric_col r)).

(** The sum for one label: the numbers of its rows, added in the order of
    the rows.  [acc] is the sum so far, [None] before the first row of the
    label.  The number of every row is computed, as the loop does. *)
Fixpoint label_total (text_col numeric_col label : string) (data : list row)
    (acc : option num) : result (option num) :=
  match data with
  | [] => mret acc
  | r :: rest =>
      value ← row_value numeric_col r;
      if String.eqb (row_key text_col r) label then
        total ← match acc with
                 | Some t => add t value
                 | None => mret value
                 end;
        label_total text_col numeric_col label rest (Some total)
      else label_total text_col numeric_col label rest acc
  end.

(** The coordinate a value stands for: 0 for [None], else its conversion
    by [float]. *)
Definition coordinate (v : value) : result num :=
  match v with
  | VNone => mret (NInt 0)
  | _ => x ← to_float v; mret (NFloat x)
  end.

(** The point of a row. *)
Definition row_point (x_col y_col : string) (r : row) : result (num * num) :=
  scatter_point (default (VInt 0) (dict_get x_col r)) (default (VInt 0) (dict_get y_col r)).

End Builders.

(** The labels in the order of their first rows. *)
Definition first_seen (seen : list string) (keys : list string) : list string :=
  fold_left (fun seen k => if bool_decide (k ∈ seen) then seen else (seen ++ [k])%list)
            keys seen.

(** The columns the builder settles on. *)
Definition bar_columns (query_result : QueryResult) : string * string :=
  let '(text_col, numeric_col) :=
    find_columns (data query_result) (columns query_result) None None in
  (text_column (columns query_result) text_col,
   numeric_column (columns query_result) numeric_col).

(** The columns whose value in the first row is a string. *)
Definition text_columns (query_result : QueryResult) : list string :=
  List.filter (fun col => is_str (sample_val (data query_result) col))
              (columns query_result).

(** The columns whose value in the first row is a number. *)
Definition numeric_columns (query_result : QueryResult) : list string :=
  List.filter (fun col => is_number (sample_val (data query_result) col))
              (columns query_result).

(** The columns of the two coordinates: the first two numeric columns;
    when there are not two of them, the first two columns, the name [value]
    standing in for a column that is not there. *)
Definition scatter_columns (query_result : QueryResult) : string * string :=
  match numeric_columns query_result with
  | x :: y :: _ => (x, y)
  | _ =>
      match columns query_result with
      | x :: y :: _ => (x, y)
      | [x] => (x, "value")
      | [] => ("value", "value")
      end
  end.



(** What the cap drops. *)
Definition dropped_categories (aggregated : list (string * num)) : list (string * num) :=
  if (max_categories <? length aggregated)%nat
  then drop max_categories (sorted_desc aggregated)
  else [].

(** *** Results for the examples *)

(** A result of the given rows. *)
Definition result_of (columns : list string) (data : list row) : QueryResult :=
  {| data := data; columns := columns;
     row_count := Z.of_nat (length data); execution_time_ms := 12%float |}.

(** The rows of the specification. *)
Definition sales_by_region : QueryResult :=
  result_of ["region"; "sales"]
    [ [("region", VStr "east"); ("sales", VInt 10)];
      [("region", VStr "east"); ("sales", VInt 5)];
      [("region", VStr "west"); ("sales", VInt 7)] ].




End Viz.

(** ** The query handler ([routes/chat.py]) *)

Module Chat.
Import Py Viz.

Inductive QueryType := TABLE | CHART | TEXT | ERROR.


Record SQLQuery := {
  query : string;
  explanation : string;
  estimated_rows : option Z
}.

Record ChatResponse := {
  query_type : QueryType;
  sql_query : SQLQuery;
  result : option QueryResult;
  chart : option ChartData;
  text_response : option string;
  error_message : option string;
  processing_time_ms : float;
  timestamp : Z
}.

(** A call the handler makes to a collaborator. *)
Inductive call :=
| GetSchema (metabase_session_id : string)
| GetSampleData (metabase_session_id table_name : string)
| Completion (user_question : string)
| ExecuteSql (metabase_session_id sql : string)
| SuggestVisualization (sql : string).

(** The collaborators: the BI platform behind [database_service] and the
    completion service behind [openai_service].  [get_database_schema] gives
    the [name] of each table of the schema ([None] when the entry has none);
    the schema text and the samples only feed the prompt, so the completion
    is taken as it comes: [completion] is the query and the explanation that
    [_parse_sql_response] extracts from the reply, or the exception met on
    the way. *)
Record Services := {
  get_database_schema : string -> Py.result (list (option string));
  get_sample_data : string -> string -> list row;
  completion : string -> Py.result (string * string);
  execute_sql_query : string -> string -> Py.result QueryResult;
  suggest_visualization : string -> list string -> list row -> option ChartType
}.

(** [str(e)] *)
Definition exn_str (e : exn) : string :=
  match e with
  | TypeError => "TypeError"
  | ValueError => "ValueError"
  | OverflowError => "int too large to convert to float"
  | KeyError => "KeyError"
  | IndexError => "list index out of range"
  | Error msg => msg
  end.

Section Handler.
Context `{Runtime} (services : Services).

(** [openai_service.generate_sql_query] *)
Definition generate_sql_query (user_question : string) : Py.result SQLQuery :=
  match completion services user_question with
  | inr (sql, explanation) =>
      mret {| query := sql; explanation := explanation;
              estimated_rows := Sql._estimate_result_size sql |}
  | inl e => raise (Error ("Failed to generate SQL query: " +:+ exn_str e))
  end.

(** The rows and the column names a [QueryResult] is built from, after
    [clean_data_for_json]; a cleaned value of another shape fails the
    validation of the model. *)
Definition rows_of (v : value) : Py.result (list row) :=
  match v with
  | VList items =>
      Json.traverse (fun item => match item with
                                 | VDict entries => mret entries
                                 | _ => raise (Error "validation error for QueryResult")
                                 end) items
  | _ => raise (Error "validation error for QueryResult")
  end.

Definition names_of (v : value) : Py.result (list string) :=
  match v with
  | VList items =>
      Json.traverse (fun item => match item with
                                 | VStr s => mret s
                                 | _ => raise (Error "validation error for QueryResult")
                                 end) items
  | _ => raise (Error "validation error for QueryResult")
  end.

(** Step 6 of the handler, inside its own [try]: the calls made and the
    parts of the response that depend on them. *)
Definition execute_step (metabase_session_id : string) (sql : SQLQuery)
  : list call * Py.result (QueryResult * option ChartData * option ChartType) :=
  match execute_sql_query services metabase_session_id (query sql) with
  | inl e => ([ExecuteSql metabase_session_id (query sql)], inl e)
  | inr query_result =>
      let built :=
        cleaned_data ← Json.clean_data_for_json (VList (map VDict (data query_result)));
        cleaned_columns ← Json.clean_data_for_json (VList (map VStr (columns query_result)));
        rows ← rows_of cleaned_data;
        names ← names_of cleaned_columns;
        mret {| data := rows; columns := names;
                row_count := row_count query_result;
                execution_time_ms := execution_time_ms query_result |} in
      match built with
      | inl e => ([ExecuteSql metabase_session_id (query sql)], inl e)
      | inr result =>
          let chart_suggestion :=
            suggest_visualization services (query sql) (columns result) (take 3 (data result)) in
          let chart_data :=
            match chart_suggestion with
            | Some _ => create_visualization result chart_suggestion
            | None => None
            end in
          ([ExecuteSql metabase_session_id (query sql); SuggestVisualization (query sql)],
           inr (result, chart_data, chart_suggestion))
      end
  end.

(** [process_chat_query(chat_request, current_user)]: the calls made, in
    order, and the response.  [start_time] and [end_time] are the two
    readings of [time.time()], [now] the reading of [datetime.utcnow()]. *)
Definition process_chat_query (message : string) (current_user : Auth.SessionData)
    (start_time end_time : float) (now : Z) : list call * ChatResponse :=
  let sid := Auth.metabase_session_id current_user in
  let processing_time := ((end_time - start_time) * 1000)%float in
  let failed (e : exn) :=
    {| query_type := ERROR;
       sql_query := {| query := ""; explanation := "Query failed"; estimated_rows := None |};
       result := None; chart := None; text_response := None;
       error_message := Some (exn_str e);
       processing_time_ms := processing_time; timestamp := now |} in
  match get_database_schema services sid with
  | inl e =>
      ([GetSchema sid],
       failed (Error ("Failed to retrieve database schema: " +:+ exn_str e)))
  | inr tables =>
      let sampled :=
        omap (fun name => match name with
                          | Some n => if negb (String.eqb n "") then Some n else None
                          | None => None
                          end) (take 3 tables) in
      let before := (GetSchema sid :: map (GetSampleData sid) sampled
                       ++ [Completion message])%list in
      match generate_sql_query message with
      | inl e => (before, failed e)
      | inr sql =>
          let '(is_safe, safety_message) := Sql.validate_sql_safety (query sql) in
          if negb is_safe then
            (before,
             {| query_type := ERROR; sql_query := sql;
                result := None; chart := None; text_response := None;
                error_message := Some ("Unsafe SQL query: " +:+ safety_message);
                processing_time_ms := processing_time; timestamp := now |})
          else
            let '(calls, outcome) := execute_step sid sql in
            (before ++ calls,
             match outcome with
             | inr (result, chart_data, chart_suggestion) =>
                 match chart_data, chart_suggestion with
                 | Some _, Some suggestion =>
                     {| query_type := CHART; sql_query := sql;
                        result := Some result; chart := chart_data;
                        text_response :=
                          Some ("Found " +:+ pretty (row_count result)
                                +:+ " results. Generated " +:+ chart_type_value suggestion
                                +:+ " chart for visualization.");
                        error_message := None;
                        processing_time_ms := processing_time; timestamp := now |}
                 | _, _ =>
                     {| query_type := TABLE; sql_query := sql;
                        result := Some result; chart := chart_data;
                        text_response :=
                          Some ("Found " +:+ pretty (row_count result)
                                +:+ " results. Data is best displayed in table format.");
                        error_message := None;
                        processing_time_ms := processing_time; timestamp := now |}
                 end
             | inl sql_error =>
                 {| query_type := ERROR; sql_query := sql;
                    result := None; chart := None;
                    text_response :=
                      Some "The SQL was generated but failed to execute. Please check the query syntax.";
                    error_message := Some ("SQL execution failed: " +:+ exn_str sql_error);
                    processing_time_ms := processing_time; timestamp := now |}
             end)%list
      end
  end.

End Handler.

(** *** Vocabulary of the properties *)

(** A call of [execute_sql_query]. *)
Definition is_execute (c : call) : bool :=
  match c with
  | ExecuteSql _ _ => true
  | _ => false
  end.

(** The collaborators of the scenarios: one table, a completion that
    answers with the given query, a platform that gives the rows. *)
Definition scenario (sql : string) (rows : Py.result QueryResult)
    (suggestion : option ChartType) : Services :=
  {| get_database_schema := fun _ => inr [Some "orders"];
     get_sample_data := fun _ _ => [];
     completion := fun _ => inr (sql, "As asked.");
     execute_sql_query := fun _ _ => rows;
     suggest_visualization := fun _ _ _ => suggestion |}.

(** A user for the scenarios. *)
Definition ada : Auth.SessionData :=
  {| Auth.username := "ada"; Auth.metabase_session_id := "mb-1";
     Auth.user_id := 7; Auth.expires_at := 100 |}.

End Chat.

(** ** The authentication routes ([routes/auth.py], [routes/schema.py],
       [routes/chat.py]) *)

Module AuthRoutes.
Import PyStr Auth.

(** [HTTPException(status_code=status.HTTP_401_UNAUTHORIZED, detail=...)] *)
Definition unauthorized (detail : string) : HTTPException :=
  {| status_code := 401; detail := detail |}.

(** [authorization.split(" ")[1]]; [None] stands for [IndexError]. *)
Definition second_field (authorization : string) : option string :=
  split_on " " authorization !! 1%nat.

(** The three checks on the [Authorization] header with which [logout],
    [get_current_user] and [validate_session] of [routes/auth.py] begin:
    the text of the refusal, or the session token.  The header is
    [None] when the request has none. *)
Definition read_authorization (authorization : option string) : string + string :=
  match authorization with
  | None => inl "Missing authorization header"
  | Some header =>
      if negb (truthy header) then inl "Missing authorization header"
      else if negb (startswith header "Bearer ")
      then inl "Invalid authorization format. Use: Bearer <token>"
      else
        match second_field header with
        | Some session_token => inr session_token
        | None => inl "Invalid authorization format"
        end
  end.

(** [models.auth.User] *)
Record User := {
  id : Z;
  username : string;
  email : option string;
  first_name : option string;
  last_name : option string;
  is_active : bool;
  is_superuser : bool
}.

(** [POST /logout] *)
Definition logout (delete_call : reply unit)
    (during : gmap string SessionData -> gmap string SessionData)
    (authorization : option string) (sessions : gmap string SessionData)
  : (HTTPException + string) * gmap string SessionData :=
  match read_authorization authorization with
  | inl detail => (inl (unauthorized detail), sessions)
  | inr session_token =>
      let '(success, sessions) := Auth.logout delete_call during session_token sessions in
      if success then (inr "Successfully logged out", sessions)
      else (inl {| status_code := 400; detail := "Logout failed" |}, sessions)
  end.

(** [GET /me] *)
Definition get_current_user (now : Z) (authorization : option string)
    (sessions : gmap string SessionData)
  : (HTTPException + User) * gmap string SessionData :=
  match read_authorization authorization with
  | inl detail => (inl (unauthorized detail), sessions)
  | inr session_token =>
      match validate_session now session_token sessions with
      | (None, sessions) => (inl (unauthorized "Invalid or expired session"), sessions)
      | (Some session_data, sessions) =>
          (inr {| id := user_id session_data;
                  username := Auth.username session_data;
                  email := None; first_name := None; last_name := None;
                  is_active := true; is_superuser := false |},
           sessions)
      end
  end.

(** The answer of [GET /validate]: [{"valid": False, "detail": ...}] or
    [{"valid": True, "username": ..., "expires_at": ..., "user_id": ...}]. *)
Inductive Validation :=
| Invalid (detail : string)
| Valid (username : string) (expires_at : Z) (user_id : Z).

(** [GET /validate] *)
Definition validate_session (now : Z) (authorization : option string)
    (sessions : gmap string SessionData)
  : Validation * gmap string SessionData :=
  match read_authorization authorization with
  | inl detail => (Invalid detail, sessions)
  | inr session_token =>
      match Auth.validate_session now session_token sessions with
      | (None, sessions) => (Invalid "Invalid or expired session", sessions)
      | (Some session_data, sessions) =>
          (Valid (Auth.username session_data) (expires_at session_data) (user_id session_data),
           sessions)
      end
  end.

(** The answer of [GET /status]. *)
Record Status := {
  service : string;
  status : string;
  active_sessions : nat;
  metabase_url : string
}.

(** [GET /status].  [cleanup_expired_sessions] and
    [get_active_sessions_count] each read the clock: [now] is the first
    reading, [later] the second. *)
Definition auth_status (now later : Z) (url : string)
    (sessions : gmap string SessionData) : Status * gmap string SessionData :=
  let sessions := cleanup_expired_sessions now sessions in
  ({| service := "Authentication Service";
      status := "operational";
      active_sessions := get_active_sessions_count later sessions;
      metabase_url := url |},
   sessions).

(** What a dependency raises: an [HTTPException], or the [IndexError] of
    a subscript left uncaught. *)
Inductive raised :=
| Http (e : HTTPException)
| UncaughtIndexError.

(** [get_current_user] of [routes/schema.py] (and of the copy of the chat
    routes under [services/routes]). *)
Definition schema_get_current_user (now : Z) (authorization : option string)
    (sessions : gmap string SessionData)
  : (raised + SessionData) * gmap string SessionData :=
  let refused := Http (unauthorized "Missing or invalid authorization header") in
  match authorization with
  | None => (inl refused, sessions)
  | Some header =>
      if negb (truthy header) || negb (startswith header "Bearer ")
      then (inl refused, sessions)
      else
        match second_field header with
        | None => (inl UncaughtIndexError, sessions)
        | Some session_token =>
            match Auth.validate_session now session_token sessions with
            | (None, sessions) =>
                (inl (Http (unauthorized "Invalid or expired session")), sessions)
            | (Some session_data, sessions) => (inr session_data, sessions)
            end
        end
  end.

(** [get_current_user] of [routes/chat.py]; [credentials] is the token the
    [HTTPBearer] scheme has read. *)
Definition chat_get_current_user (now : Z) (credentials : string)
    (sessions : gmap string SessionData)
  : (HTTPException + SessionData) * gmap string SessionData :=
  match Auth.validate_session now credentials sessions with
  | (None, sessions) => (inl (unauthorized "Invalid or expired session"), sessions)
  | (Some session_data, sessions) => (inr session_data, sessions)
  end.

End AuthRoutes.

(** ** Reading the completions ([openai_service.py]) *)

Module OpenAI.
Import PyStr Py Viz.

Definition newline : ascii := ascii_of_nat 10.

(** [line.strip().upper().startswith('SQL:')] and
    [line.strip().upper().startswith('EXPLANATION:')] *)
Definition is_sql_heading (line : string) : bool :=
  startswith (upper (strip line)) "SQL:".

Definition is_explanation_heading (line : string) : bool :=
  startswith (upper (strip line)) "EXPLANATION:".

(** The loop of the fallback of [_parse_sql_response] over the lines of the
    reply: the lines kept in [sql_lines].  [in_sql] is set by a line that
    starts with [SQL:], whatever its case, and the loop ends at a line that
    starts with [EXPLANATION:]. *)
Fixpoint sql_lines (in_sql : bool) (lines : list string) : list string :=
  match lines with
  | [] => []
  | line :: rest =>
      if is_sql_heading line then sql_lines true rest
      else if is_explanation_heading line then []
      else if in_sql then line :: sql_lines in_sql rest
      else sql_lines in_sql rest
  end.

Definition nl : string := String newline "".

(** [_parse_sql_response(content) -> (sql_query, explanation)].  No
    statement of its [try] block raises on a string, so the handler that
    returns [(content, "Generated query")] is never entered. *)
Definition _parse_sql_response (content : string) : string * string :=
  let sql_start := find "```sql" content in
  let sql_end := find_from "```" (sql_start + 6) content in
  let sql_query :=
    if negb (sql_start =? -1) && negb (sql_end =? -1)
    then strip (slice (sql_start + 6) sql_end content)
    else
      let lines := split_on newline content in
      strip (CPython.join nl (sql_lines false lines)) in
  let explanation_start := find "EXPLANATION:" content in
  let explanation :=
    if negb (explanation_start =? -1)
    then strip (slice_from (explanation_start + 12) content)
    else "SQL query generated successfully" in
  (sql_query, explanation).

(** [generate_sql_query] from the reply of the completion service on:
    [reply] is the [content] of the first choice, or the exception the call
    or the reading of the reply raised. *)
Definition generate_sql_query (reply : result string) : result Chat.SQLQuery :=
  match reply with
  | inr content =>
      let '(sql_query, explanation) := _parse_sql_response (strip content) in
      mret {| Chat.query := sql_query;
              Chat.explanation := explanation;
              Chat.estimated_rows := Sql._estimate_result_size sql_query |}
  | inl e => raise (Error ("Failed to generate SQL query: " +:+ Chat.exn_str e))
  end.

(** [chart_mapping] *)
Definition chart_mapping : list (string * ChartType) :=
  [ ("bar", BAR); ("line", LINE); ("pie", PIE);
    ("scatter", SCATTER); ("histogram", HISTOGRAM); ("area", AREA) ].

(** [suggest_visualization(sql_query, column_info, sample_results)].  The
    prompt holds [json.dumps] of the first three sample rows, which raises
    on a value that is not a JSON value; [reply] is the [content] of the
    first choice, or the exception the call or the reading of the reply
    raised.  Every exception is answered with [None]. *)
Definition suggest_visualization (sample_results : list row) (reply : result string)
  : option ChartType :=
  match Json.json_dumps (VList (map VDict (take 3 sample_results))) with
  | inl _ => None
  | inr _ =>
      match reply with
      | inl _ => None
      | inr content =>
          let suggestion := lower (strip content) in
          if String.eqb suggestion "table" then None
          else dict_get suggestion chart_mapping
      end
  end.

(** *** Vocabulary of the properties *)

(** A line that is no heading. *)
Definition plain (line : string) : Prop :=
  is_sql_heading line = false /\ is_explanation_heading line = false.

(** *** Replies for the examples *)

(** A reply in the format the prompt asks for. *)
Definition fenced_reply : string :=
  "SQL:" +:+ nl +:+ "```sql" +:+ nl +:+ "SELECT * FROM orders LIMIT 5" +:+ nl +:+ "```"
    +:+ nl +:+ nl +:+ "EXPLANATION:" +:+ nl +:+ "Lists five orders.".

(** A reply cut short before the closing fence. *)
Definition cut_reply : string :=
  "Here it is." +:+ nl +:+ "SQL: as asked" +:+ nl +:+ "```sql" +:+ nl
    +:+ "SELECT * FROM orders".

End OpenAI.

(** ** Dynamically typed access to a JSON document *)

Module Dyn.
Import Py.

(** [type(v).__name__].  An object of another library has a name of its
    own; no JSON document holds one. *)
Definition type_name (v : value) : string :=
  match v with
  | VNone => "NoneType"
  | VBool _ => "bool"
  | VInt _ => "int"
  | VFloat _ => "float"
  | VStr _ => "str"
  | VList _ => "list"
  | VDict _ => "dict"
  | VObject _ _ _ _ => "object"
  end.

(** [bool(v)], the test of [if v] and [v or w]. *)
Definition truthy (v : value) : bool :=
  match v with
  | VNone => false
  | VBool b => b
  | VInt n => negb (n =? 0)
  | VFloat x => negb (PrimFloat.eqb x 0)
  | VStr s => negb (String.eqb s "")
  | VList items => match items with [] => false | _ => true end
  | VDict entries => match entries with [] => false | _ => true end
  | VObject _ _ _ _ => true
  end.

(** [v.get(key, fallback)]; only a dict has the method. *)
Definition get (key : string) (fallback : value) (v : value) : result value :=
  match v with
  | VDict entries => mret (default fallback (dict_get key entries))
  | _ => raise (Error ("'" +:+ type_name v +:+ "' object has no attribute 'get'"))
  end.

(** [for x in v]: the items of a list, the characters of a string, the
    keys of a dict. *)
Definition iterate (v : value) : result (list value) :=
  match v with
  | VList items => mret items
  | VStr s => mret (map (fun c => VStr (String c "")) (list_ascii_of_string s))
  | VDict entries => mret (map (fun kv => VStr (fst kv)) entries)
  | _ => raise (Error ("'" +:+ type_name v +:+ "' object is not iterable"))
  end.

(** [v == text] for a string literal [text]. *)
Definition eq_str (v : value) (text : string) : bool :=
  match v with
  | VStr s => String.eqb s text
  | _ => false
  end.

(** The number a value is, [bool] being a kind of [int]. *)
Definition as_number (v : value) : option num :=
  match v with
  | VBool b => Some (NInt (if b then 1 else 0))
  | VInt n => Some (NInt n)
  | VFloat x => Some (NFloat x)
  | _ => None
  end.

(** Equal numbers are one key.  The [NaN] of a JSON document is one
    object, so it is one key too. *)
Definition number_key_eq (a b : num) : bool :=
  match a, b with
  | NInt m, NInt n => m =? n
  | NInt m, NFloat y | NFloat y, NInt m =>
      match compare_Z_float m y with
      | Some Eq => true
      | _ => false
      end
  | NFloat x, NFloat y =>
      PrimFloat.eqb x y || (negb (PrimFloat.eqb x x) && negb (PrimFloat.eqb y y))
  end.

(** Two values of a JSON document are the same key of a dict. *)
Definition key_eq (a b : value) : bool :=
  match a, b with
  | VNone, VNone => true
  | VStr s, VStr t => String.eqb s t
  | _, _ =>
      match as_number a, as_number b with
      | Some x, Some y => number_key_eq x y
      | _, _ => false
      end
  end.

(** A list and a dict have no hash. *)
Definition hashable (v : value) : bool :=
  match v with
  | VList _ | VDict _ => false
  | _ => true
  end.

(** A dict with keys of any type, by its items in insertion order. *)
Definition items : Type := list (value * value).

(** [d[k] = v] *)
Fixpoint set_item (k v : value) (d : items) : items :=
  match d with
  | [] => [(k, v)]
  | (k', v') :: d' => if key_eq k' k then (k', v) :: d' else (k', v') :: set_item k v d'
  end.

(** [d.get(k)] *)
Fixpoint get_item (k : value) (d : items) : option value :=
  match d with
  | [] => None
  | (k', v) :: d' => if key_eq k' k then Some v else get_item k d'
  end.

(** [dict(zip(keys, values))], on top of [d]: the pairs go in one by one,
    up to the end of the shorter list. *)
Fixpoint dict_zip (keys values : list value) (d : items) : result items :=
  match keys, values with
  | k :: keys', v :: values' =>
      if hashable k then dict_zip keys' values' (set_item k v d)
      else raise (Error ("unhashable type: '" +:+ type_name k +:+ "'"))
  | _, _ => mret d
  end.

End Dyn.

(** ** The queries sent to the platform ([database_service.py]) *)

Module Database.
Import PyStr Py Dyn.

(** What an [httpx] call gives: an exception, by its text [str(e)], or a
    response with its status code, its [text] and what [response.json()]
    gives, a value or an exception, by its text. *)
Inductive http_reply :=
| Raises (message : string)
| Response (status_code : Z) (text : string) (json : string + value).

(** The [POST /api/dataset] of a native query. *)
Record Request := {
  session : string;
  database : Z;
  native_query : string
}.

(** The dict [execute_sql_query] returns. *)
Record ExecuteResult := {
  data : list items;
  columns : list value;
  row_count : nat;
  execution_time_ms : value
}.

(** [response.json()] *)
Definition read_json (json : string + value) : result value :=
  match json with
  | inl message => raise (Error message)
  | inr v => mret v
  end.

(** The conversion applied to every cell: [value.item()] when the value
    has the method, else [value.tolist()] when it has that one, else the
    value. *)
Definition to_python (cell : value) : value :=
  match cell with
  | VObject _ tolist item _ =>
      match item, tolist with
      | Some x, _ => x
      | None, Some l => l
      | None, None => cell
      end
  | _ => cell
  end.

(** [f"column_{i}"] *)
Definition fallback_name (i : nat) : string := "column_" +:+ pretty (Z.of_nat i).

(** [col.get("display_name") or col.get("name", "unknown")] *)
Definition column_name (col : value) : result value :=
  display_name ← get "display_name" VNone col;
  if truthy display_name then mret display_name
  else get "name" (VStr "unknown") col.

(** The column metadata: [data.get("cols", [])], or the columns of
    [results_metadata] when that is empty. *)
Definition cols_metadata (data : value) : result value :=
  cols ← get "cols" (VList []) data;
  if negb (truthy cols) then
    results_metadata ← get "results_metadata" (VDict []) data;
    get "columns" (VList []) results_metadata
  else mret cols.

(** The loop over the rows.  Without column names the row is keyed by
    [column_0], [column_1], ... and these become the column names for the
    rows that follow. *)
Fixpoint rows_to_dicts (columns : list value) (rows : list value)
  : result (list items * list value) :=
  match rows with
  | [] => mret ([], columns)
  | row :: rest =>
      values ← iterate row;
      let clean_row := map to_python values in
      step ←
        (if (0 <? length columns)%nat then
           row_dict ← dict_zip columns clean_row [];
           mret (row_dict, columns)
         else
           mret (imap (fun i cell => (VStr (fallback_name i), cell)) clean_row,
                 map (fun i => VStr (fallback_name i)) (seq 0 (length clean_row))));
      following ← rows_to_dicts (snd step) rest;
      mret (fst step :: fst following, snd following)
  end.

(** [v[key]] for a string [key]: only a dict has such items. *)
Definition subscript (key : string) (v : value) : result value :=
  match v with
  | VDict entries =>
      match dict_get key entries with
      | Some x => mret x
      | None => raise KeyError
      end
  | _ => raise TypeError
  end.

(** [int(s)] *)
Definition int (s : string) : result Z :=
  match int_of_str s with
  | Some n => mret n
  | None =>
      raise (Error ("invalid literal for int() with base 10: " +:+ CPython.repr_str s))
  end.

(** The last handler of [execute_sql_query]: an exception whose text holds
    [SQL Error:] or [HTTP] is raised again as it is; of any other the first
    200 characters are shown. *)
Definition reraise (message : string) : exn :=
  if contains "SQL Error:" message || contains "HTTP" message then Error message
  else Error ("Database query failed: " +:+ slice_to 200 message +:+ "...").

Section Service.
Context `{Runtime}.
(** [settings.metabase_database_id] *)
Variable database_id : string.

(** [clean_data_for_serialization] on the list of the row dicts: the keys
    stay, every value is cleaned. *)
Definition clean_rows (result_data : list items) : result (list items) :=
  Json.traverse
    (Json.traverse (fun kv : value * value =>
                      v ← Json.clean_data_for_serialization (snd kv); mret (fst kv, v)))
    result_data.

(** The body of [execute_sql_query] from the parsed response on. *)
Definition read_result (result : value) : Py.result ExecuteResult :=
  _ ← get "status" VNone result;
  status ← get "status" VNone result;
  if eq_str status "failed" then
    error_msg ← get "error" (VStr "Unknown SQL error") result;
    raise (Error ("SQL Error: " +:+ to_str error_msg))
  else
    error ← get "error" VNone result;
    if truthy error then raise (Error ("SQL Error: " +:+ to_str error))
    else
      data ← get "data" (VDict []) result;
      cols ← cols_metadata data;
      cols ← iterate cols;
      columns ← Json.traverse column_name cols;
      rows ← get "rows" (VList []) data;
      rows ← iterate rows;
      parsed ← rows_to_dicts columns rows;
      cleaned_data ← clean_rows (fst parsed);
      cleaned_columns ← Json.traverse Json.clean_data_for_serialization (snd parsed);
      running_time ← get "running_time" (VInt 0) result;
      mret {| data := cleaned_data;
              columns := cleaned_columns;
              row_count := length (fst parsed);
              execution_time_ms := running_time |}.

(** [execute_sql_query(metabase_session_id, sql_query)]; [post] is the
    platform. *)
Definition execute_sql_query (post : Request -> http_reply)
    (metabase_session_id sql_query : string) : Py.result ExecuteResult :=
  let attempt :=
    database ← int database_id;
    match post {| session := metabase_session_id; database := database;
                  native_query := sql_query |} with
    | Raises message => raise (Error message)
    | Response status_code text json =>
        if negb ((status_code =? 200) || (status_code =? 202))
        then raise (Error ("HTTP " +:+ pretty status_code +:+ ": " +:+ text))
        else
          result ← read_json json;
          read_result result
    end in
  match attempt with
  | inr clean_result => mret clean_result
  | inl e => inl (reraise (Chat.exn_str e))
  end.

(** [f"SELECT * FROM {table_name} LIMIT {limit}"] *)
Definition sample_query (table_name : string) (limit : Z) : string :=
  "SELECT * FROM " +:+ table_name +:+ " LIMIT " +:+ pretty limit.

(** [get_sample_data(metabase_session_id, table_name, limit)]: the requests
    made and the rows returned.  Every exception is answered with []. *)
Definition get_sample_data (post : Request -> http_reply)
    (metabase_session_id table_name : string) (limit : Z)
  : list Request * list items :=
  match int database_id with
  | inl _ => ([], [])
  | inr database =>
      let request := {| session := metabase_session_id; database := database;
                        native_query := sample_query table_name limit |} in
      let attempt : Py.result (list items) :=
        match post request with
        | Raises message => raise (Error message)
        | Response status_code _ json =>
            if negb (status_code =? 200) then mret []
            else
              result ← read_json json;
              data ← get "data" (VDict []) result;
              cols ← get "cols" (VList []) data;
              cols ← iterate cols;
              columns ← Json.traverse (subscript "name") cols;
              data ← get "data" (VDict []) result;
              rows ← get "rows" (VList []) data;
              rows ← iterate rows;
              Json.traverse (fun row => values ← iterate row; dict_zip columns values [])
                            rows
        end in
      ([request],
       match attempt with
       | inr sample_data => sample_data
       | inl _ => []
       end)
  end.

End Service.

(** *** Replies for the examples *)

(** A platform that gives the same reply to every request. *)
Definition platform (reply : http_reply) : Request -> http_reply := fun _ => reply.

(** A body with two named columns and two rows. *)
Definition named_body : value :=
  VDict [ ("status", VStr "completed");
          ("data",
           VDict [ ("rows", VList [ VList [VStr "east"; VInt 15];
                                    VList [VStr "west"; VInt 7] ]);
                   ("cols", VList [ VDict [("name", VStr "region");
                                           ("display_name", VStr "Region")];
                                    VDict [("name", VStr "total");
                                           ("display_name", VStr "")] ]) ]);
          ("running_time", VInt 12) ].

(** A body without column metadata, with a second row wider than the
    first. *)
Definition unnamed_body : value :=
  VDict [ ("data",
           VDict [ ("rows", VList [ VList [VInt 1; VInt 2];
                                    VList [VInt 3; VInt 4; VInt 5] ]) ]) ].

End Database.

(** ** The schema of the database ([database_service.py], [routes/schema.py]) *)

Module Schema.
Import PyStr Py Dyn.

(** The dict made of a field of a table. *)
Record ColumnInfo := {
  column_name : value;
  column_display_name : value;
  column_type : value;
  database_type : value;
  nullable : bool;
  description : value
}.

(** [{"column": ..., "references": ...}] *)
Record ForeignKey := {
  column : value;
  references : value
}.

(** The dict [_process_table_info] returns. *)
Record TableInfo := {
  name : value;
  display_name : value;
  schema : value;
  columns : list ColumnInfo;
  primary_keys : list value;
  foreign_keys : list ForeignKey;
  row_count : value
}.

(** The dict [get_database_schema] returns. *)
Record SchemaInfo := {
  database_name : value;
  database_engine : value;
  tables : list TableInfo
}.

(** One round of the loop over the fields: the column, and what the round
    appends to [primary_keys] and to [foreign_keys]. *)
Definition process_field (field : value)
  : result (ColumnInfo * option value * option ForeignKey) :=
  name ← get "name" VNone field;
  display_name ← get "display_name" VNone field;
  base_type ← get "base_type" VNone field;
  database_type ← get "database_type" VNone field;
  database_required ← get "database_required" (VBool false) field;
  description ← get "description" VNone field;
  semantic_type ← get "semantic_type" VNone field;
  fk_target_field_id ← get "fk_target_field_id" VNone field;
  mret ({| column_name := name;
           column_display_name := display_name;
           column_type := base_type;
           database_type := database_type;
           nullable := negb (truthy database_required);
           description := description |},
        if eq_str semantic_type "type/PK" then Some name else None,
        if eq_str semantic_type "type/FK"
        then Some {| column := name; references := fk_target_field_id |}
        else None).

(** [_process_table_info(table, metabase_session_id)].  The handler
    formats [table.get('name')] into its log line, which raises again when
    [table] is no dict. *)
Definition _process_table_info (table : value) : result (option TableInfo) :=
  let attempt :=
    name ← get "name" VNone table;
    display_name ← get "display_name" VNone table;
    schema ← get "schema" VNone table;
    row_count ← get "rows" VNone table;
    fields ← get "fields" (VList []) table;
    fields ← iterate fields;
    processed ← Json.traverse process_field fields;
    mret {| name := name;
            display_name := display_name;
            schema := schema;
            columns := map (fun p => fst (fst p)) processed;
            primary_keys := omap (fun p => snd (fst p)) processed;
            foreign_keys := omap snd processed;
            row_count := row_count |} in
  match attempt with
  | inr table_info => mret (Some table_info)
  | inl _ => _ ← get "name" VNone table; mret None
  end.

(** [get_database_schema(metabase_session_id)]; the two replies are those
    to [GET /api/database/{id}] and [GET /api/database/{id}/metadata]. *)
Definition get_database_schema (database_reply metadata_reply : Database.http_reply)
  : result SchemaInfo :=
  let attempt :=
    match database_reply with
    | Database.Raises message => raise (Error message)
    | Database.Response status_code _ json =>
        if negb (status_code =? 200)
        then raise (Error ("Failed to get database info: " +:+ pretty status_code))
        else
          database_info ← Database.read_json json;
          match metadata_reply with
          | Database.Raises message => raise (Error message)
          | Database.Response status_code _ json =>
              if negb (status_code =? 200)
              then raise (Error ("Failed to get tables: " +:+ pretty status_code))
              else
                metadata ← Database.read_json json;
                database_name ← get "name" VNone database_info;
                database_engine ← get "engine" VNone database_info;
                tables ← get "tables" (VList []) metadata;
                tables ← iterate tables;
                infos ← Json.traverse _process_table_info tables;
                mret {| database_name := database_name;
                        database_engine := database_engine;
                        tables := omap id infos |}
          end
    end in
  match attempt with
  | inr schema_info => mret schema_info
  | inl e => raise (Error ("Failed to retrieve database schema: " +:+ Chat.exn_str e))
  end.

(** [sep.join(items)]: every item has to be a string. *)
Fixpoint strings_from (i : nat) (items : list value) : result (list string) :=
  match items with
  | [] => mret []
  | VStr s :: rest => strs ← strings_from (S i) rest; mret (s :: strs)
  | v :: _ =>
      raise (Error ("sequence item " +:+ pretty (Z.of_nat i)
                    +:+ ": expected str instance, " +:+ type_name v +:+ " found"))
  end.

Definition join (sep : string) (items : list value) : result string :=
  strs ← strings_from 0 items;
  mret (CPython.join sep strs).

Section Text.
Context `{Runtime}.

(** The line of a column. *)
Definition column_line (col : ColumnInfo) : string :=
  let col_desc :=
    "  - " +:+ to_str (column_name col) +:+ ": " +:+ to_str (database_type col) +:+ " "
      +:+ (if nullable col then "NULL" else "NOT NULL") in
  if truthy (description col)
  then col_desc +:+ " (" +:+ to_str (description col) +:+ ")"
  else col_desc.

(** The lines of a table. *)
Definition table_lines (table : TableInfo) : result (list string) :=
  let heading :=
    OpenAI.nl +:+ to_str (name table) +:+ " (" +:+ to_str (display_name table) +:+ ") - "
      +:+ to_str (row_count table) +:+ " rows:" in
  primary ←
    match primary_keys table with
    | [] => mret []
    | keys => joined ← join ", " keys; mret ["  Primary Keys: " +:+ joined]
    end;
  let foreign :=
    match foreign_keys table with
    | [] => []
    | keys =>
        ["  Foreign Keys: "
           +:+ CPython.join ", " (map (fun fk => to_str (column fk)) keys)]
    end in
  mret (heading :: map column_line (columns table) ++ primary ++ foreign)%list.

(** [build_schema_context(schema_info)] *)
Definition build_schema_context (schema_info : SchemaInfo) : result string :=
  lines ← Json.traverse table_lines (tables schema_info);
  mret (CPython.join OpenAI.nl
          (("Database: " +:+ to_str (database_name schema_info) +:+ " ("
              +:+ to_str (database_engine schema_info) +:+ ")")
           :: (OpenAI.nl +:+ "Tables and Schema:")
           :: concat lines)).

End Text.



(** The answer of [GET /table/{table_name}/sample]. *)
Record SampleAnswer := {
  table_name : string;
  sample_count : nat;
  sample_data : list items
}.

(** [get_table_sample_data(table_name, limit, current_user)]: the requests
    made and the answer.  [get_sample_data] raises nothing, so the handler
    of the route is never entered. *)
Definition get_table_sample_data `{Runtime} (database_id : string)
    (post : Database.Request -> Database.http_reply)
    (metabase_session_id table_name : string) (limit : Z)
  : list Database.Request * SampleAnswer :=
  let limit := if 20 <? limit then 20 else limit in
  let '(requests, sample_data) :=
    Database.get_sample_data database_id post metabase_session_id table_name limit in
  (requests,
   {| table_name := table_name;
      sample_count := length sample_data;
      sample_data := sample_data |}).

(** *** Vocabulary of the properties *)

(** A field with the given semantic type. *)
Definition has_semantic_type (semantic_type : string) (field : list (string * value)) : bool :=
  eq_str (default VNone (dict_get "semantic_type" field)) semantic_type.

(** The column made of a field that is a dict. *)
Definition column_of (field : list (string * value)) : ColumnInfo :=
  {| column_name := default VNone (dict_get "name" field);
     column_display_name := default VNone (dict_get "display_name" field);
     column_type := default VNone (dict_get "base_type" field);
     database_type := default VNone (dict_get "database_type" field);
     nullable := negb (truthy (default (VBool false) (dict_get "database_required" field)));
     description := default VNone (dict_get "description" field) |}.

(** The table made of a table that is a dict, with its fields. *)
Definition table_of (table : list (string * value)) (fields : list (list (string * value)))
  : TableInfo :=
  {| name := default VNone (dict_get "name" table);
     display_name := default VNone (dict_get "display_name" table);
     schema := default VNone (dict_get "schema" table);
     columns := map column_of fields;
     primary_keys :=
       map (fun field => default VNone (dict_get "name" field))
           (List.filter (has_semantic_type "type/PK") fields);
     foreign_keys :=
       map (fun field =>
              {| column := default VNone (dict_get "name" field);
                 references := default VNone (dict_get "fk_target_field_id" field) |})
           (List.filter (has_semantic_type "type/FK") fields);
     row_count := default VNone (dict_get "rows" table) |}.

(** [isinstance(v, dict)] *)
Definition is_dict (v : value) : bool :=
  match v with
  | VDict _ => true
  | _ => false
  end.

End Schema.

(** ** The table for display ([visualization_service.py]) *)

Module Table.
Import PyStr Py Viz.

(** The integer nearest to [num / den], the even one on a tie. *)
Definition round_half_even (num den : Z) : Z :=
  let q := num / den in
  let r := num mod den in
  match 2 * r ?= den with
  | Lt => q
  | Gt => q + 1
  | Eq => if Z.even q then q else q + 1
  end.

(** [round(x, ndigits)] for a float and [0 <= ndigits]: an infinity and a
    NaN are returned as they are; a finite [x] is written with [ndigits]
    digits after the point, correctly rounded, ties to even, and that
    numeral is read back as a double; the call raises when the double read
    is out of range. *)
Definition round_float (x : float) (ndigits : Z) : result float :=
  match Prim2SF x with
  | S754_finite negative m e =>
      let num := (if 0 <=? e then Z.pos m * 2 ^ e else Z.pos m) * 10 ^ ndigits in
      let den := if 0 <=? e then 1 else 2 ^ (- e) in
      let rounded :=
        CPython.float_of_decimal negative (round_half_even num den) (- ndigits) in
      match Prim2SF rounded with
      | S754_infinity _ => raise (Error "rounded value too large to represent")
      | _ => mret rounded
      end
  | _ => mret x
  end.

(** [max_rows_for_display] *)
Definition max_rows_for_display : nat := 100.

(** A column definition. *)
Record ColumnDef := {
  field : string;
  headerName : string;
  sortable : bool;
  width : Z
}.

(** The dict [create_formatted_table] returns: the table, or the one with
    the [error]. *)
Inductive FormattedTable :=
| Formatted (columns : list ColumnDef) (rows : list row) (total_rows : Z)
            (displayed_rows : nat) (has_more : bool)
| Failed (error : string).

Section Format.
Context `{Runtime}.

(** The value stored for a cell. *)
Definition format_value (v : value) : result value :=
  match v with
  | VNone => mret (VStr "N/A")
  | VBool b => mret (VStr (if b then "Yes" else "No"))
  | VFloat x => rounded ← round_float x 2; mret (VFloat rounded)
  | _ => mret (VStr (to_str v))
  end.

(** [create_formatted_table(query_result)] *)
Definition create_formatted_table (query_result : QueryResult) : FormattedTable :=
  let display_data := take max_rows_for_display (data query_result) in
  let attempt :=
    formatted_rows ←
      Json.traverse
        (Json.traverse (fun kv : string * value =>
                          v ← format_value (snd kv); mret (fst kv, v)))
        display_data;
    let columns_def :=
      map (fun col => {| field := col;
                         headerName := PyStr.title (replace_char "_" " " col);
                         sortable := true;
                         width := 150 |})
          (columns query_result) in
    mret (Formatted columns_def formatted_rows (row_count query_result)
            (length formatted_rows)
            (Z.of_nat (length formatted_rows) <? row_count query_result)) in
  match attempt with
  | inr table => table
  | inl e => Failed (Chat.exn_str e)
  end.

(** *** Vocabulary of the properties *)

(** A cell as the table shows it. *)
Definition shown (v : value) : Prop :=
  match v with
  | VStr _ | VFloat _ => True
  | _ => False
  end.

End Format.

(** Rows for the examples. *)
Definition mixed_rows : QueryResult :=
  result_of ["customer_name"; "paid"; "total"]
    [ [("customer_name", VStr "ada"); ("paid", VBool true); ("total", VFloat 2.675)];
      [("customer_name", VNone); ("paid", VBool false); ("total", VInt 3)] ].

End Table.

(** ** The settings ([config.py]) *)

Module Config.
Import PyStr Py.

(** [s.rstrip('/')] *)
Fixpoint rstrip_slash (s : string) : string :=
  match s with
  | EmptyString => EmptyString
  | String c s' =>
      match rstrip_slash s' with
      | EmptyString => if Ascii.eqb c "/" then EmptyString else String c EmptyString
      | r => String c r
      end
  end.

Record Settings := {
  openai_api_key : string;
  openai_model : string;
  max_tokens : Z;
  temperature : float;
  metabase_url : string;
  metabase_database_id : string;
  frontend_url : string
}.

(** [os.getenv(key, fallback)] *)
Definition getenv (environ : string -> option string) (key fallback : string) : string :=
  default fallback (environ key).

(** The truth value of a string. *)
Definition truthy (s : string) : bool := negb (String.eqb s "").

(** [Settings.__init__] up to the call of [_validate]. *)
Definition load (environ : string -> option string) : Settings :=
  {| openai_api_key := getenv environ "OPENAI_API_KEY" "";
     openai_model := "gpt-3.5-turbo";
     max_tokens := 1000;
     temperature := 0.1;
     metabase_url := rstrip_slash (getenv environ "METABASE_URL" "");
     metabase_database_id := getenv environ "METABASE_DATABASE_ID" "";
     frontend_url := getenv environ "FRONTEND_URL" "http://localhost:3000" |}.

(** [_validate]: the names in the warning it prints; no warning for []. *)
Definition _validate (settings : Settings) : list string :=
  let required_settings :=
    [ ("OPENAI_API_KEY", openai_api_key settings);
      ("METABASE_URL", metabase_url settings);
      ("METABASE_DATABASE_ID", metabase_database_id settings) ] in
  map fst (List.filter (fun nv => negb (truthy (snd nv))) required_settings).

(** [is_valid] *)
Definition is_valid (settings : Settings) : bool :=
  truthy (openai_api_key settings)
  && truthy (metabase_url settings)
  && truthy (metabase_database_id settings).

(** What [validate_settings()] does: it returns, or raises a [ValueError]
    with a message. *)
Inductive Outcome :=
| Returns (answer : bool)
| RaisesValueError (message : string).

(** [validate_settings()] *)
Definition validate_settings (settings : Settings) : Outcome :=
  if negb (is_valid settings) then
    let missing :=
      ((if negb (truthy (openai_api_key settings)) then ["OPENAI_API_KEY"] else [])
       ++ (if negb (truthy (metabase_url settings)) then ["METABASE_URL"] else [])
       ++ (if negb (truthy (metabase_database_id settings))
           then ["METABASE_DATABASE_ID"] else []))%list in
    RaisesValueError
      ("Missing required environment variables: " +:+ CPython.join ", " missing)
  else Returns true.

(** A value made of slashes only, the empty one included. *)
Definition only_slashes (s : string) : Prop :=
  Forall (fun c => c = "/"%char) (list_ascii_of_string s).

End Config.

(** * Properties *)

(** ** The SQL checks *)

Module SqlProps.
Import PyStr Sql.

(** *** The validator *)

Lemma first_rejected_None query_lower keywords :
  first_rejected query_lower keywords = None <->
  Forall (fun keyword => keyword_passes query_lower keyword = true) keywords.
Proof.
  induction keywords as [|k ks IH]; simpl.
  - split; [constructor | reflexivity].
  - destruct (keyword_passes query_lower k) eqn:E.
    + rewrite IH. split; [by constructor | by inversion 1].
    + split; [discriminate | inversion 1; congruence].
Qed.

(** What the validator accepts: a text that starts with [select] and whose
    every keyword round passes. *)
Lemma validate_sql_safety_accepts sql_query :
  let q := strip (lower sql_query) in
  (validate_sql_safety sql_query).1 = true <->
  startswith q "select" = true /\
  Forall (fun keyword => keyword_passes q keyword = true) dangerous_keywords.
Proof.
  intros q. unfold validate_sql_safety. fold q.
  rewrite <- first_rejected_None.
  destruct (first_rejected q dangerous_keywords) as [k|]; simpl.
  - split; [discriminate | intros [_ ?]; discriminate].
  - destruct (startswith q "select"); simpl; split; auto; intros [? _]; discriminate.
Qed.

(** A text that does not start with [select], trimmed and in lower case, is
    rejected whatever else it holds. *)
Lemma validate_sql_safety_needs_select sql_query :
  startswith (strip (lower sql_query)) "select" = false ->
  (validate_sql_safety sql_query).1 = false.
Proof.
  intros E. unfold validate_sql_safety.
  destruct (first_rejected _ _); [reflexivity|].
  by rewrite E.
Qed.

(** The four texts of the specification. *)
Lemma validate_sql_safety_examples :
  validate_sql_safety "SELECT * FROM orders" = (true, "Query is safe")
  /\ validate_sql_safety "DROP TABLE orders" = (false, "Dangerous SQL keyword detected: drop")
  /\ validate_sql_safety "SELECT created_at FROM orders" = (true, "Query is safe")
  /\ (validate_sql_safety "UPDATE orders SET x=1").1 = false.
Proof. repeat split; vm_compute; reflexivity. Qed.

(** C1.  The validator does not decide the policy "starts with [select] and
    holds no denylisted keyword as a token between blanks".  A [delete]
    statement after a query that mentions [deleted_at] is accepted: the
    carve-out looks for the column name anywhere in the text and not at the
    place of the keyword.  A column whose name ends in a keyword, such as
    [backdrop], is rejected: the test is for the keyword followed by a
    blank, not for a token. *)
Theorem validate_sql_safety_not_the_policy :
  validate_sql_safety "SELECT deleted_at FROM orders; DELETE FROM orders"
    = (true, "Query is safe")
  /\ has_token "delete" (strip (lower "SELECT deleted_at FROM orders; DELETE FROM orders")) = true
  /\ policy_safe "SELECT deleted_at FROM orders; DELETE FROM orders" = false
  /\ validate_sql_safety "SELECT backdrop FROM stage"
       = (false, "Dangerous SQL keyword detected: drop")
  /\ policy_safe "SELECT backdrop FROM stage" = true.
Proof. repeat split; vm_compute; reflexivity. Qed.
(** *** Reading the LIMIT value: facts on [str] methods *)

Lemma all_chars_app P a b :
  all_chars P (a +:+ b) = all_chars P a && all_chars P b.
Proof. induction a as [|c a IH]; simpl; [done|]. by rewrite IH, andb_assoc. Qed.


Lemma lower_app a b : lower (a +:+ b) = lower a +:+ lower b.
Proof. induction a as [|c a IH]; simpl; [done|]. by rewrite IH. Qed.




Lemma prefix_empty s : String.prefix "" s = true.
Proof. by destruct s. Qed.





Lemma prefix_app_l p a b :
  String.prefix p a = true -> String.prefix p (a +:+ b) = true.
Proof.
  revert a. induction p as [|c p IH]; intros a; [by rewrite !prefix_empty|].
  destruct a as [|x a]; simpl; [done|].
  destruct (ascii_dec c x); [apply IH|done].
Qed.

Lemma contains_app_r p a b : contains p b = true -> contains p (a +:+ b) = true.
Proof.
  intros Hb. induction a as [|x a IH]; simpl; [done|].
  fold (a +:+ b). rewrite IH. apply orb_true_r.
Qed.



Lemma drop_app a b : drop (String.length a) (a +:+ b) = b.
Proof. induction a as [|x a IH]; simpl; [by destruct b|done]. Qed.

Lemma slice_from_app a b :
  slice_from (Z.of_nat (String.length a)) (a +:+ b) = b.
Proof.
  unfold slice_from.
  destruct (_ <? 0) eqn:E; [apply Z.ltb_lt in E; lia|].
  by rewrite Nat2Z.id, drop_app.
Qed.

Lemma string_of_list_app (l : list ascii) s :
  string_of_list_ascii l +:+ s
  = string_of_list_ascii (l ++ list_ascii_of_string s).
Proof.
  induction l as [|x l IH].
  - simpl. by rewrite string_of_list_ascii_of_string.
  - cbn [string_of_list_ascii app]. rewrite <- IH. done.
Qed.

Lemma append_empty_r s : s +:+ "" = s.
Proof.
  induction s as [|c s IH]; [done|].
  change (String c s +:+ "") with (String c (s +:+ "")). by rewrite IH.
Qed.



Lemma append_cons c a b : String c a +:+ b = String c (a +:+ b).
Proof. reflexivity. Qed.

Lemma append_nil_l b : "" +:+ b = b.
Proof. reflexivity. Qed.

Lemma append_assoc a b c : (a +:+ b) +:+ c = a +:+ (b +:+ c).
Proof.
  induction a as [|x a IH]; [done|].
  by rewrite !append_cons, IH.
Qed.

Lemma append_length a b :
  String.length (a +:+ b) = (String.length a + String.length b)%nat.
Proof. induction a as [|x a IH]; [done|]. rewrite append_cons. simpl. by rewrite IH. Qed.





(** *** The numerals [pretty] writes *)








(** *** The estimator *)

Section Limit.
Variables (q : string) (n : N) (tl : string).
Hypothesis Htl : tl = "" \/ tl = ";".

Let numeral : string := pretty n +:+ tl.









End Limit.




Lemma estimate_result_size_examples :
  _estimate_result_size "SELECT COUNT(*) FROM orders" = Some 1
  /\ _estimate_result_size "SELECT region, COUNT(*) FROM orders GROUP BY region LIMIT 3" = Some 50
  /\ _estimate_result_size "SELECT * FROM orders LIMIT 25;" = Some 25
  /\ _estimate_result_size "SELECT * FROM orders LIMIT 5, 10" = Some 100
  /\ _estimate_result_size "SELECT * FROM orders" = Some 1000.
Proof. repeat split; vm_compute; reflexivity. Qed.

End SqlProps.

(** ** The session table *)

Module AuthProps.
Import Auth.

Lemma validate_session_table now token (s : gmap string SessionData) :
  (validate_session now token s).2 = s \/
  (validate_session now token s).2 = delete token s.
Proof.
  unfold validate_session.
  destruct (truthy token); simpl; auto.
  destruct (s !! token) as [d|]; simpl; auto.
  destruct (expires_at d <? now); simpl; auto.
Qed.

Lemma validate_session_absent now token (s : gmap string SessionData) :
  s !! token = None -> validate_session now token s = (None, s).
Proof.
  intros E. unfold validate_session. rewrite E. by destruct (truthy token).
Qed.

(** A session returned by [validate_session] is stored and not expired. *)
Lemma validate_session_Some now token (s : gmap string SessionData) d :
  (validate_session now token s).1 = Some d ->
  s !! token = Some d /\ now <= expires_at d /\ (validate_session now token s).2 = s.
Proof.
  unfold validate_session.
  destruct (truthy token); simpl; [|done].
  destruct (s !! token) as [d'|]; simpl; [|done].
  destruct (expires_at d' <? now) eqn:E; simpl; [done|].
  intros [= ->]. apply Z.ltb_ge in E. done.
Qed.

Lemma logout_handler_table token (s : gmap string SessionData) :
  logout_handler token s = (true, delete token s).
Proof.
  unfold logout_handler.
  destruct (s !! token) eqn:E; [done|].
  by rewrite delete_id.
Qed.

Lemma logout_present delete_call during token (s : gmap string SessionData) d :
  s !! token = Some d ->
  logout delete_call during token s = (true, delete token (during s)).
Proof.
  intros E. unfold logout. rewrite E.
  destruct delete_call; rewrite ?logout_handler_table; try done.
  by destruct (during s !! token).
Qed.

Lemma logout_absent delete_call during token (s : gmap string SessionData) :
  s !! token = None -> logout delete_call during token s = (false, s).
Proof. intros E. unfold logout. by rewrite E. Qed.

Lemma cleanup_lookup_None now tok (s : gmap string SessionData) :
  s !! tok = None -> cleanup_expired_sessions now s !! tok = None.
Proof.
  unfold cleanup_expired_sessions.
  generalize (map fst (List.filter (fun ts => expires_at ts.2 <=? now) (map_to_list s))).
  intros l. revert s. induction l as [|k l IH]; intros s E; simpl; [done|].
  apply IH. rewrite lookup_delete_None. by right.
Qed.

Lemma authenticate_lookup_ne now user a u token tok (s : gmap string SessionData) :
  token <> tok ->
  (authenticate_with_metabase now user a u token s).2 !! tok = s !! tok.
Proof.
  intros Hne. unfold authenticate_with_metabase.
  repeat (match goal with
          | |- context [match ?x with _ => _ end] => destruct x
          end; simpl; try done).
  by rewrite lookup_insert_ne.
Qed.

(** No call other than a login under [tok] brings [tok] back. *)
Lemma evolves_absent tok (s s' : gmap string SessionData) :
  evolves tok s s' -> s !! tok = None -> s' !! tok = None.
Proof.
  induction 1 as [s|s s' now user a u token _ IH Hne|s s' now token _ IH
                 |s s' dc during token _ IH _ IHd|s s' now _ IH]; intros E.
  - done.
  - rewrite authenticate_lookup_ne; auto.
  - destruct (validate_session_table now token s') as [-> | ->]; auto.
    rewrite lookup_delete_None. right; auto.
  - destruct (s' !! token) as [d|] eqn:Et.
    + rewrite (logout_present _ _ _ _ d Et). simpl.
      rewrite lookup_delete_None. right. apply IHd; auto.
    + rewrite (logout_absent _ _ _ _ Et). simpl. auto.
  - apply cleanup_lookup_None; auto.
Qed.

Lemma filter_map_length {A B} (f : A -> B) (p : B -> bool) (l : list A) :
  length (List.filter p (map f l)) = length (List.filter (fun x => p (f x)) l).
Proof.
  induction l as [|x l IH]; simpl; [done|].
  destruct (p (f x)); simpl; by rewrite IH.
Qed.

Lemma filter_ext_in_length {A} (p q : A -> bool) (l : list A) :
  (forall x, x ∈ l -> p x = q x) ->
  length (List.filter p l) = length (List.filter q l).
Proof.
  induction l as [|x l IH]; intros Hpq; simpl; [done|].
  rewrite (Hpq x) by left.
  destruct (q x); simpl; rewrite IH; auto; intros y Hy; apply Hpq; by right.
Qed.

(** The count only sees the sessions stored under other tokens than one
    that is absent. *)
Lemma count_without tok now (s : gmap string SessionData) :
  s !! tok = None ->
  get_active_sessions_count now s
  = length (List.filter (fun ts => negb (String.eqb ts.1 tok) && (now <? expires_at ts.2))
                        (map_to_list s)).
Proof.
  intros E. unfold get_active_sessions_count.
  rewrite filter_map_length. apply filter_ext_in_length.
  intros [k d] Hkd. simpl.
  apply elem_of_map_to_list in Hkd.
  destruct (String.eqb_spec k tok) as [->|]; [congruence|done].
Qed.

(** C3.  A token that is not stored is not validated.  In a table that
    holds no session under the empty token (a token is the 43 characters of
    [token_urlsafe(32)]), validating a stored token after its expiry
    answers [None] and deletes the entry; from then on, whatever calls
    follow short of a login that draws the same token again,
    [validate_session] answers [None] for it at any time and the count of
    active sessions is the count over the other tokens. *)
Theorem validate_session_evicts (now : Z) (token : string)
    (sessions : gmap string SessionData) :
  (sessions !! token = None -> validate_session now token sessions = (None, sessions))
  /\ (forall session_data,
        sessions !! "" = None ->
        sessions !! token = Some session_data ->
        expires_at session_data < now ->
        validate_session now token sessions = (None, delete token sessions)
        /\ forall later,
             evolves token (validate_session now token sessions).2 later ->
             forall now',
               later !! token = None
               /\ validate_session now' token later = (None, later)
               /\ get_active_sessions_count now' later
                  = length (List.filter
                              (fun ts => negb (String.eqb ts.1 token)
                                         && (now' <? expires_at ts.2))
                              (map_to_list later))).
Proof.
  split; [apply validate_session_absent|].
  intros d Hwf Hd Hexp.
  assert (validate_session now token sessions = (None, delete token sessions)) as Hv.
  { unfold validate_session.
    assert (truthy token = true) as ->.
    { unfold truthy. destruct (String.eqb_spec token ""); [congruence|done]. }
    simpl. rewrite Hd. apply Z.ltb_lt in Hexp. by rewrite Hexp. }
  split; [done|].
  rewrite Hv. simpl. intros later Hev now'.
  assert (later !! token = None) as Hl.
  { eapply evolves_absent; [exact Hev|]. apply lookup_delete_eq. }
  split; [done|]. split.
  - by apply validate_session_absent.
  - by apply count_without.
Qed.

Lemma validate_session_evicts_witness :
  validate_session 101 "t0" {["t0" := sample_session]}
  = (None, delete "t0" {["t0" := sample_session]}).
Proof.
  refine (proj1 (proj2 (validate_session_evicts 101 "t0" {["t0" := sample_session]})
                   sample_session _ _ _)).
  - reflexivity.
  - reflexivity.
  - simpl. lia.
Defined.

(** C4.  [logout] answers [True] exactly when the token was stored when it
    was called.  Whether the external call answers or raises, and whatever
    the other handlers do meanwhile, the token is not stored afterwards: the
    table is the one the other handlers left, less the token.  A second
    logout of the token answers [False] and changes nothing. *)
Theorem logout_cleans_up (delete_call : reply unit)
    (during : gmap string SessionData -> gmap string SessionData)
    (token : string) (sessions : gmap string SessionData) :
  let '(answer, after) := logout delete_call during token sessions in
  answer = bool_decide (is_Some (sessions !! token))
  /\ after !! token = None
  /\ after = (if answer then delete token (during sessions) else sessions)
  /\ forall delete_call' during',
       logout delete_call' during' token after = (false, after).
Proof.
  destruct (sessions !! token) as [d|] eqn:E.
  - rewrite (logout_present _ _ _ _ d E).
    repeat split.
    + apply lookup_delete_eq.
    + intros. apply logout_absent, lookup_delete_eq.
  - rewrite (logout_absent _ _ _ _ E).
    repeat split; [done|].
    intros. by apply logout_absent.
Qed.

(** With no other handler in between, a logout followed by a logout: [True]
    although the external call raised, then [False]. *)
Lemma logout_twice :
  let s := {["t0" := sample_session]} : gmap string SessionData in
  logout RequestError id "t0" s = (true, ∅)
  /\ logout (Response 204 tt) id "t0" (logout RequestError id "t0" s).2 = (false, ∅).
Proof. split; reflexivity. Qed.

End AuthProps.

(** ** The coercion to JSON values *)

Module JsonProps.
Import Py Json.

(** Induction on a value, with the hypothesis for every value it holds. *)
Lemma value_induction (P : value -> Prop) :
  P VNone ->
  (forall b, P (VBool b)) ->
  (forall n, P (VInt n)) ->
  (forall x, P (VFloat x)) ->
  (forall s, P (VStr s)) ->
  (forall items, Forall P items -> P (VList items)) ->
  (forall entries, Forall (fun kv => P (snd kv)) entries -> P (VDict entries)) ->
  (forall type_module tolist item as_str,
      from_option P True tolist -> from_option P True item ->
      P (VObject type_module tolist item as_str)) ->
  forall v, P v.
Proof.
  intros HN HB HI HF HS HL HD HO.
  fix IH 1. intros [ |b|n|x|s|items|entries|m tl it s].
  - exact HN.
  - apply HB.
  - apply HI.
  - apply HF.
  - apply HS.
  - apply HL. revert items. fix IHl 1. intros [|v items].
    + constructor.
    + constructor; [apply IH | apply IHl].
  - apply HD. revert entries. fix IHd 1. intros [|[k v] entries].
    + constructor.
    + constructor; [apply IH | apply IHd].
  - apply HO.
    + destruct tl as [l|]; simpl; [apply IH | exact I].
    + destruct it as [x|]; simpl; [apply IH | exact I].
Qed.

Lemma traverse_inr {A B} (f : A -> result B) (l : list A) (l' : list B) :
  traverse f l = inr l' <-> Forall2 (fun x y => f x = inr y) l l'.
Proof.
  revert l'. induction l as [|x l IH]; intros l'; simpl.
  - split.
    + intros [= <-]. constructor.
    + by inversion 1.
  - split.
    + destruct (f x) as [e|y] eqn:Ex; simpl; [done|].
      destruct (traverse f l) as [e|ys] eqn:El; simpl; [done|].
      intros [= <-]. constructor; [done|]. by apply IH.
    + inversion 1 as [|? y ? ys Hy Hys]; subst. rewrite Hy. simpl.
      apply IH in Hys. rewrite Hys. done.
Qed.

Lemma traverse_total {A B} (f : A -> result B) (l : list A) :
  Forall (fun x => exists y, f x = inr y) l -> exists l', traverse f l = inr l'.
Proof.
  induction 1 as [|x l [y Hy] _ [l' Hl']]; simpl.
  - by exists [].
  - exists (y :: l'). by rewrite Hy, Hl'.
Qed.

Section WithRuntime.
Context `{Runtime}.

(** The branches for the types other than numpy's. *)
Lemma clean_scalar data :
  match data with
  | VBool _ | VInt _ | VFloat _ | VStr _ | VNone => clean_data_for_json data = inr data
  | _ => True
  end.
Proof. by destruct data. Qed.

Lemma clean_list items :
  clean_data_for_json (VList items)
  = (items' ← traverse clean_data_for_json items; mret (VList items')).
Proof. done. Qed.

Lemma clean_dict entries :
  clean_data_for_json (VDict entries)
  = (entries' ← traverse (fun kv => v ← clean_data_for_json (snd kv); mret (fst kv, v)) entries;
     mret (VDict entries')).
Proof. done. Qed.

Lemma clean_object type_module tolist item as_str :
  clean_data_for_json (VObject type_module tolist item as_str)
  = inr (default (VStr as_str) (converted type_module tolist item)).
Proof.
  unfold converted. simpl.
  destruct (PyStr.contains "numpy" type_module); [|done].
  by destruct tolist, item.
Qed.



End WithRuntime.




End JsonProps.

(** ** The order of Python numbers *)

Module NumOrderProps.
Import Py NumOrder.



Lemma point_ltb_total a b : point_ltb a b = false -> point_ltb b a = false -> a = b.
Proof.
  destruct a, b; simpl; try done.
  rewrite !Z.ltb_ge. intros. f_equal. lia.
Qed.

(** *** Mantissas of doubles *)












End NumOrderProps.

(** ** Charts *)

Module VizProps.
Import Py Viz.

(** *** Dicts as lists of items *)

Lemma dict_get_set_eq {A} k (v : A) d : dict_get k (dict_set k v d) = Some v.
Proof.
  induction d as [|[k' v'] d IH]; simpl.
  - by rewrite String.eqb_refl.
  - destruct (String.eqb k' k) eqn:E; simpl; rewrite E; done.
Qed.

Lemma dict_get_set_ne {A} k k' (v : A) d :
  k <> k' -> dict_get k' (dict_set k v d) = dict_get k' d.
Proof.
  intros Hne. induction d as [|[k0 v0] d IH]; simpl.
  - destruct (String.eqb_spec k k'); [done|done].
  - destruct (String.eqb_spec k0 k) as [->|]; simpl.
    + destruct (String.eqb_spec k k'); [done|done].
    + by rewrite IH.
Qed.

Lemma dict_get_Some {A} k (v : A) d : dict_get k d = Some v -> (k, v) ∈ d.
Proof.
  induction d as [|[k' v'] d IH]; simpl; [done|].
  destruct (String.eqb_spec k' k) as [->|].
  - intros [= ->]. left.
  - intros. right. auto.
Qed.

Lemma dict_get_None {A} k (d : list (string * A)) :
  dict_get k d = None <-> k ∉ map fst d.
Proof.
  induction d as [|[k' v'] d IH]; simpl.
  - split; [intros _; apply not_elem_of_nil|done].
  - rewrite not_elem_of_cons.
    destruct (String.eqb_spec k' k) as [->|]; split; try done.
    + intros [? _]. done.
    + intros. split; [congruence|]. by apply IH.
    + intros [_ ?]. by apply IH.
Qed.

Lemma elem_of_keys {A} (k : string) (v : A) (d : list (string * A)) :
  (k, v) ∈ d -> k ∈ map fst d.
Proof.
  induction d as [|[k' v'] d IH]; [by inversion 1|].
  intros Hin. apply elem_of_cons in Hin as [[= -> ->]|Hin]; simpl.
  - left.
  - right. auto.
Qed.

Lemma dict_get_NoDup {A} k (v : A) d :
  NoDup (map fst d) -> (k, v) ∈ d -> dict_get k d = Some v.
Proof.
  induction d as [|[k' v'] d IH]; simpl; [by inversion 2|].
  rewrite NoDup_cons. intros [Hk Hd] Hin.
  apply elem_of_cons in Hin as [[= -> ->]|Hin].
  - by rewrite String.eqb_refl.
  - destruct (String.eqb_spec k' k) as [->|]; [|auto].
    exfalso. apply Hk. by apply elem_of_keys in Hin.
Qed.

(** The keys after [d[k] = v]. *)
Lemma dict_set_keys {A} k (v : A) d :
  map fst (dict_set k v d)
  = match dict_get k d with
    | Some _ => map fst d
    | None => (map fst d ++ [k])%list
    end.
Proof.
  induction d as [|[k' v'] d IH]; simpl; [done|].
  destruct (String.eqb_spec k' k) as [->|]; simpl; [done|].
  rewrite IH. by destruct (dict_get k d).
Qed.

Lemma dict_set_NoDup {A} k (v : A) d :
  NoDup (map fst d) -> NoDup (map fst (dict_set k v d)).
Proof.
  intros Hd. rewrite dict_set_keys.
  destruct (dict_get k d) eqn:E; [done|].
  apply NoDup_app. split; [done|]. split.
  - intros x Hx Hk. apply list_elem_of_singleton in Hk as ->.
    by apply dict_get_None in E.
  - apply NoDup_singleton.
Qed.

(** [dict(items)] of items with distinct keys is these items. *)
Lemma dict_of_items_NoDup {A} (items : list (string * A)) :
  NoDup (map fst items) -> dict_of_items items = items.
Proof.
  unfold dict_of_items.
  assert (forall (d : list (string * A)),
             NoDup (map fst (d ++ items)) ->
             fold_left (fun d kv => dict_set (fst kv) (snd kv) d) items d = (d ++ items)%list)
    as Hgen.
  { induction items as [|[k v] items IH]; intros d Hd; simpl.
    - by rewrite app_nil_r.
    - assert (dict_set k v d = (d ++ [(k, v)])%list) as ->.
      { rewrite map_app in Hd. apply NoDup_app in Hd as (_ & Hdis & _).
        assert (k ∉ map fst d) as Hk.
        { intros Hk. apply (Hdis k Hk). simpl. left. }
        clear -Hk. induction d as [|[k' v'] d IH]; simpl; [done|].
        apply not_elem_of_cons in Hk as [Hne Hk]. simpl in Hne.
        destruct (String.eqb_spec k' k); [congruence|]. by rewrite IH. }
      rewrite IH; rewrite <- app_assoc; done. }
  intros Hn. by apply (Hgen []).
Qed.

(** *** Sorting by decreasing value *)

Lemma insert_desc_perm x l : insert_desc x l ≡ₚ x :: l.
Proof.
  induction l as [|y l IH]; simpl; [done|].
  destruct (lt (snd x) (snd y)); [|done].
  rewrite IH. apply Permutation_swap.
Qed.

Lemma sorted_desc_perm l : sorted_desc l ≡ₚ l.
Proof.
  induction l as [|x l IH]; simpl; [done|].
  rewrite insert_desc_perm. by rewrite IH.
Qed.




(** The cap keeps a prefix of the sorted items. *)
Lemma limit_categories_take aggregated :
  NoDup (map fst aggregated) ->
  (max_categories < length aggregated)%nat ->
  limit_categories aggregated = take max_categories (sorted_desc aggregated).
Proof.
  intros Hn Hlen. unfold limit_categories.
  apply Nat.ltb_lt in Hlen. rewrite Hlen.
  apply dict_of_items_NoDup.
  assert (NoDup (map fst (sorted_desc aggregated))) as Hs.
  { pose proof (Permutation_map fst (sorted_desc_perm aggregated)) as Hp.
    by rewrite Hp. }
  rewrite <- (take_drop max_categories (sorted_desc aggregated)), map_app in Hs.
  by apply NoDup_app in Hs as [? _].
Qed.

Lemma limit_categories_small aggregated :
  (length aggregated <= max_categories)%nat -> limit_categories aggregated = aggregated.
Proof.
  intros Hlen. unfold limit_categories.
  destruct (Nat.ltb_spec max_categories (length aggregated)); [lia|done].
Qed.

Lemma limit_categories_split aggregated :
  NoDup (map fst aggregated) ->
  aggregated ≡ₚ limit_categories aggregated ++ dropped_categories aggregated.
Proof.
  intros Hn. unfold dropped_categories.
  destruct (Nat.ltb_spec max_categories (length aggregated)) as [Hlen|Hlen].
  - rewrite limit_categories_take by done.
    rewrite take_drop. symmetry. apply sorted_desc_perm.
  - rewrite limit_categories_small by done. by rewrite app_nil_r.
Qed.


Lemma limit_categories_length aggregated :
  NoDup (map fst aggregated) ->
  length (limit_categories aggregated) = Nat.min max_categories (length aggregated).
Proof.
  intros Hn.
  destruct (Nat.ltb_spec max_categories (length aggregated)) as [Hlen|Hlen].
  - rewrite limit_categories_take by done.
    rewrite length_take, (Permutation_length (sorted_desc_perm aggregated)). done.
  - rewrite limit_categories_small by done. lia.
Qed.

(** *** The aggregation *)

Section WithRuntime.
Context `{Runtime}.

Lemma aggregate_cons text_col numeric_col r rest aggregated :
  aggregate text_col numeric_col (r :: rest) aggregated
  = (value ← row_value numeric_col r;
     aggregated' ←
       match dict_get (row_key text_col r) aggregated with
       | Some old => total ← add old value;
                     mret (dict_set (row_key text_col r) total aggregated)
       | None => mret (dict_set (row_key text_col r) value aggregated)
       end;
     aggregate text_col numeric_col rest aggregated').
Proof. reflexivity. Qed.

(** The only exception of the loop is the overflow of a conversion. *)
Lemma to_float_raises v e :
  to_float v = inl e -> e = TypeError \/ e = ValueError \/ e = OverflowError.
Proof.
  destruct v; simpl; try (intros [= <-]; auto); try done.
  - destruct (float_of_Z n); [done|]. intros [= <-]. auto.
  - destruct (float_of_str s); [done|]. intros [= <-]. auto.
Qed.

Lemma bar_value_raises v e : bar_value v = inl e -> e = OverflowError.
Proof.
  unfold bar_value. destruct v; try done;
    match goal with
    | |- context [to_float ?v] =>
        destruct (to_float v) as [e'|x] eqn:E; [|done];
        apply to_float_raises in E as [->|[->| ->]]; try done; by intros [= <-]
    end.
Qed.

Lemma add_raises a b e : add a b = inl e -> e = OverflowError.
Proof.
  destruct a as [m|x], b as [n|y]; simpl; try done.
  - destruct (float_of_Z m); [done|]. by intros [= <-].
  - destruct (float_of_Z n); [done|]. by intros [= <-].
Qed.

Lemma aggregate_raises text_col numeric_col data aggregated e :
  aggregate text_col numeric_col data aggregated = inl e -> e = OverflowError.
Proof.
  revert aggregated. induction data as [|r rest IH]; intros aggregated; [done|].
  rewrite aggregate_cons. unfold row_value.
  destruct (bar_value _) as [e'|value] eqn:Ev; simpl.
  { intros [= <-]. by apply bar_value_raises in Ev. }
  destruct (dict_get _ aggregated) as [old|]; simpl; [|apply IH].
  destruct (add old value) as [e'|total] eqn:Ea; simpl; [|apply IH].
  intros [= <-]. by apply add_raises in Ea.
Qed.

(** What the bar loop makes of a value. *)
Lemma bar_value_cases v :
  match v with
  | VNone => bar_value v = inr (NInt 0)
  | _ =>
      match to_float v with
      | inr x => bar_value v = inr (NFloat x)
      | inl TypeError | inl ValueError => bar_value v = inr (NInt 1)
      | inl e => bar_value v = inl e
      end
  end.
Proof.
  destruct v; try done; simpl;
    repeat match goal with
           | |- context [match ?x with _ => _ end] => destruct x
           end; done.
Qed.

(** The keys of the aggregation are the labels, each once, in the order of
    their first rows. *)
Lemma aggregate_keys text_col numeric_col data aggregated final :
  aggregate text_col numeric_col data aggregated = inr final ->
  map fst final = first_seen (map fst aggregated) (map (row_key text_col) data)
  /\ (NoDup (map fst aggregated) -> NoDup (map fst final)).
Proof.
  revert aggregated. induction data as [|r rest IH]; intros aggregated.
  - simpl. by intros [= <-].
  - rewrite aggregate_cons.
    destruct (row_value numeric_col r) as [e|value]; simpl; [done|].
    set (k := row_key text_col r).
    assert (forall v : num, map fst (dict_set k v aggregated)
              = if bool_decide (k ∈ map fst aggregated) then map fst aggregated
                else (map fst aggregated ++ [k])%list) as Hkeys.
    { intros v. rewrite dict_set_keys.
      destruct (dict_get k aggregated) as [old|] eqn:E.
      - rewrite bool_decide_eq_true_2; [done|].
        apply dict_get_Some in E. by apply elem_of_keys in E.
      - rewrite bool_decide_eq_false_2; [done|]. by apply dict_get_None. }
    destruct (dict_get k aggregated) as [old|]; simpl.
    + destruct (add old value) as [e|total]; simpl; [done|].
      intros Hrest. apply IH in Hrest as [Hk Hn].
      unfold first_seen in *. cbn [map fold_left]. fold k.
      rewrite Hkeys in Hk. split; [done|].
      intros Hd. by apply Hn, dict_set_NoDup.
    + intros Hrest. apply IH in Hrest as [Hk Hn].
      unfold first_seen in *. cbn [map fold_left]. fold k.
      rewrite Hkeys in Hk. split; [done|].
      intros Hd. by apply Hn, dict_set_NoDup.
Qed.

(** The value stored under a label is the sum for the label. *)
Lemma aggregate_label_total text_col numeric_col data aggregated final :
  aggregate text_col numeric_col data aggregated = inr final ->
  forall label,
    label_total text_col numeric_col label data (dict_get label aggregated)
    = inr (dict_get label final).
Proof.
  revert aggregated. induction data as [|r rest IH]; intros aggregated.
  - simpl. by intros [= <-].
  - rewrite aggregate_cons. intros Hagg label. cbn [label_total].
    destruct (row_value numeric_col r) as [e|value]; simpl in *; [done|].
    fold (row_key text_col r) in *.
    destruct (String.eqb_spec (row_key text_col r) label) as [<-|Hne].
    + destruct (dict_get (row_key text_col r) aggregated) as [old|]; simpl in *.
      * destruct (add old value) as [e|total]; simpl in *; [done|].
        apply IH with (label := row_key text_col r) in Hagg.
        by rewrite dict_get_set_eq in Hagg.
      * apply IH with (label := row_key text_col r) in Hagg.
        by rewrite dict_get_set_eq in Hagg.
    + destruct (dict_get (row_key text_col r) aggregated) as [old|]; simpl in *.
      * destruct (add old value) as [e|total]; simpl in *; [done|].
        apply IH with (label := label) in Hagg.
        by rewrite dict_get_set_ne in Hagg.
      * apply IH with (label := label) in Hagg.
        by rewrite dict_get_set_ne in Hagg.
Qed.

(** The loop returns when the sum for every label can be formed. *)
Lemma aggregate_returns text_col numeric_col data aggregated :
  (forall label, exists total,
      label_total text_col numeric_col label data (dict_get label aggregated) = inr total) ->
  exists final, aggregate text_col numeric_col data aggregated = inr final.
Proof.
  revert aggregated. induction data as [|r rest IH]; intros aggregated Hall.
  - by eexists.
  - rewrite aggregate_cons.
    set (k := row_key text_col r) in *.
    destruct (Hall k) as [tk Hk]. cbn [label_total] in Hk. fold k in Hk.
    destruct (row_value numeric_col r) as [e|value] eqn:Ev; [done|].
    cbn [mbind result_bind] in Hk |- *.
    rewrite String.eqb_refl in Hk.
    assert (forall label v, k <> label ->
              exists t, label_total text_col numeric_col label rest
                          (dict_get label (dict_set k v aggregated)) = inr t) as Hother.
    { intros label v Hne. destruct (Hall label) as [t Ht].
      cbn [label_total] in Ht. rewrite Ev in Ht.
      cbn [mbind result_bind] in Ht. fold k in Ht.
      destruct (String.eqb_spec k label); [done|].
      rewrite dict_get_set_ne by done. by exists t. }
    destruct (dict_get k aggregated) as [old|].
    + destruct (add old value) as [e|total]; [done|].
      cbn [mbind result_bind mret result_ret] in Hk |- *.
      apply IH. intros label.
      destruct (decide (k = label)) as [<-|Hne]; [|by apply Hother].
      rewrite dict_get_set_eq. by exists tk.
    + cbn [mbind result_bind mret result_ret] in Hk |- *.
      apply IH. intros label.
      destruct (decide (k = label)) as [<-|Hne]; [|by apply Hother].
      rewrite dict_get_set_eq. by exists tk.
Qed.

(** *** The bar builder *)

Lemma create_bar_data_unfold query_result :
  _create_bar_data query_result
  = (aggregated ← aggregate (bar_columns query_result).1 (bar_columns query_result).2
                    (data query_result) [];
     mret (BarData (map fst (limit_categories aggregated))
                   (map snd (limit_categories aggregated))
                   (bar_columns query_result).1 (bar_columns query_result).2)).
Proof.
  unfold _create_bar_data, bar_columns.
  by destruct (find_columns _ _ _ _).
Qed.

Lemma aggregate_NoDup text_col numeric_col data aggregated :
  aggregate text_col numeric_col data [] = inr aggregated -> NoDup (map fst aggregated).
Proof.
  intros Hagg. apply aggregate_keys in Hagg as [_ Hn]. apply Hn. constructor.
Qed.

Lemma limit_categories_subset aggregated a :
  NoDup (map fst aggregated) -> a ∈ limit_categories aggregated -> a ∈ aggregated.
Proof.
  intros Hn Ha. rewrite (limit_categories_split aggregated Hn).
  apply elem_of_app. by left.
Qed.

Lemma limit_categories_NoDup aggregated :
  NoDup (map fst aggregated) -> NoDup (map fst (limit_categories aggregated)).
Proof.
  intros Hn.
  pose proof (Permutation_map fst (limit_categories_split aggregated Hn)) as Hp.
  rewrite Hp, map_app in Hn. by apply NoDup_app in Hn as [? _].
Qed.

Lemma zip_fst_snd {A B} (l : list (A * B)) : zip (map fst l) (map snd l) = l.
Proof. induction l as [|[a b] l IH]; simpl; [done|]. by rewrite IH. Qed.

Lemma first_seen_elem seen keys k :
  k ∈ first_seen seen keys -> k ∈ seen \/ k ∈ keys.
Proof.
  revert seen. induction keys as [|x keys IH]; intros seen; simpl; [auto|].
  intros Hk. apply IH in Hk as [Hk|Hk]; [|right; by right].
  destruct (bool_decide (x ∈ seen)); [by left|].
  apply elem_of_app in Hk as [Hk|Hk]; [by left|].
  apply list_elem_of_singleton in Hk as ->. right. left.
Qed.

(** C5, amended.  With the text column and the numeric column the builder
    settles on: the builder returns exactly when the sum of every label can
    be formed, and raises nothing but [OverflowError] (from an [int] beyond
    the range of a double); a value contributes 0 when it is [None], its
    conversion by [float] when there is one, and 1 when the conversion
    raises [TypeError] or [ValueError]; the labels of the output are labels
    of rows, each once, in the order of their first rows when they are at
    most 15; and the value given for a label is the sum of the numbers of
    its rows, added in double arithmetic in the order of the rows. *)
Theorem create_bar_data_sums (query_result : QueryResult) :
  let text_col := (bar_columns query_result).1 in
  let numeric_col := (bar_columns query_result).2 in
  let total label :=
    label_total text_col numeric_col label (data query_result) None in
  let keys := map (row_key text_col) (data query_result) in
  ((exists chart, _create_bar_data query_result = inr chart)
   <-> forall label, exists t, total label = inr t)
  /\ (forall e, _create_bar_data query_result = inl e -> e = OverflowError)
  /\ (forall v,
        match v with
        | VNone => bar_value v = inr (NInt 0)
        | _ =>
            match to_float v with
            | inr x => bar_value v = inr (NFloat x)
            | inl TypeError | inl ValueError => bar_value v = inr (NInt 1)
            | inl e => bar_value v = inl e
            end
        end)
  /\ (forall chart, _create_bar_data query_result = inr chart ->
        exists labels values,
          chart = BarData labels values text_col numeric_col
          /\ NoDup labels
          /\ length labels = length values
          /\ (forall label, label ∈ labels -> label ∈ keys)
          /\ (forall label v, (label, v) ∈ zip labels values -> total label = inr (Some v))
          /\ ((length (first_seen [] keys) <= max_categories)%nat ->
              labels = first_seen [] keys)).
Proof.
  intros text_col numeric_col total keys.
  rewrite create_bar_data_unfold. fold text_col numeric_col.
  split; [|split; [|split]].
  - split.
    + intros [chart Hc] label.
      destruct (aggregate _ _ _ _) as [e|aggregated] eqn:Hagg; [done|].
      exists (dict_get label aggregated).
      by apply (aggregate_label_total _ _ _ _ _ Hagg label).
    + intros Hall.
      destruct (aggregate_returns text_col numeric_col (data query_result) [] Hall)
        as [final ->].
      by eexists.
  - intros e. destruct (aggregate _ _ _ _) as [e'|aggregated] eqn:Hagg; [|done].
    intros [= <-]. by apply aggregate_raises in Hagg.
  - apply bar_value_cases.
  - intros chart.
    destruct (aggregate _ _ _ _) as [e|aggregated] eqn:Hagg; [done|].
    intros [= <-]. eexists _, _. split; [reflexivity|].
    pose proof (aggregate_NoDup _ _ _ _ Hagg) as Hn.
    pose proof (aggregate_keys _ _ _ _ _ Hagg) as [Hkeys _].
    split; [by apply limit_categories_NoDup|].
    split; [by rewrite !length_map|].
    split; [|split].
    + intros label Hl.
      apply list_elem_of_In, in_map_iff in Hl as ([k v] & <- & Hin).
      apply list_elem_of_In, limit_categories_subset, elem_of_keys in Hin; [|done].
      rewrite Hkeys in Hin. apply first_seen_elem in Hin as [Hin|Hin]; [|done].
      by inversion Hin.
    + intros label v. rewrite zip_fst_snd. intros Hin.
      apply limit_categories_subset in Hin; [|done].
      apply (dict_get_NoDup _ _ _ Hn) in Hin.
      unfold total. rewrite <- Hin.
      by apply (aggregate_label_total _ _ _ _ _ Hagg label).
    + change (map fst []) with (@nil string) in Hkeys. fold keys in Hkeys.
      rewrite <- Hkeys, length_map. intros Hlen.
      by rewrite limit_categories_small.
Qed.


End WithRuntime.

(** *** The bar builder on the rows of the specification *)

Lemma create_bar_data_sales_by_region :
  _create_bar_data sales_by_region
  = inr (BarData ["east"; "west"] [NFloat 15; NFloat 7] "region" "sales").
Proof. vm_compute. reflexivity. Qed.

Lemma create_bar_data_sums_witness :
  label_total "region" "sales" "east" (data sales_by_region) None = inr (Some (NFloat 15))
  /\ label_total "region" "sales" "west" (data sales_by_region) None = inr (Some (NFloat 7)).
Proof.
  destruct (create_bar_data_sums sales_by_region) as (_ & _ & _ & Hout).
  destruct (Hout _ create_bar_data_sales_by_region)
    as (labels & values & [= <- <-] & _ & _ & _ & Htotal & _).
  split; apply Htotal; simpl.
  - left.
  - right. left.
Defined.

(** C5, as stated, fails twice.  An [int] too large for a double is a
    value whose coercion fails, and it is not counted as 1: the builder
    raises and no chart is made.  And a sum in double arithmetic is not the
    exact sum: [10 ^ 16 + 1 - 10 ^ 16] comes out as 0. *)
Lemma create_bar_data_not_exact :
  let huge := result_of ["region"; "sales"]
                [ [("region", VStr "east"); ("sales", VInt (2 ^ 1024))] ] in
  let cancel := result_of ["region"; "sales"]
                  [ [("region", VStr "east"); ("sales", VInt (10 ^ 16))];
                    [("region", VStr "east"); ("sales", VInt 1)];
                    [("region", VStr "east"); ("sales", VInt (- 10 ^ 16))] ] in
  to_float (VInt (2 ^ 1024)) = inl OverflowError
  /\ _create_bar_data huge = inl OverflowError
  /\ create_visualization huge (Some BAR) = None
  /\ _create_bar_data cancel = inr (BarData ["east"] [NFloat 0] "region" "sales")
  /\ 10 ^ 16 + 1 + - 10 ^ 16 = 1.
Proof. repeat split; vm_compute; reflexivity. Qed.

(** *** The cap on twenty categories *)



(** *** The scatter builder *)

Section Scatter.
Context `{Runtime}.

Lemma find_numeric_take data columns numeric_cols :
  (length numeric_cols < 2)%nat ->
  find_numeric data columns numeric_cols
  = take 2 (numeric_cols
            ++ List.filter (fun col => is_number (sample_val data col)) columns).
Proof.
  revert numeric_cols.
  induction columns as [|col rest IH]; intros acc Hacc; cbn [find_numeric List.filter].
  - rewrite app_nil_r, take_ge; [done|lia].
  - destruct (is_number (sample_val data col)).
    + destruct (Nat.leb_spec 2 (length (acc ++ [col]))) as [Hlen|Hlen].
      * rewrite length_app in Hlen. simpl in Hlen.
        set (rest' := List.filter _ rest).
        replace (acc ++ col :: rest')%list with ((acc ++ [col]) ++ rest')%list
          by (by rewrite <- app_assoc).
        rewrite take_app_length'; [done|].
        rewrite length_app. simpl. lia.
      * rewrite IH by done. by rewrite <- app_assoc.
    + destruct (Nat.leb_spec 2 (length acc)) as [Hlen|Hlen]; [lia|].
      by apply IH.
Qed.

Lemma coordinate_raises v e :
  coordinate v = inl e -> e = TypeError \/ e = ValueError \/ e = OverflowError.
Proof.
  unfold coordinate.
  destruct v; try done;
    (destruct (to_float _) as [e'|x] eqn:E;
     [intros [= <-]; by apply to_float_raises in E | done]).
Qed.

(** A point of the plot: both coordinates when both conversions return;
    the origin when the first that fails raises [TypeError] or
    [ValueError], whatever the other value is; the exception otherwise. *)
Lemma scatter_point_cases x_val y_val :
  scatter_point x_val y_val
  = match coordinate x_val with
    | inr x =>
        match coordinate y_val with
        | inr y => inr (x, y)
        | inl TypeError | inl ValueError => inr (NInt 0, NInt 0)
        | inl e => inl e
        end
    | inl TypeError | inl ValueError => inr (NInt 0, NInt 0)
    | inl e => inl e
    end.
Proof.
  unfold scatter_point. fold (coordinate x_val) (coordinate y_val).
  destruct (coordinate x_val) as [[]|x]; simpl; try done.
  destruct (coordinate y_val) as [[]|y]; simpl; done.
Qed.

Lemma scatter_point_raises x_val y_val e :
  scatter_point x_val y_val = inl e -> e = OverflowError.
Proof.
  rewrite scatter_point_cases.
  destruct (coordinate x_val) as [ex|x] eqn:Ex.
  - apply coordinate_raises in Ex as [->|[->| ->]]; try done. by intros [= <-].
  - destruct (coordinate y_val) as [ey|y] eqn:Ey; [|done].
    apply coordinate_raises in Ey as [->|[->| ->]]; try done. by intros [= <-].
Qed.

Lemma scatter_points_traverse x_col y_col data :
  scatter_points x_col y_col data = Json.traverse (row_point x_col y_col) data.
Proof. induction data as [|r rest IH]; simpl; [done|]. by rewrite IH. Qed.

Lemma traverse_raises {A B} (f : A -> result B) l e :
  Json.traverse f l = inl e -> exists x, x ∈ l /\ f x = inl e.
Proof.
  induction l as [|x l IH]; simpl; [done|].
  destruct (f x) as [e'|y] eqn:Ex; simpl.
  - intros [= <-]. exists x. split; [left|done].
  - destruct (Json.traverse f l) as [e'|ys]; simpl; [|done].
    intros [= <-]. destruct (IH eq_refl) as (x' & Hin & Hx').
    exists x'. split; [by right|done].
Qed.

Lemma create_scatter_data_unfold query_result :
  _create_scatter_data query_result
  = (points ← Json.traverse (row_point (scatter_columns query_result).1
                                        (scatter_columns query_result).2)
                            (data query_result);
     mret (ScatterData (map fst points) (map snd points)
                       (scatter_columns query_result).1 (scatter_columns query_result).2)).
Proof.
  unfold _create_scatter_data, scatter_columns, numeric_columns.
  rewrite find_numeric_take by (simpl; lia). rewrite app_nil_l.
  destruct (List.filter _ (columns query_result)) as [|x [|y l]]; simpl;
    destruct (columns query_result) as [|a [|b cs]]; simpl;
    by rewrite scatter_points_traverse.
Qed.

(** C9, amended.  The scatter builder plots the first two columns that hold
    a number in the first row or, short of two, the first two columns.  It
    returns exactly when every row has a point, and raises nothing but
    [OverflowError].  The point of a row has both values converted, [None]
    counting 0, when both conversions return; it is the origin when the
    first conversion that fails raises [TypeError] or [ValueError]: a value
    that converts is then replaced by 0 along with the one that does not. *)
Theorem create_scatter_data_points (query_result : QueryResult) :
  let x_col := (scatter_columns query_result).1 in
  let y_col := (scatter_columns query_result).2 in
  ((exists chart, _create_scatter_data query_result = inr chart)
   <-> Forall (fun r => exists point, row_point x_col y_col r = inr point)
              (data query_result))
  /\ (forall e, _create_scatter_data query_result = inl e -> e = OverflowError)
  /\ (forall chart, _create_scatter_data query_result = inr chart ->
        exists points,
          chart = ScatterData (map fst points) (map snd points) x_col y_col
          /\ Forall2 (fun r point => row_point x_col y_col r = inr point)
                     (data query_result) points)
  /\ (forall x_val y_val,
        scatter_point x_val y_val
        = match coordinate x_val with
          | inr x =>
              match coordinate y_val with
              | inr y => inr (x, y)
              | inl TypeError | inl ValueError => inr (NInt 0, NInt 0)
              | inl e => inl e
              end
          | inl TypeError | inl ValueError => inr (NInt 0, NInt 0)
          | inl e => inl e
          end).
Proof.
  intros x_col y_col. rewrite create_scatter_data_unfold. fold x_col y_col.
  split; [|split; [|split]].
  - split.
    + intros [chart Hc].
      destruct (Json.traverse _ _) as [e|points] eqn:E; [done|].
      apply JsonProps.traverse_inr in E. clear Hc.
      induction E as [|r p l l' Hr _ IH]; constructor; [by exists p | exact IH].
    + intros Hall. apply JsonProps.traverse_total in Hall as [points ->]. by eexists.
  - intros e. destruct (Json.traverse _ _) as [e'|points] eqn:E; [|done].
    intros [= <-]. apply traverse_raises in E as (r & _ & Hr).
    by apply scatter_point_raises in Hr.
  - intros chart. destruct (Json.traverse _ _) as [e|points] eqn:E; [done|].
    intros [= <-]. exists points. split; [done|].
    by apply JsonProps.traverse_inr.
  - apply scatter_point_cases.
Qed.

(** *** The entry point *)







End Scatter.

(** C9, as stated, fails on a row whose first value converts and whose
    second does not: the first value, 5, is plotted as 0 too. *)
Lemma create_scatter_data_pair_zeroed :
  let one_row := result_of ["x"; "y"] [ [("x", VInt 5); ("y", VStr "abc")] ] in
  _create_scatter_data one_row = inr (ScatterData [NInt 0] [NInt 0] "x" "y")
  /\ coordinate (VInt 5) = inr (NFloat 5)
  /\ coordinate (VStr "abc") = inl ValueError.
Proof. repeat split; vm_compute; reflexivity. Qed.

Lemma create_scatter_data_examples :
  _create_scatter_data
    (result_of ["name"; "height"; "weight"]
       [ [("name", VStr "ada"); ("height", VFloat 1.5); ("weight", VInt 60)];
         [("name", VStr "bob"); ("height", VNone); ("weight", VStr "72.5")] ])
  = inr (ScatterData [NFloat 1.5; NInt 0] [NFloat 60; NFloat 72.5] "height" "weight")
  /\ _create_scatter_data (result_of [] [ [("x", VInt 5)] ])
     = inr (ScatterData [NFloat 0] [NFloat 0] "value" "value")
  /\ create_visualization (result_of ["x"] []) (Some SCATTER) = None.
Proof. repeat split; vm_compute; reflexivity. Qed.

End VizProps.

(** ** The query handler *)

Module ChatProps.
Import Py Viz Chat.

Lemma contains_app_l p a b :
  PyStr.contains p a = true -> PyStr.contains p (a +:+ b) = true.
Proof.
  induction a as [|x a IH].
  - cbn [PyStr.contains]. rewrite orb_false_r. intros Hp.
    destruct p; [|done]. by destruct b.
  - change (String x a +:+ b) with (String x (a +:+ b)).
    cbn [PyStr.contains]. intros [Hp|Hc]%orb_true_iff.
    + change (String x (a +:+ b)) with (String x a +:+ b).
      by rewrite (SqlProps.prefix_app_l _ _ b Hp).
    + rewrite (IH Hc). apply orb_true_r.
Qed.

Section WithRuntime.
Context `{Runtime} (services : Services).


End WithRuntime.



(** The scenario of the specification: the same rows come back as a chart
    when a bar chart is suggested and as a table when none is. *)
Lemma sales_by_region_scenario :
  let sql := "SELECT region, SUM(sales) FROM orders GROUP BY region" in
  let answer suggestion :=
    (process_chat_query (scenario sql (inr Viz.sales_by_region) suggestion)
       "show total sales by region" ada 1 2 50).2 in
  query_type (answer (Some BAR)) = CHART
  /\ option_map chart_payload (chart (answer (Some BAR)))
     = Some (BarData ["east"; "west"] [NFloat 15; NFloat 7] "region" "sales")
  /\ query_type (answer None) = TABLE
  /\ chart (answer None) = None
  /\ result (answer (Some BAR)) = result (answer None)
  /\ result (answer None) = Some Viz.sales_by_region.
Proof. repeat split; vm_compute; reflexivity. Qed.

End ChatProps.

(** ** The session table: logging in, expiry and the sweep *)

Module SessionProps.
Import Auth.

Lemma truthy_nonempty token : token <> "" -> truthy token = true.
Proof. intros Hne. unfold truthy. by destruct (String.eqb_spec token ""). Qed.

Lemma authenticate_success now user auth_response user_response token
    (sessions : gmap string SessionData) response :
  (authenticate_with_metabase now user auth_response user_response token sessions).1
    = inr response ->
  exists sid uid,
    auth_response = Response 200 (Some sid) /\ sid <> ""
    /\ user_response = Response 200 (Some uid)
    /\ response = {| session_token := token; login_user_id := uid;
                     login_expires_at := now + hours_24;
                     login_metabase_session_id := sid |}
    /\ (authenticate_with_metabase now user auth_response user_response token sessions).2
       = <[token := {| username := user; metabase_session_id := sid;
                       user_id := uid; expires_at := now + hours_24 |}]> sessions.
Proof.
  unfold authenticate_with_metabase.
  destruct auth_response as [code [sid|]| |]; simpl; try done;
    destruct (code =? 200) eqn:Ecode; simpl; try done.
  apply Z.eqb_eq in Ecode as ->.
  unfold truthy. destruct (String.eqb_spec sid "") as [->|Hsid]; simpl; [done|].
  destruct user_response as [ucode [uid|]| |]; simpl; try done;
    destruct (ucode =? 200) eqn:Eucode; simpl; try done.
  apply Z.eqb_eq in Eucode as ->.
  intros [= <-]. by exists sid, uid.
Qed.

(** X1.  A login that succeeds stores the session under the token it
    returns, in place of whatever was stored there, to expire 24 hours
    later; [validate_session] then returns that session, leaving the table
    as it is, at every time up to and including the expiry, and answers
    [None] and removes it at every later time. *)
Theorem login_then_validate now user auth_response user_response token
    (sessions : gmap string SessionData) response :
  token <> "" ->
  (authenticate_with_metabase now user auth_response user_response token sessions).1
    = inr response ->
  let after :=
    (authenticate_with_metabase now user auth_response user_response token sessions).2 in
  let session_data :=
    {| username := user;
       metabase_session_id := login_metabase_session_id response;
       user_id := login_user_id response;
       expires_at := now + hours_24 |} in
  session_token response = token
  /\ login_expires_at response = now + hours_24
  /\ after = <[token := session_data]> sessions
  /\ forall now',
       validate_session now' token after
       = if now' <=? now + hours_24 then (Some session_data, after)
         else (None, delete token after).
Proof.
  intros Htok Hok.
  destruct (authenticate_success _ _ _ _ _ _ _ Hok) as (sid & uid & _ & _ & _ & -> & ->).
  simpl. repeat split.
  intros now'. unfold validate_session.
  rewrite (truthy_nonempty _ Htok). simpl.
  rewrite lookup_insert_eq. simpl.
  rewrite Z.ltb_antisym. by destruct (now' <=? now + hours_24).
Qed.

Lemma login_then_validate_witness :
  validate_session (5 + hours_24) "t1"
    (authenticate_with_metabase 5 "ada" (Response 200 (Some "mb-1")) (Response 200 (Some 7))
       "t1" ∅).2
  = (Some {| username := "ada"; metabase_session_id := "mb-1"; user_id := 7;
             expires_at := 5 + hours_24 |},
     {["t1" := {| username := "ada"; metabase_session_id := "mb-1"; user_id := 7;
                  expires_at := 5 + hours_24 |}]}).
Proof.
  pose proof (login_then_validate 5 "ada" (Response 200 (Some "mb-1"))
                (Response 200 (Some 7)) "t1" ∅
                {| session_token := "t1"; login_user_id := 7;
                   login_expires_at := 5 + hours_24;
                   login_metabase_session_id := "mb-1" |}) as H.
  destruct H as (_ & _ & _ & H); [done|reflexivity|].
  exact (H (5 + hours_24)).
Defined.

(** X2.  A login that fails leaves the session table as it was.  The error
    is a 401 exactly when the platform answered the credentials with a
    status other than 200, a 503 exactly when one of the two calls met a
    network error, and a 500 in every other case. *)
Theorem login_failure now user auth_response user_response token
    (sessions : gmap string SessionData) error :
  (authenticate_with_metabase now user auth_response user_response token sessions).1
    = inl error ->
  (authenticate_with_metabase now user auth_response user_response token sessions).2
    = sessions
  /\ (status_code error = 401 \/ status_code error = 500 \/ status_code error = 503)
  /\ (status_code error = 401 <->
      exists code id, auth_response = Response code id /\ code <> 200)
  /\ (status_code error = 503 <->
      auth_response = RequestError
      \/ exists sid, auth_response = Response 200 (Some sid) /\ sid <> ""
                     /\ user_response = RequestError).
Proof.
  unfold authenticate_with_metabase, truthy.
  destruct auth_response as [code id| |]; simpl;
    [destruct (Z.eqb_spec code 200) as [->|Hcode]; simpl;
     [destruct id as [sid|]; simpl;
      [destruct (String.eqb_spec sid "") as [->|Hsid]; simpl;
       [|destruct user_response as [ucode uid| |]; simpl;
         [destruct (Z.eqb_spec ucode 200) as [->|Hucode]; simpl;
          [destruct uid as [uid|]; simpl; [done|]|]| |]]|]|]| |];
    intros [= <-]; simpl; (split; [done|]); (split; [auto|]);
    (split; split; try done).
  all: try (intros (c & i & [= <- _] & Hne); done).
  all: try (intros (c & i & [=] & Hne); done).
  all: try (intros [[=]|(s & [= <-] & Hne & [=])]; done).
  all: try (intros [[=]|(s & [=] & _)]; done).
  all: try (intros [[=]|(s & [= _ <-] & _)]; done).
  all: try (intros _; by eauto 6).
Qed.

Lemma login_failure_witness :
  (authenticate_with_metabase 5 "ada" (Response 403 None) RequestError "t1"
     {["t0" := sample_session]}).2
  = {["t0" := sample_session]}.
Proof.
  refine (proj1 (login_failure 5 "ada" (Response 403 None) RequestError "t1"
                   {["t0" := sample_session]}
                   {| status_code := 401; detail := "Invalid Metabase credentials" |} _)).
  reflexivity.
Defined.

(** *** The sweep *)

Lemma fold_delete_lookup (l : list string) (s : gmap string SessionData) k :
  fold_left (fun acc token => delete token acc) l s !! k
  = if bool_decide (k ∈ l) then None else s !! k.
Proof.
  revert s. induction l as [|t l IH]; intros s; simpl.
  - done.
  - rewrite IH. destruct (decide (k = t)) as [->|Hne].
    + rewrite lookup_delete_eq.
      rewrite (bool_decide_eq_true_2 (t ∈ t :: l)) by left.
      by destruct (bool_decide (t ∈ l)).
    + rewrite lookup_delete_ne by done.
      destruct (decide (k ∈ l)) as [Hin|Hnin].
      * rewrite !bool_decide_eq_true_2; [done|by right|done].
      * rewrite !bool_decide_eq_false_2; [done| |done].
        intros [?|?]%elem_of_cons; done.
Qed.

Lemma elem_of_expired_tokens now (s : gmap string SessionData) k :
  k ∈ map fst (List.filter (fun ts => expires_at ts.2 <=? now) (map_to_list s))
  <-> exists d, s !! k = Some d /\ expires_at d <= now.
Proof.
  rewrite list_elem_of_fmap. split.
  - intros ([k' d] & -> & Hin). simpl.
    apply list_elem_of_In, filter_In in Hin as [Hin Hexp].
    apply list_elem_of_In, elem_of_map_to_list in Hin.
    exists d. split; [done|]. by apply Z.leb_le.
  - intros (d & Hd & Hexp). exists (k, d). split; [done|].
    apply list_elem_of_In, filter_In. split.
    + by apply list_elem_of_In, elem_of_map_to_list.
    + by apply Z.leb_le.
Qed.

Lemma cleanup_lookup now (sessions : gmap string SessionData) token :
  cleanup_expired_sessions now sessions !! token
  = match sessions !! token with
    | Some session => if expires_at session <=? now then None else Some session
    | None => None
    end.
Proof.
  unfold cleanup_expired_sessions. rewrite fold_delete_lookup.
  destruct (sessions !! token) as [d|] eqn:E.
  - destruct (Z.leb_spec (expires_at d) now) as [Hle|Hgt].
    + rewrite bool_decide_eq_true_2; [done|].
      apply elem_of_expired_tokens. by exists d.
    + rewrite bool_decide_eq_false_2; [done|].
      intros (d' & Hd' & Hexp)%elem_of_expired_tokens.
      rewrite E in Hd'. injection Hd' as <-. lia.
  - by destruct (bool_decide _).
Qed.

Lemma filter_length_perm {A} (p : A -> bool) (l l' : list A) :
  l ≡ₚ l' -> length (List.filter p l) = length (List.filter p l').
Proof.
  induction 1 as [|x l l' _ IH|x y l|l l' l'' _ IH _ IH']; simpl.
  - done.
  - destruct (p x); simpl; by rewrite IH.
  - by destruct (p x), (p y).
  - by rewrite IH.
Qed.

Lemma count_entries now (s : gmap string SessionData) :
  get_active_sessions_count now s
  = length (List.filter (fun ts => now <? expires_at ts.2) (map_to_list s)).
Proof.
  exact (AuthProps.filter_map_length snd (fun session => now <? expires_at session)
           (map_to_list s)).
Qed.

(** An expired session does not count. *)
Lemma count_delete_expired now (s : gmap string SessionData) k d :
  s !! k = Some d -> expires_at d <= now ->
  get_active_sessions_count now (delete k s) = get_active_sessions_count now s.
Proof.
  intros Hk Hexp. rewrite !count_entries.
  rewrite <- (filter_length_perm _ _ _ (map_to_list_delete s k d Hk)).
  simpl. by destruct (Z.ltb_spec now (expires_at d)); [lia|].
Qed.

Lemma count_fold_delete later (l : list string) (s : gmap string SessionData) :
  (forall k d, k ∈ l -> s !! k = Some d -> expires_at d <= later) ->
  get_active_sessions_count later (fold_left (fun acc token => delete token acc) l s)
  = get_active_sessions_count later s.
Proof.
  revert s. induction l as [|t l IH]; intros s Hl; simpl; [done|].
  rewrite IH.
  - destruct (s !! t) as [d|] eqn:E.
    + apply (count_delete_expired _ _ _ d); [done|]. eapply Hl; [by left|done].
    + by rewrite delete_id.
  - intros k d Hk Hd. apply lookup_delete_Some in Hd as [_ Hd].
    eapply Hl; [by right|done].
Qed.

Lemma count_cleanup now later (s : gmap string SessionData) :
  now <= later ->
  get_active_sessions_count later (cleanup_expired_sessions now s)
  = get_active_sessions_count later s.
Proof.
  intros Hle. unfold cleanup_expired_sessions. apply count_fold_delete.
  intros k d (d' & Hd' & Hexp)%elem_of_expired_tokens Hd.
  rewrite Hd in Hd'. injection Hd' as <-. lia.
Qed.

Lemma count_all_active now (s : gmap string SessionData) :
  (forall k d, s !! k = Some d -> now < expires_at d) ->
  get_active_sessions_count now s = size s.
Proof.
  intros Hs. rewrite count_entries, <- length_map_to_list.
  rewrite (AuthProps.filter_ext_in_length _ (fun _ => true)).
  - clear Hs. induction (map_to_list s) as [|x l IH]; simpl; [done|]. by rewrite IH.
  - intros [k d] Hkd%elem_of_map_to_list. simpl. apply Z.ltb_lt. eauto.
Qed.

(** X3.  [cleanup_expired_sessions] at time [now] keeps exactly the sessions
    that expire after [now], each as it was; a second sweep at the same time
    changes nothing; and the sweep does not change the number of sessions
    that count as active at [now] or later. *)
Theorem cleanup_expired_sessions_keeps_live now (sessions : gmap string SessionData) :
  (forall token,
     cleanup_expired_sessions now sessions !! token
     = match sessions !! token with
       | Some session => if expires_at session <=? now then None else Some session
       | None => None
       end)
  /\ cleanup_expired_sessions now (cleanup_expired_sessions now sessions)
     = cleanup_expired_sessions now sessions
  /\ forall later,
       now <= later ->
       get_active_sessions_count later (cleanup_expired_sessions now sessions)
       = get_active_sessions_count later sessions.
Proof.
  split; [apply cleanup_lookup|]. split; [|intros; by apply count_cleanup].
  apply map_eq. intros token. rewrite !cleanup_lookup.
  destruct (sessions !! token) as [d|]; [|done].
  destruct (expires_at d <=? now) eqn:E; [done|]. by rewrite E.
Qed.

(** X4.  At the very instant a session expires, [validate_session] still
    returns it and leaves it in the table, while
    [get_active_sessions_count] does not count it and
    [cleanup_expired_sessions] removes it. *)
Theorem session_at_expiry now token (sessions : gmap string SessionData) session :
  token <> "" ->
  sessions !! token = Some session ->
  expires_at session = now ->
  validate_session now token sessions = (Some session, sessions)
  /\ get_active_sessions_count now sessions
     = get_active_sessions_count now (delete token sessions)
  /\ cleanup_expired_sessions now sessions !! token = None.
Proof.
  intros Htok Hs Hexp. repeat split.
  - unfold validate_session. rewrite (truthy_nonempty _ Htok), Hs. simpl.
    by rewrite Hexp, Z.ltb_irrefl.
  - symmetry. apply (count_delete_expired _ _ _ session); [done|lia].
  - rewrite cleanup_lookup, Hs, Hexp. by rewrite Z.leb_refl.
Qed.

Lemma session_at_expiry_witness :
  validate_session 100 "t0" {["t0" := sample_session]}
  = (Some sample_session, {["t0" := sample_session]})
  /\ get_active_sessions_count 100 {["t0" := sample_session]}
     = get_active_sessions_count 100 (delete "t0" {["t0" := sample_session]})
  /\ cleanup_expired_sessions 100 {["t0" := sample_session]} !! "t0" = None.
Proof.
  apply (session_at_expiry 100 "t0" {["t0" := sample_session]} sample_session).
  - done.
  - reflexivity.
  - reflexivity.
Defined.

End SessionProps.

(** ** The authentication routes *)

Module RouteProps.
Import PyStr Auth.

Lemma prefix_inv p s : String.prefix p s = true -> exists r, s = p +:+ r.
Proof.
  revert s. induction p as [|c p IH]; intros s Hp.
  - by exists s.
  - destruct s as [|x s]; simpl in Hp; [done|].
    destruct (ascii_dec c x) as [->|]; [|done].
    destruct (IH s Hp) as [r ->]. by exists r.
Qed.

(** The first field of [split(sep)]: the text up to the first separator. *)
Lemma split_on_aux_first sep cur s :
  exists field rest fields,
    split_on_aux sep cur s = (string_of_list_ascii (rev cur) +:+ field) :: fields
    /\ s = field +:+ rest
    /\ all_chars (fun c => negb (Ascii.eqb c sep)) field = true
    /\ (rest = "" \/ exists r, rest = String sep r).
Proof.
  revert cur. induction s as [|x s IH]; intros cur.
  - exists "", "", []. simpl. rewrite SqlProps.append_empty_r. auto.
  - simpl. destruct (Ascii.eqb_spec x sep) as [->|Hne].
    + exists "", (String sep s), (split_on_aux sep [] s).
      rewrite SqlProps.append_empty_r. repeat split; eauto.
    + destruct (IH (x :: cur)) as (field & rest & fields & -> & -> & Hf & Hrest).
      exists (String x field), rest, fields. repeat split; auto.
      * f_equal. rewrite !SqlProps.string_of_list_app.
        cbn [rev list_ascii_of_string]. by rewrite <- app_assoc.
      * simpl. rewrite Hf. by destruct (Ascii.eqb_spec x sep).
Qed.

Lemma second_field_bearer header :
  startswith header "Bearer " = true ->
  exists session_token rest,
    AuthRoutes.second_field header = Some session_token
    /\ header = "Bearer " +:+ session_token +:+ rest
    /\ all_chars (fun c => negb (Ascii.eqb c " ")) session_token = true
    /\ (rest = "" \/ exists r, rest = String " " r).
Proof.
  intros Hp. apply prefix_inv in Hp as [r ->].
  destruct (split_on_aux_first " " [] r) as (field & rest & fields & Hs & Hr & Hf & Hrest).
  exists field, rest. split; [|by rewrite Hr].
  unfold AuthRoutes.second_field, split_on.
  change (split_on_aux " " [] ("Bearer " +:+ r)) with ("Bearer" :: split_on_aux " " [] r).
  by rewrite Hs.
Qed.

Lemma read_authorization_inr authorization session_token :
  AuthRoutes.read_authorization authorization = inr session_token ->
  exists header rest,
    authorization = Some header
    /\ header = "Bearer " +:+ session_token +:+ rest
    /\ all_chars (fun c => negb (Ascii.eqb c " ")) session_token = true
    /\ (rest = "" \/ exists r, rest = String " " r).
Proof.
  unfold AuthRoutes.read_authorization.
  destruct authorization as [header|]; [|done].
  destruct (truthy header); simpl; [|done].
  destruct (startswith header "Bearer ") eqn:Hp; simpl; [|done].
  destruct (second_field_bearer header Hp) as (tok & rest & -> & Hh & Htok & Hrest).
  intros [= <-]. by exists header, rest.
Qed.

Lemma read_authorization_bearer session_token :
  all_chars (fun c => negb (Ascii.eqb c " ")) session_token = true ->
  AuthRoutes.read_authorization (Some ("Bearer " +:+ session_token)) = inr session_token.
Proof.
  intros Htok. unfold AuthRoutes.read_authorization.
  change (truthy ("Bearer " +:+ session_token)) with true.
  assert (startswith ("Bearer " +:+ session_token) "Bearer " = true) as Hp.
  { unfold startswith. apply SqlProps.prefix_app_l. reflexivity. }
  rewrite Hp. simpl negb. cbv iota.
  destruct (second_field_bearer _ Hp) as (tok & rest & -> & Hh & Htok' & Hrest).
  f_equal.
  assert (session_token = tok +:+ rest) as ->.
  { by injection Hh. }
  destruct Hrest as [->|[r ->]]; [by rewrite SqlProps.append_empty_r|].
  rewrite SqlProps.all_chars_app in Htok. simpl in Htok.
  by rewrite andb_false_r in Htok.
Qed.

(** X5.  Reading the [Authorization] header.  A token is read exactly from
    a header that starts with [Bearer ] followed by the token: the token
    holds no blank and ends at the next blank or at the end of the header,
    and what follows it is ignored.  A token without blanks is read back
    from [Bearer ] followed by it.  The refusal reserved for a header
    without a second field never occurs. *)
Theorem read_authorization_token (authorization : option string) :
  match AuthRoutes.read_authorization authorization with
  | inr session_token =>
      exists header rest,
        authorization = Some header
        /\ header = "Bearer " +:+ session_token +:+ rest
        /\ all_chars (fun c => negb (Ascii.eqb c " ")) session_token = true
        /\ (rest = "" \/ exists r, rest = String " " r)
  | inl detail =>
      detail <> "Invalid authorization format"
      /\ forall header,
           authorization = Some header -> startswith header "Bearer " = false
  end
  /\ forall session_token,
       all_chars (fun c => negb (Ascii.eqb c " ")) session_token = true ->
       AuthRoutes.read_authorization (Some ("Bearer " +:+ session_token))
       = inr session_token.
Proof.
  split; [|apply read_authorization_bearer].
  destruct (AuthRoutes.read_authorization authorization) as [detail|tok] eqn:E.
  - unfold AuthRoutes.read_authorization in E.
    destruct authorization as [header|]; [|by injection E as <-].
    destruct (truthy header) eqn:Ht; simpl in E.
    + destruct (startswith header "Bearer ") eqn:Hp; simpl in E.
      * destruct (second_field_bearer header Hp) as (tok & rest & Hs & _).
        rewrite Hs in E. done.
      * injection E as <-. split; [done|]. by intros ? [= <-].
    + injection E as <-. split; [done|]. intros ? [= <-].
      unfold truthy in Ht. apply negb_false_iff in Ht.
      by apply String.eqb_eq in Ht as ->.
  - by apply read_authorization_inr.
Qed.

(** X6.  [GET /me] and [GET /validate] agree on every header and table:
    both leave the same table; [/me] returns a user exactly when
    [/validate] answers [valid], which is exactly when the token read from
    the header is not empty and is stored and not past its expiry, and then the table is
    unchanged and both answers carry the identifier and the name of that
    session; otherwise [/me] raises a 401 with the detail [/validate]
    returns. *)
Theorem me_and_validate_agree now (authorization : option string)
    (sessions : gmap string SessionData) :
  let '(me, after_me) := AuthRoutes.get_current_user now authorization sessions in
  let '(validation, after_validate) :=
    AuthRoutes.validate_session now authorization sessions in
  after_me = after_validate
  /\ match me, validation with
     | inr user, AuthRoutes.Valid name expires uid =>
         exists session_token session,
           AuthRoutes.read_authorization authorization = inr session_token
           /\ sessions !! session_token = Some session
           /\ now <= expires_at session
           /\ after_me = sessions
           /\ user = {| AuthRoutes.id := user_id session;
                        AuthRoutes.username := username session;
                        AuthRoutes.email := None; AuthRoutes.first_name := None;
                        AuthRoutes.last_name := None;
                        AuthRoutes.is_active := true; AuthRoutes.is_superuser := false |}
           /\ name = username session
           /\ expires = expires_at session
           /\ uid = user_id session
     | inl error, AuthRoutes.Invalid reason =>
         error = AuthRoutes.unauthorized reason
         /\ (forall session_token session,
               AuthRoutes.read_authorization authorization = inr session_token ->
               sessions !! session_token = Some session ->
               session_token = "" \/ expires_at session < now)
     | _, _ => False
     end.
Proof.
  unfold AuthRoutes.get_current_user, AuthRoutes.validate_session.
  destruct (AuthRoutes.read_authorization authorization) as [reason|tok] eqn:E.
  - split; [done|]. split; [done|]. intros ? ? [=].
  - destruct (validate_session now tok sessions) as [[d|] after] eqn:Ev.
    + split; [done|].
      pose proof (AuthProps.validate_session_Some now tok sessions d) as Hv.
      rewrite Ev in Hv. destruct Hv as (Hd & Hnow & Hafter); [done|].
      simpl in Hafter. subst after. by exists tok, d.
    + split; [done|]. split; [done|].
      intros tok' d [= <-] Hd.
      unfold validate_session in Ev. rewrite Hd in Ev.
      destruct (truthy tok) eqn:Ht; simpl in Ev.
      * destruct (Z.ltb_spec (expires_at d) now); [by right|done].
      * left. unfold truthy in Ht. apply negb_false_iff in Ht.
        by apply String.eqb_eq in Ht.
Qed.

(** X7.  [POST /logout].  With a header that carries no token the answer is
    a 401 and the table is unchanged.  Otherwise the answer is the success
    message exactly when a session is stored under the token, expired or
    not, and a 400 when none is; either way the token is not stored
    afterwards, and [GET /me] with the same header then answers 401 at any
    time, leaving the table as it is. *)
Theorem logout_then_me (delete_call : reply unit)
    (during : gmap string SessionData -> gmap string SessionData)
    (authorization : option string) (sessions : gmap string SessionData) :
  let '(answer, after) := AuthRoutes.logout delete_call during authorization sessions in
  match AuthRoutes.read_authorization authorization with
  | inl reason => answer = inl (AuthRoutes.unauthorized reason) /\ after = sessions
  | inr session_token =>
      match sessions !! session_token with
      | Some _ =>
          answer = inr "Successfully logged out"
          /\ after = delete session_token (during sessions)
      | None =>
          answer = inl {| status_code := 400; detail := "Logout failed" |}
          /\ after = sessions
      end
      /\ after !! session_token = None
      /\ forall now,
           AuthRoutes.get_current_user now authorization after
           = (inl (AuthRoutes.unauthorized "Invalid or expired session"), after)
  end.
Proof.
  unfold AuthRoutes.logout, AuthRoutes.get_current_user.
  destruct (AuthRoutes.read_authorization authorization) as [reason|tok] eqn:E; [done|].
  destruct (sessions !! tok) as [d|] eqn:Ed.
  - rewrite (AuthProps.logout_present _ _ _ _ d Ed).
    split; [done|]. split; [apply lookup_delete_eq|].
    intros now. rewrite AuthProps.validate_session_absent; [done|apply lookup_delete_eq].
  - rewrite (AuthProps.logout_absent _ _ _ _ Ed).
    split; [done|]. split; [done|].
    intros now. by rewrite AuthProps.validate_session_absent.
Qed.

(** X8.  [GET /status] sweeps the table and then counts.  The number it
    reports is the number of sessions of the table before the sweep that
    expire after the second reading of the clock; it is at most the size of
    the table the sweep leaves, and is that size when the two readings are
    the same. *)
Theorem auth_status_active_sessions (now later : Z) (url : string)
    (sessions : gmap string SessionData) :
  now <= later ->
  let '(answer, after) := AuthRoutes.auth_status now later url sessions in
  AuthRoutes.active_sessions answer = get_active_sessions_count later sessions
  /\ after = cleanup_expired_sessions now sessions
  /\ (AuthRoutes.active_sessions answer <= size after)%nat
  /\ (now = later -> AuthRoutes.active_sessions answer = size after).
Proof.
  intros Hle. unfold AuthRoutes.auth_status. simpl.
  split; [by apply SessionProps.count_cleanup|]. split; [done|]. split.
  - rewrite SessionProps.count_entries, <- length_map_to_list.
    apply List.filter_length_le.
  - intros <-. apply SessionProps.count_all_active.
    intros k d. rewrite SessionProps.cleanup_lookup.
    destruct (sessions !! k) as [d'|]; [|done].
    destruct (Z.leb_spec (expires_at d') now); [done|]. intros [= <-]. done.
Qed.

Lemma auth_status_active_sessions_witness :
  let '(answer, after) :=
    AuthRoutes.auth_status 100 100 "http://metabase" {["t0" := sample_session]} in
  AuthRoutes.active_sessions answer
  = get_active_sessions_count 100 {["t0" := sample_session]}
  /\ after = cleanup_expired_sessions 100 {["t0" := sample_session]}
  /\ (AuthRoutes.active_sessions answer <= size after)%nat
  /\ (100 = 100 -> AuthRoutes.active_sessions answer = size after).
Proof.
  apply (auth_status_active_sessions 100 100 "http://metabase" {["t0" := sample_session]}).
  lia.
Defined.

(** X9.  The session dependency of the schema routes never raises the
    [IndexError] of its unguarded subscript, and returns a session exactly
    when [GET /me] returns a user, the user of that session, leaving the
    same table.  With [Bearer ] followed by a token without blanks it
    behaves as the dependency of the chat routes does on that token. *)
Theorem schema_get_current_user_agrees now (authorization : option string)
    (sessions : gmap string SessionData) :
  let '(answer, after) := AuthRoutes.schema_get_current_user now authorization sessions in
  let '(me, after_me) := AuthRoutes.get_current_user now authorization sessions in
  after = after_me
  /\ match answer, me with
     | inr session, inr user =>
         AuthRoutes.id user = user_id session
         /\ AuthRoutes.username user = username session
     | inl (AuthRoutes.Http error), inl error' =>
         status_code error = 401 /\ status_code error' = 401
     | _, _ => False
     end
  /\ forall session_token,
       all_chars (fun c => negb (Ascii.eqb c " ")) session_token = true ->
       authorization = Some ("Bearer " +:+ session_token) ->
       (answer, after)
       = match AuthRoutes.chat_get_current_user now session_token sessions with
         | (inl error, after) => (inl (AuthRoutes.Http error), after)
         | (inr session, after) => (inr session, after)
         end.
Proof.
  unfold AuthRoutes.schema_get_current_user, AuthRoutes.get_current_user,
    AuthRoutes.chat_get_current_user.
  destruct authorization as [header|]; [|by repeat split].
  unfold AuthRoutes.read_authorization.
  destruct (truthy header) eqn:Ht; simpl.
  - destruct (startswith header "Bearer ") eqn:Hp; simpl.
    + destruct (second_field_bearer header Hp) as (tok & rest & -> & Hh & Htok & Hrest).
      assert (forall tok', all_chars (fun c => negb (Ascii.eqb c " ")) tok' = true ->
                           Some header = Some ("Bearer " +:+ tok') -> tok' = tok) as Hsame.
      { intros tok' Htok' [= Hh']. rewrite Hh' in Hh.
        assert (tok' = tok +:+ rest) as -> by (by injection Hh).
        destruct Hrest as [->|[r ->]]; [by rewrite SqlProps.append_empty_r|].
        rewrite SqlProps.all_chars_app in Htok'. simpl in Htok'.
        by rewrite andb_false_r in Htok'. }
      destruct (validate_session now tok sessions) as [[d|] after] eqn:Ev.
      * repeat split. intros tok' Htok' Hh'.
        rewrite (Hsame tok' Htok' Hh'). by rewrite Ev.
      * repeat split. intros tok' Htok' Hh'.
        rewrite (Hsame tok' Htok' Hh'). by rewrite Ev.
    + repeat split. intros tok' _ [= ->].
      unfold startswith in Hp. by rewrite SqlProps.prefix_app_l in Hp.
  - repeat split. intros tok' _ [= ->]. done.
Qed.

End RouteProps.

(** ** Reading the completions *)

Module OpenAIProps.
Import PyStr Py Viz OpenAI.

(** *** Facts on [find] and slices *)

Lemma prefix_long p u v :
  (String.length p <= String.length u)%nat ->
  String.prefix p (u +:+ v) = String.prefix p u.
Proof.
  revert u. induction p as [|c p IH]; intros u Hlen.
  - by rewrite !SqlProps.prefix_empty.
  - destruct u as [|x u]; simpl in Hlen; [lia|].
    rewrite SqlProps.append_cons. simpl.
    destruct (ascii_dec c x); [|done]. apply IH. lia.
Qed.

Lemma prefix_refl_app p b : String.prefix p (p +:+ b) = true.
Proof.
  induction p as [|c p IH]; [apply SqlProps.prefix_empty|].
  rewrite SqlProps.append_cons. simpl. by destruct (ascii_dec c c).
Qed.

Lemma find_bounds p s : -1 <= find p s.
Proof.
  induction s as [|x s IH]; cbn [find].
  - destruct (String.prefix p ""); lia.
  - destruct (String.prefix p (String x s)); [lia|].
    cbv zeta. destruct (find p s <? 0); lia.
Qed.

Lemma find_absent p s : contains p s = false -> find p s = -1.
Proof.
  induction s as [|x s IH]; cbn [contains find].
  - rewrite orb_false_r. by intros ->.
  - intros [-> Hc]%orb_false_iff. rewrite (IH Hc). done.
Qed.

Lemma find_present p s : contains p s = true -> 0 <= find p s.
Proof.
  induction s as [|x s IH]; cbn [contains find].
  - rewrite orb_false_r. by intros ->.
  - destruct (String.prefix p (String x s)); [done|]. simpl. intros Hc.
    specialize (IH Hc). destruct (Z.ltb_spec (find p s) 0); lia.
Qed.

(** The first occurrence: [q ++ c] occurs in [a ++ (q ++ c) ++ b] at the
    length of [a] when no occurrence starts within [a]. *)
Lemma find_first q c a b :
  contains (q +:+ String c "") (a +:+ q) = false ->
  find (q +:+ String c "") (a +:+ (q +:+ String c "") +:+ b)
  = Z.of_nat (String.length a).
Proof.
  set (p := q +:+ String c "").
  induction a as [|x a IH]; intros Hc.
  - rewrite SqlProps.append_nil_l.
    pose proof (prefix_refl_app p b) as Hp.
    destruct (p +:+ b) as [|y s]; cbn [find String.length]; by rewrite Hp.
  - rewrite SqlProps.append_cons in Hc. cbn [contains] in Hc.
    apply orb_false_iff in Hc as [Hp Hc].
    rewrite SqlProps.append_cons. cbn [find].
    assert (String.prefix p (String x (a +:+ p +:+ b)) = false) as ->.
    { rewrite <- Hp.
      replace (String x (a +:+ p +:+ b)) with (String x (a +:+ q) +:+ (String c "" +:+ b)).
      - apply prefix_long. unfold p. simpl.
        rewrite !SqlProps.append_length. simpl. lia.
      - unfold p. rewrite !SqlProps.append_cons, !SqlProps.append_assoc. done. }
    rewrite (IH Hc).
    destruct (Z.ltb_spec (Z.of_nat (String.length a)) 0); [lia|].
    cbn [String.length]. lia.
Qed.

Lemma first_chars_app a b : first_chars (String.length a) (a +:+ b) = a.
Proof. induction a as [|x a IH]; simpl; [done|]. by rewrite IH. Qed.

Lemma slice_middle a b c :
  slice (Z.of_nat (String.length a))
        (Z.of_nat (String.length a) + Z.of_nat (String.length b))
        (a +:+ b +:+ c)
  = b.
Proof.
  unfold slice, slice_index. rewrite !SqlProps.append_length.
  destruct (Z.ltb_spec (Z.of_nat (String.length a)) 0); [lia|].
  destruct (Z.ltb_spec (Z.of_nat (String.length a) + Z.of_nat (String.length b)) 0); [lia|].
  rewrite !Z.min_l by lia.
  rewrite Nat2Z.id, SqlProps.drop_app.
  replace (Z.to_nat _) with (String.length b) by lia.
  apply first_chars_app.
Qed.

Lemma find_from_app p a s :
  0 <= find p s ->
  find_from p (Z.of_nat (String.length a)) (a +:+ s)
  = Z.of_nat (String.length a) + find p s.
Proof.
  intros Hs. unfold find_from. rewrite Nat2Z.id, SqlProps.drop_app.
  destruct (Z.ltb_spec (find p s) 0); [lia|done].
Qed.

(** *** The reply in the format the prompt asks for *)

(** X10.  A reply in the format the prompt asks for is read back: when the
    first opening fence is followed by the query, a closing fence and,
    later, the first [EXPLANATION:], the result is the query between the
    fences and the text after [EXPLANATION:], each without the white space
    around it. *)
Theorem parse_sql_response_fenced (pre body between text : string) :
  contains "```sql" (pre +:+ "```sq") = false ->
  contains "```" (body +:+ "``") = false ->
  contains "EXPLANATION:"
    (pre +:+ "```sql" +:+ body +:+ "```" +:+ between +:+ "EXPLANATION") = false ->
  _parse_sql_response
    (pre +:+ "```sql" +:+ body +:+ "```" +:+ between +:+ "EXPLANATION:" +:+ text)
  = (strip body, strip text).
Proof.
  intros Hpre Hbody Hexp. unfold _parse_sql_response.
  set (content := pre +:+ _).
  assert (find "```sql" content = Z.of_nat (String.length pre)) as ->.
  { exact (find_first "```sq" "l" pre _ Hpre). }
  assert (find_from "```" (Z.of_nat (String.length pre) + 6) content
          = Z.of_nat (String.length pre) + 6 + Z.of_nat (String.length body)) as ->.
  { unfold content.
    rewrite <- (SqlProps.append_assoc pre "```sql").
    replace (Z.of_nat (String.length pre) + 6)
      with (Z.of_nat (String.length (pre +:+ "```sql")))
      by (rewrite SqlProps.append_length; simpl; lia).
    assert (find "```" (body +:+ "```" +:+ between +:+ "EXPLANATION:" +:+ text)
            = Z.of_nat (String.length body)) as Hf.
    { exact (find_first "``" "`" body _ Hbody). }
    rewrite find_from_app; rewrite Hf; lia. }
  assert (find "EXPLANATION:" content
          = Z.of_nat (String.length (pre +:+ "```sql" +:+ body +:+ "```" +:+ between)))
    as Hfind.
  { unfold content.
    assert (find "EXPLANATION:"
              ((pre +:+ "```sql" +:+ body +:+ "```" +:+ between) +:+ "EXPLANATION:" +:+ text)
            = Z.of_nat (String.length (pre +:+ "```sql" +:+ body +:+ "```" +:+ between)))
      as Hf.
    { apply (find_first "EXPLANATION" ":"). rewrite !SqlProps.append_assoc. exact Hexp. }
    rewrite !SqlProps.append_assoc in Hf. exact Hf. }
  rewrite Hfind.
  destruct (Z.eqb_spec (Z.of_nat (String.length pre)) (-1)); [lia|].
  destruct (Z.eqb_spec (Z.of_nat (String.length pre) + 6
                        + Z.of_nat (String.length body)) (-1)); [lia|].
  destruct (Z.eqb_spec
              (Z.of_nat (String.length (pre +:+ "```sql" +:+ body +:+ "```" +:+ between)))
              (-1)); [lia|].
  cbn [negb andb]. f_equal.
  - f_equal. unfold content.
    rewrite <- (SqlProps.append_assoc pre "```sql").
    replace (Z.of_nat (String.length pre) + 6)
      with (Z.of_nat (String.length (pre +:+ "```sql")))
      by (rewrite SqlProps.append_length; simpl; lia).
    apply slice_middle.
  - f_equal. unfold content.
    replace (Z.of_nat (String.length (pre +:+ "```sql" +:+ body +:+ "```" +:+ between)) + 12)
      with (Z.of_nat (String.length
                        ((pre +:+ "```sql" +:+ body +:+ "```" +:+ between) +:+ "EXPLANATION:")))
      by (rewrite (SqlProps.append_length _ "EXPLANATION:"); simpl; lia).
    rewrite <- (SqlProps.slice_from_app
                  ((pre +:+ "```sql" +:+ body +:+ "```" +:+ between) +:+ "EXPLANATION:") text)
      at 2.
    f_equal. rewrite !SqlProps.append_assoc. done.
Qed.

Lemma parse_sql_response_fenced_witness :
  _parse_sql_response fenced_reply = ("SELECT * FROM orders LIMIT 5", "Lists five orders.").
Proof.
  exact (parse_sql_response_fenced
           ("SQL:" +:+ nl) (nl +:+ "SELECT * FROM orders LIMIT 5" +:+ nl) (nl +:+ nl)
           (nl +:+ "Lists five orders.") eq_refl eq_refl eq_refl).
Defined.

(** *** The fallback on the lines of the reply *)

Lemma sql_lines_skip before lines :
  Forall plain before -> sql_lines false (before ++ lines)%list = sql_lines false lines.
Proof.
  induction 1 as [|line before [Hs He] _ IH]; simpl; [done|].
  by rewrite Hs, He.
Qed.

Lemma sql_lines_keep body lines :
  Forall plain body -> sql_lines true (body ++ lines)%list = (body ++ sql_lines true lines)%list.
Proof.
  induction 1 as [|line body [Hs He] _ IH]; simpl; [done|].
  by rewrite Hs, He, IH.
Qed.

Lemma sql_lines_stop in_sql rest :
  rest = [] \/ (exists stop after, rest = stop :: after /\ is_sql_heading stop = false
                                  /\ is_explanation_heading stop = true) ->
  sql_lines in_sql rest = [].
Proof.
  intros [->|(stop & after & -> & Hs & He)]; simpl; [done|]. by rewrite Hs, He.
Qed.

(** X11.  A reply without an opening fence, or without a fence after it,
    is read line by line.  The query is made of the lines that follow the
    first line starting with [SQL:], up to the next line that starts with
    [EXPLANATION:] or to the end; what stands on the [SQL:] line itself is
    left out.  When no line starts with [SQL:] before the first line that
    starts with [EXPLANATION:], the query is empty. *)
Theorem parse_sql_response_unfenced (content : string) (before rest : list string) :
  (find "```sql" content = -1
   \/ find_from "```" (find "```sql" content + 6) content = -1) ->
  Forall plain before ->
  (rest = [] \/ (exists stop after, rest = stop :: after /\ is_sql_heading stop = false
                                   /\ is_explanation_heading stop = true)) ->
  (split_on newline content = (before ++ rest)%list ->
   (_parse_sql_response content).1 = "")
  /\ (forall marker body,
        Forall plain body ->
        is_sql_heading marker = true ->
        split_on newline content = (before ++ marker :: body ++ rest)%list ->
        (_parse_sql_response content).1 = strip (CPython.join nl body)).
Proof.
  intros Hfence Hbefore Hrest.
  assert ((_parse_sql_response content).1
          = strip (CPython.join nl (sql_lines false (split_on newline content)))) as ->.
  { unfold _parse_sql_response. cbn [fst].
    destruct Hfence as [-> | ->]; [done|].
    by rewrite andb_false_r. }
  split.
  - intros ->. rewrite sql_lines_skip by done. by rewrite sql_lines_stop.
  - intros marker body Hbody Hmarker ->.
    rewrite sql_lines_skip by done. cbn [sql_lines]. rewrite Hmarker.
    rewrite sql_lines_keep by done. rewrite sql_lines_stop by done.
    by rewrite app_nil_r.
Qed.

Lemma parse_sql_response_unfenced_witness :
  (_parse_sql_response cut_reply).1 = "```sql" +:+ nl +:+ "SELECT * FROM orders".
Proof.
  refine (proj2 (parse_sql_response_unfenced cut_reply ["Here it is."] [] _ _ _)
                "SQL: as asked" ["```sql"; "SELECT * FROM orders"] _ _ _).
  - right. reflexivity.
  - repeat constructor.
  - by left.
  - repeat constructor.
  - reflexivity.
  - reflexivity.
Defined.

(** *** The suggested chart type *)

Lemma chart_mapping_get suggestion chart_type :
  dict_get suggestion chart_mapping = Some chart_type
  <-> suggestion = chart_type_value chart_type.
Proof.
  unfold chart_mapping. cbn [dict_get].
  repeat (match goal with
          | |- context [String.eqb ?a suggestion] =>
              destruct (String.eqb_spec a suggestion) as [<-|?]
          end).
  all: split; [intros [= <-]; reflexivity|].
  all: destruct chart_type; try done.
Qed.

(** X12.  [suggest_visualization] returns a chart type exactly when the
    sample rows are JSON values and the service replies with the name of
    that type, in any case and with any white space around it; the reply
    [table], any other word, an exception of the call, or sample rows that
    [json.dumps] refuses give [None].  Every type has such a reply: its
    own value. *)
Theorem suggest_visualization_reads_names (sample_results : list row)
    (reply : result string) (chart_type : ChartType) :
  (suggest_visualization sample_results reply = Some chart_type
   <-> Json.json_dumps (VList (map VDict (take 3 sample_results))) = inr tt
       /\ exists content,
            reply = inr content
            /\ lower (strip content) = chart_type_value chart_type)
  /\ (Json.json_dumps (VList (map VDict (take 3 sample_results))) = inr tt ->
      suggest_visualization sample_results (inr (chart_type_value chart_type))
      = Some chart_type).
Proof.
  unfold suggest_visualization.
  destruct (Json.json_dumps _) as [e|[]] eqn:Ed.
  - split; [|done]. split; [done|]. by intros [? _].
  - split.
    + destruct reply as [e|content].
      * split; [done|]. by intros (_ & ? & ? & _).
      * destruct (String.eqb_spec (lower (strip content)) "table") as [Ht|Ht].
        -- split; [done|]. intros (_ & c & [= <-] & Hc).
           rewrite Ht in Hc. by destruct chart_type.
        -- rewrite chart_mapping_get. split.
           ++ intros Hc. split; [done|]. by exists content.
           ++ by intros (_ & c & [= <-] & Hc).
    + intros _. by destruct chart_type.
Qed.

End OpenAIProps.

(** ** What the coercion leaves unchanged *)

Module CleanProps.
Import Py Json.

(** No object is what its own [tolist()] or [item()] returns. *)
Lemma object_not_own_part v :
  forall type_module tolist item as_str,
    v = VObject type_module tolist item as_str -> tolist <> Some v /\ item <> Some v.
Proof.
  induction v as [ |b|n|x|s|items _|entries _|m tl it s IHtl IHit] using JsonProps.value_induction;
    try done.
  intros m' tl' it' s' [= <- <- <- <-]. split.
  - intros E. rewrite E in IHtl. simpl in IHtl.
    destruct (IHtl m tl it s) as [Ht _]; [done|]. by apply Ht.
  - intros E. rewrite E in IHit. simpl in IHit.
    destruct (IHit m tl it s) as [_ Hi]; [done|]. by apply Hi.
Qed.

Lemma json_dumps_list items :
  json_dumps (VList items) = inr tt <-> Forall (fun v => json_dumps v = inr tt) items.
Proof.
  cbn [json_dumps]. induction items as [|v items IH]; simpl.
  - split; [constructor|done].
  - destruct (json_dumps v) as [e|[]] eqn:Ev; simpl.
    + split; [done|]. inversion 1; congruence.
    + rewrite IH. split; [by constructor|by inversion 1].
Qed.

Lemma json_dumps_dict (entries : list (string * value)) :
  json_dumps (VDict entries) = inr tt
  <-> Forall (fun kv => json_dumps (snd kv) = inr tt) entries.
Proof.
  cbn [json_dumps]. induction entries as [|[k v] entries IH]; simpl.
  - split; [constructor|done].
  - destruct (json_dumps v) as [e|[]] eqn:Ev; simpl.
    + split; [done|]. inversion 1; simpl in *; congruence.
    + rewrite IH. split; [by constructor|by inversion 1].
Qed.

Lemma traverse_fixed {A} (f : A -> result A) (l : list A) :
  traverse f l = inr l <-> Forall (fun x => f x = inr x) l.
Proof.
  rewrite JsonProps.traverse_inr. split.
  - induction l as [|x l IH]; [constructor|].
    inversion 1; subst. constructor; auto.
  - intros Hl. by apply (Forall_Forall2_diag (fun x y => f x = inr y)).
Qed.

Lemma Forall_iff_in {A} (P Q : A -> Prop) (l : list A) :
  Forall (fun x => P x <-> Q x) l -> Forall P l <-> Forall Q l.
Proof.
  induction 1 as [|x l Hx _ IH]; [split; constructor|].
  split; inversion 1; subst; constructor; tauto.
Qed.

Section WithRuntime.
Context `{Runtime}.

Lemma clean_fixed_json data :
  clean_data_for_json data = inr data <-> json_dumps data = inr tt.
Proof.
  induction data as [ |b|n|x|s|items IH|entries IH|m tl it s _ _]
    using JsonProps.value_induction; try done.
  - rewrite JsonProps.clean_list, json_dumps_list.
    rewrite <- (Forall_iff_in _ _ _ IH), <- traverse_fixed.
    destruct (traverse clean_data_for_json items) as [e|items']; simpl; [done|].
    split; intros [= ->]; reflexivity.
  - rewrite JsonProps.clean_dict, json_dumps_dict.
    rewrite <- (Forall_iff_in _ _ _ IH).
    rewrite (Forall_iff (fun kv => clean_data_for_json kv.2 = inr kv.2)
               entries
               (fun kv => (v ← clean_data_for_json (snd kv); mret (fst kv, v)) = inr kv)).
    + rewrite <- traverse_fixed.
      destruct (traverse _ entries) as [e|entries']; simpl; [done|].
      split; intros [= ->]; reflexivity.
    + intros [k v]. simpl.
      destruct (clean_data_for_json v) as [e|w]; simpl; [done|].
      split; intros [= ->]; reflexivity.
  - rewrite JsonProps.clean_object. split; [|done].
    intros [= E]. exfalso.
    destruct (object_not_own_part _ m tl it s eq_refl) as [Ht Hi].
    unfold converted in E. destruct (PyStr.contains "numpy" m); simpl in E; [|done].
    destruct tl as [l|]; simpl in E; [apply Ht; by f_equal|].
    destruct it as [x|]; simpl in E; [apply Hi; by f_equal|done].
Qed.

End WithRuntime.



End CleanProps.

(** ** The query handler, path by path *)

Module PipelineProps.
Import Py Viz Chat.

Lemma no_execute_in_samples sid (sampled : list string) :
  existsb is_execute (map (GetSampleData sid) sampled) = false.
Proof. by induction sampled. Qed.




Section WithRuntime.
Context `{Runtime} (services : Services).







End WithRuntime.



End PipelineProps.

(** ** The columns and the wrapping of a chart *)

Module ChartProps.
Import Py Viz.

(** The loop over the columns finds the first match of each kind; its
    [break] only saves rounds. *)
Lemma find_columns_first data columns text_col numeric_col :
  find_columns data columns text_col numeric_col
  = (match text_col with
     | Some _ => text_col
     | None => head (List.filter (fun col => is_str (sample_val data col)) columns)
     end,
     match numeric_col with
     | Some _ => numeric_col
     | None => head (List.filter (fun col => is_number (sample_val data col)) columns)
     end).
Proof.
  revert text_col numeric_col.
  induction columns as [|col rest IH]; intros text_col numeric_col.
  - by destruct text_col, numeric_col.
  - cbn [find_columns List.filter].
    destruct text_col as [t|], numeric_col as [n|];
      destruct (is_str (sample_val data col)), (is_number (sample_val data col));
      cbn [head truthy andb];
      repeat match goal with
             | |- context [String.eqb ?a ""] => destruct (String.eqb a "")
             end;
      cbn [negb andb]; rewrite ?IH; reflexivity.
Qed.

(** X18.  The axes of the bar builder: the text axis is the first column
    that holds a string in the first row, the numeric axis the first column
    that holds a number there.  Short of such a column, or when its name is
    empty, the text axis is the first column and the numeric axis the second
    column, or the only column; without columns they are [category] and
    [value].  These are the axis labels of every bar chart built. *)
Theorem bar_columns_first_match `{Runtime} (query_result : QueryResult) :
  let chosen found fallback :=
    match found with
    | Some col => if String.eqb col "" then fallback else col
    | None => fallback
    end in
  bar_columns query_result
  = (chosen (head (text_columns query_result))
            match columns query_result with
            | col :: _ => col
            | [] => "category"
            end,
     chosen (head (numeric_columns query_result))
            match columns query_result with
            | _ :: col :: _ => col
            | [col] => col
            | [] => "value"
            end)
  /\ forall labels values x_label y_label,
       _create_bar_data query_result = inr (BarData labels values x_label y_label) ->
       (x_label, y_label) = bar_columns query_result.
Proof.
  split.
  - unfold bar_columns, text_columns, numeric_columns.
    rewrite find_columns_first. unfold text_column, numeric_column, truthy.
    destruct (head (List.filter (fun col => is_str _) _)) as [t|];
      destruct (head (List.filter (fun col => is_number _) _)) as [n|];
      cbn [default]; repeat match goal with
                            | |- context [String.eqb ?a ""] => destruct (String.eqb a "")
                            end; reflexivity.
  - intros labels values x_label y_label. rewrite VizProps.create_bar_data_unfold.
    destruct (aggregate _ _ _ _); [done|]. intros [= _ _ <- <-].
    by destruct (bar_columns query_result).
Qed.

(** X19.  A chart that [create_visualization] returns carries the suggested
    type, the title made of the capitalised type and [Chart], and a
    description that counts all the rows of the result, not the categories
    or points shown.  The data is that of the pie builder for [pie], of the
    scatter builder for [scatter] and of the bar builder for every other
    type, [line], [histogram] and [area] included; bar and pie data hold at
    most 15 labels, with one value each. *)
Theorem create_visualization_chart `{Runtime} (query_result : QueryResult)
    (suggested_chart_type : ChartType) (chart : ChartData) :
  create_visualization query_result (Some suggested_chart_type) = Some chart ->
  chart_type chart = suggested_chart_type
  /\ title chart
     = match suggested_chart_type with
       | BAR => "Bar Chart"
       | LINE => "Line Chart"
       | PIE => "Pie Chart"
       | SCATTER => "Scatter Chart"
       | HISTOGRAM => "Histogram Chart"
       | AREA => "Area Chart"
       end
  /\ description chart
     = Some ("Showing " +:+ pretty (length (data query_result)) +:+ " records")
  /\ data query_result <> []
  /\ match suggested_chart_type with
     | PIE => _create_pie_data query_result = inr (chart_payload chart)
     | SCATTER => _create_scatter_data query_result = inr (chart_payload chart)
     | _ => _create_bar_data query_result = inr (chart_payload chart)
     end
  /\ match chart_payload chart with
     | BarData labels values _ _ | PieData labels values _ =>
         (length labels <= 15)%nat /\ length values = length labels
     | ScatterData x_values y_values _ _ =>
         length x_values = length (data query_result)
         /\ length y_values = length (data query_result)
     end.
Proof.
  unfold create_visualization.
  destruct (data query_result) as [|r rows] eqn:Hdata; [done|].
  destruct (_create_chart_data query_result suggested_chart_type) as [e|c] eqn:Hc; [done|].
  intros [= <-]. unfold _create_chart_data in Hc.
  assert (forall payload, _create_bar_data query_result = inr payload ->
            match payload with
            | BarData labels values _ _ | PieData labels values _ =>
                (length labels <= 15)%nat /\ length values = length labels
            | ScatterData x_values y_values _ _ =>
                length x_values = length (r :: rows) /\ length y_values = length (r :: rows)
            end) as Hbar.
  { intros payload. rewrite VizProps.create_bar_data_unfold.
    destruct (aggregate _ _ _ _) as [e|aggregated] eqn:Hagg; [done|].
    intros [= <-]. rewrite !length_map.
    rewrite VizProps.limit_categories_length by (by eapply VizProps.aggregate_NoDup).
    unfold max_categories. split; [lia|done]. }
  assert (forall payload, _create_pie_data query_result = inr payload ->
            match payload with
            | BarData labels values _ _ | PieData labels values _ =>
                (length labels <= 15)%nat /\ length values = length labels
            | ScatterData x_values y_values _ _ =>
                length x_values = length (r :: rows) /\ length y_values = length (r :: rows)
            end) as Hpie.
  { intros payload. unfold _create_pie_data.
    destruct (_create_bar_data query_result) as [e|bar] eqn:Hb; [done|].
    specialize (Hbar bar eq_refl). cbn [mbind result_bind].
    destruct bar as [labels values x y| |]; [|done|done].
    destruct (sum values); [done|]. by intros [= <-]. }
  assert (forall payload, _create_scatter_data query_result = inr payload ->
            match payload with
            | BarData labels values _ _ | PieData labels values _ =>
                (length labels <= 15)%nat /\ length values = length labels
            | ScatterData x_values y_values _ _ =>
                length x_values = length (r :: rows) /\ length y_values = length (r :: rows)
            end) as Hscatter.
  { intros payload. rewrite VizProps.create_scatter_data_unfold.
    destruct (Json.traverse _ _) as [e|points] eqn:Hp; [done|].
    intros [= <-]. rewrite !length_map.
    apply JsonProps.traverse_inr, Forall2_length in Hp. rewrite Hdata in Hp. by rewrite Hp. }
  destruct suggested_chart_type;
    match type of Hc with
    | context [mbind _ ?m] => destruct m as [e|payload] eqn:Hp; [done|]
    end; injection Hc as <-; cbn [chart_type title description chart_payload];
    rewrite ?Hdata; repeat split; auto; try done.
  all: first [exact (Hbar _ eq_refl) | exact (Hpie _ eq_refl) | exact (Hscatter _ eq_refl)].
Qed.

Lemma create_visualization_chart_witness :
  exists chart,
    create_visualization sales_by_region (Some LINE) = Some chart
    /\ chart_type chart = LINE
    /\ title chart = "Line Chart"
    /\ description chart = Some "Showing 3 records"
    /\ _create_bar_data sales_by_region = inr (chart_payload chart).
Proof.
  destruct (create_visualization sales_by_region (Some LINE)) as [chart|] eqn:E;
    [|vm_compute in E; discriminate].
  exists chart. split; [done|].
  destruct (create_visualization_chart sales_by_region LINE chart E)
    as (Ht & Hti & Hd & _ & Hb & _).
  repeat split; done.
Defined.

End ChartProps.

(** ** The queries sent to the platform *)

Module DatabaseProps.
Import PyStr Py Dyn Database.

(** *** The texts of the failures *)

Lemma first_chars_length n s : (String.length (first_chars n s) <= n)%nat.
Proof.
  revert s. induction n as [|n IH]; intros [|c s]; simpl; try lia.
  specialize (IH s). lia.
Qed.

Lemma slice_to_length j s : 0 <= j -> Z.of_nat (String.length (slice_to j s)) <= j.
Proof.
  intros Hj. unfold slice_to, slice, slice_index.
  destruct (Z.ltb_spec j 0); [lia|].
  change (0 <? 0) with false. cbv iota.
  pose proof (first_chars_length
                (Z.to_nat (Z.min j (Z.of_nat (String.length s))
                           - Z.min 0 (Z.of_nat (String.length s))))
                (drop (Z.to_nat (Z.min 0 (Z.of_nat (String.length s)))) s)).
  lia.
Qed.

Lemma reraise_forms message :
  exists shown,
    reraise message = Error shown
    /\ (shown = message
        /\ (contains "SQL Error:" message = true \/ contains "HTTP" message = true)
        \/ shown = "Database query failed: " +:+ slice_to 200 message +:+ "..."
           /\ contains "SQL Error:" message = false /\ contains "HTTP" message = false).
Proof.
  unfold reraise.
  destruct (contains "SQL Error:" message) eqn:E1; simpl.
  - eexists. split; [done|]. left. auto.
  - destruct (contains "HTTP" message) eqn:E2; simpl.
    + eexists. split; [done|]. left. auto.
    + eexists. split; [done|]. right. auto.
Qed.

Lemma reraise_marked marker text rest :
  (marker = "SQL Error:" \/ marker = "HTTP") ->
  reraise (marker +:+ text +:+ rest) = Error (marker +:+ text +:+ rest).
Proof.
  intros Hm. unfold reraise.
  assert (contains "SQL Error:" (marker +:+ text +:+ rest)
          || contains "HTTP" (marker +:+ text +:+ rest) = true) as ->; [|done].
  destruct Hm as [-> | ->].
  - rewrite (ChatProps.contains_app_l "SQL Error:" "SQL Error:"); done.
  - rewrite (ChatProps.contains_app_l "HTTP" "HTTP" (text +:+ rest)); [|done].
    apply orb_true_r.
Qed.

(** *** Rows as dicts *)

Lemma to_python_json cell : Json.json_dumps cell = inr tt -> to_python cell = cell.
Proof. by destruct cell. Qed.

Lemma set_item_fresh k v (d : items) :
  Forall (fun kv => key_eq kv.1 k = false) d -> set_item k v d = (d ++ [(k, v)])%list.
Proof.
  induction 1 as [|[k' v'] d Hk _ IH]; simpl; [done|].
  simpl in Hk. by rewrite Hk, IH.
Qed.

Lemma dict_zip_fresh names cells (d : items) :
  NoDup names ->
  Forall (fun kv => forall k, k ∈ names -> key_eq kv.1 (VStr k) = false) d ->
  dict_zip (map VStr names) cells d = inr (d ++ zip (map VStr names) cells)%list.
Proof.
  intros Hn. revert cells d.
  induction Hn as [|n ns Hnotin Hn IH]; intros cells d Hd.
  - simpl. by rewrite app_nil_r.
  - destruct cells as [|c cs]; simpl; [by rewrite app_nil_r|].
    rewrite set_item_fresh.
    + rewrite IH.
      * by rewrite <- app_assoc.
      * apply Forall_app. split.
        -- eapply Forall_impl; [exact Hd|]. intros kv Hkv k Hk. apply Hkv. by right.
        -- constructor; [|constructor]. intros k Hk. simpl.
           apply String.eqb_neq. intros ->. done.
    + eapply Forall_impl; [exact Hd|]. intros kv Hkv. apply Hkv. by left.
Qed.

Lemma dict_zip_names names cells :
  NoDup names -> dict_zip (map VStr names) cells [] = inr (zip (map VStr names) cells).
Proof. intros Hn. by rewrite dict_zip_fresh. Qed.

(** A name is found at its place. *)
Lemma get_item_zip names cells j name cell :
  NoDup names -> names !! j = Some name -> cells !! j = Some cell ->
  get_item (VStr name) (zip (map VStr names) cells) = Some cell.
Proof.
  intros Hn. revert cells j.
  induction Hn as [|n ns Hnotin Hn IH]; intros cells j Hj Hc; [done|].
  destruct cells as [|c cs]; [done|].
  destruct j as [|j]; simpl in *.
  - injection Hj as ->. injection Hc as ->. by rewrite String.eqb_refl.
  - destruct (String.eqb_spec n name) as [->|Hne].
    + exfalso. apply Hnotin. by eapply list_elem_of_lookup_2.
    + by apply (IH cs j).
Qed.

Lemma rows_to_dicts_names names (rows : list (list value)) :
  names <> [] -> NoDup names ->
  Forall (Forall (fun cell => Json.json_dumps cell = inr tt)) rows ->
  rows_to_dicts (map VStr names) (map VList rows)
  = inr (map (fun row => zip (map VStr names) row) rows, map VStr names).
Proof.
  intros Hne Hn. induction 1 as [|row rows Hrow _ IH]; [done|].
  cbn [map rows_to_dicts iterate mret result_ret mbind result_bind].
  assert ((0 <? length (map VStr names))%nat = true) as ->.
  { destruct names; [done|]. done. }
  assert (map to_python row = row) as ->.
  { clear -Hrow. induction Hrow as [|c row Hc _ IHr]; [done|].
    simpl. by rewrite (to_python_json c Hc), IHr. }
  rewrite dict_zip_names by done.
  cbn [mret result_ret mbind result_bind fst snd]. rewrite IH. done.
Qed.

Lemma fallback_name_inj i j : fallback_name i = fallback_name j -> i = j.
Proof.
  unfold fallback_name. intros E.
  assert (pretty (Z.of_nat i) = pretty (Z.of_nat j)) as Hp by (by injection E).
  apply (inj pretty) in Hp. lia.
Qed.

Lemma fallback_names_NoDup start n : NoDup (map fallback_name (seq start n)).
Proof.
  apply (NoDup_fmap_2_strong fallback_name).
  - intros i j _ _. apply fallback_name_inj.
  - apply NoDup_seq.
Qed.

Lemma imap_fallback {A} (g : nat -> nat) (cells : list A) :
  imap (fun i cell => (VStr (fallback_name (g i)), cell)) cells
  = zip (map VStr (map fallback_name (map g (seq 0 (length cells))))) cells.
Proof.
  revert g. induction cells as [|c cells IH]; intros g; [done|].
  cbn [imap length seq map zip zip_with]. f_equal.
  etransitivity; [exact (IH (g ∘ S))|].
  by rewrite <- List.seq_shift, !List.map_map.
Qed.

Section WithRuntime.
Context `{Runtime} (database_id : string).

Lemma clean_rows_json (rows : list items) :
  Forall (Forall (fun kv : value * value => Json.json_dumps kv.2 = inr tt)) rows ->
  clean_rows rows = inr rows.
Proof.
  intros Hrows. unfold clean_rows. apply CleanProps.traverse_fixed.
  eapply Forall_impl; [exact Hrows|]. intros row Hrow. simpl.
  apply CleanProps.traverse_fixed.
  eapply Forall_impl; [exact Hrow|]. intros [k v] Hv. simpl in *.
  unfold Json.clean_data_for_serialization.
  apply CleanProps.clean_fixed_json in Hv. by rewrite Hv.
Qed.

Lemma clean_names (names : list string) :
  Json.traverse Json.clean_data_for_serialization (map VStr names) = inr (map VStr names).
Proof.
  apply CleanProps.traverse_fixed. apply Forall_map. by apply Forall_forall.
Qed.

Lemma zip_json (keys : list value) (cells : list value) :
  Forall (fun cell => Json.json_dumps cell = inr tt) cells ->
  Forall (fun kv : value * value => Json.json_dumps kv.2 = inr tt) (zip keys cells).
Proof.
  intros Hc. revert keys. induction Hc as [|c cells Hcell _ IH]; intros [|k keys];
    simpl; constructor; auto.
Qed.

(** X20.  Every exception [execute_sql_query] raises has one of three
    texts: one that holds [SQL Error:], one that holds [HTTP], or
    [Database query failed: ] followed by at most 200 characters of the
    text of the cause and three dots. *)
Theorem execute_sql_query_failures (post : Request -> http_reply)
    (metabase_session_id sql_query : string) (e : exn) :
  execute_sql_query database_id post metabase_session_id sql_query = inl e ->
  exists message,
    e = Error message
    /\ (contains "SQL Error:" message = true
        \/ contains "HTTP" message = true
        \/ exists cause,
             message = "Database query failed: " +:+ slice_to 200 cause +:+ "..."
             /\ Z.of_nat (String.length (slice_to 200 cause)) <= 200).
Proof.
  unfold execute_sql_query.
  match goal with
  | |- context [match ?a with inl _ => _ | inr _ => _ end] => destruct a as [e'|r]
  end; [|done].
  intros [= <-].
  destruct (reraise_forms (Chat.exn_str e')) as (shown & -> & [[-> Hm]|[-> _]]).
  - exists (Chat.exn_str e'). split; [done|]. tauto.
  - eexists. split; [done|]. right. right. eexists. split; [done|].
    by apply slice_to_length.
Qed.

(** X21.  What the platform reports is passed on in full.  A status code
    other than 200 and 202 raises [HTTP <code>: ] followed by the whole
    body of the response; a body with the status [failed] raises
    [SQL Error: ] followed by its [error], or by [Unknown SQL error] when it
    has none; any other body with a true [error] raises [SQL Error: ]
    followed by it; and 202 is read as 200 is. *)
Theorem platform_errors_in_full (post : Request -> http_reply)
    (metabase_session_id sql_query : string) (database status_code : Z)
    (text : string) (json : string + value) :
  int database_id = inr database ->
  post {| session := metabase_session_id; database := database;
          native_query := sql_query |}
  = Response status_code text json ->
  let answer := execute_sql_query database_id post metabase_session_id sql_query in
  (status_code <> 200 -> status_code <> 202 ->
   answer = inl (Error ("HTTP " +:+ pretty status_code +:+ ": " +:+ text)))
  /\ (forall entries,
        status_code = 200 \/ status_code = 202 ->
        json = inr (VDict entries) ->
        let status := default VNone (dict_get "status" entries) in
        let error := default VNone (dict_get "error" entries) in
        (eq_str status "failed" = true ->
         answer
         = inl (Error ("SQL Error: "
                       +:+ to_str (default (VStr "Unknown SQL error")
                                     (dict_get "error" entries)))))
        /\ (eq_str status "failed" = false -> truthy error = true ->
            answer = inl (Error ("SQL Error: " +:+ to_str error)))).
Proof.
  intros Hid Hpost answer. subst answer. unfold execute_sql_query.
  rewrite Hid. cbn [mbind result_bind]. rewrite Hpost. split.
  - intros H200 H202.
    destruct (Z.eqb_spec status_code 200); [done|].
    destruct (Z.eqb_spec status_code 202); [done|].
    cbn [orb negb raise Chat.exn_str].
    apply (f_equal inl).
    exact (reraise_marked "HTTP" (" " +:+ pretty status_code) (": " +:+ text)
             (or_intror eq_refl)).
  - intros entries Hcode ->. cbv zeta.
    set (status := default VNone (dict_get "status" entries)).
    set (error := default VNone (dict_get "error" entries)).
    assert (negb ((status_code =? 200) || (status_code =? 202)) = false) as ->.
    { destruct Hcode as [-> | ->]; done. }
    cbn [read_json mret result_ret mbind result_bind].
    unfold read_result. cbn [get mret result_ret mbind result_bind].
    fold status. split.
    + intros ->. cbn [raise Chat.exn_str].
      apply (f_equal inl).
      exact (reraise_marked "SQL Error:" " " _ (or_introl eq_refl)).
    + intros -> Herr. fold error. rewrite Herr. cbn [raise Chat.exn_str].
      apply (f_equal inl).
      exact (reraise_marked "SQL Error:" " " _ (or_introl eq_refl)).
Qed.

Lemma column_name_dict (entries : list (string * value)) :
  column_name (VDict entries)
  = inr (let display_name := default VNone (dict_get "display_name" entries) in
         if truthy display_name then display_name
         else default (VStr "unknown") (dict_get "name" entries)).
Proof.
  unfold column_name. cbn [get mret result_ret mbind result_bind].
  by destruct (truthy _).
Qed.

(** X22.  A column is named by its [display_name] when that is true, else
    by its [name], else [unknown].  When the platform answers 200 or 202
    with a body that is not failed, with columns named by distinct strings
    and with rows of JSON values, [execute_sql_query] returns these names as
    columns, one dict for each row, in order, that pairs the names with the
    values of the row by position up to the end of the shorter of the two,
    the number of rows as [row_count], and the [running_time] of the body,
    or 0, as [execution_time_ms]; the value of a row at the place of a name
    is found under that name. *)
Theorem execute_sql_query_rows (post : Request -> http_reply)
    (metabase_session_id sql_query : string) (database status_code : Z) (text : string)
    (entries data_entries : list (string * value)) (cols : list value)
    (names : list string) (rows : list (list value)) :
  int database_id = inr database ->
  post {| session := metabase_session_id; database := database;
          native_query := sql_query |}
  = Response status_code text (inr (VDict entries)) ->
  status_code = 200 \/ status_code = 202 ->
  eq_str (default VNone (dict_get "status" entries)) "failed" = false ->
  truthy (default VNone (dict_get "error" entries)) = false ->
  dict_get "data" entries = Some (VDict data_entries) ->
  dict_get "cols" data_entries = Some (VList cols) ->
  Forall2 (fun col name => column_name col = inr (VStr name)) cols names ->
  names <> [] ->
  NoDup names ->
  dict_get "rows" data_entries = Some (VList (map VList rows)) ->
  Forall (Forall (fun cell => Json.json_dumps cell = inr tt)) rows ->
  execute_sql_query database_id post metabase_session_id sql_query
  = inr {| data := map (fun row => zip (map VStr names) row) rows;
           columns := map VStr names;
           row_count := length rows;
           execution_time_ms := default (VInt 0) (dict_get "running_time" entries) |}
  /\ (forall row j name cell,
        row ∈ rows -> names !! j = Some name -> row !! j = Some cell ->
        get_item (VStr name) (zip (map VStr names) row) = Some cell)
  /\ (forall col_entries,
        column_name (VDict col_entries)
        = inr (let display_name := default VNone (dict_get "display_name" col_entries) in
               if truthy display_name then display_name
               else default (VStr "unknown") (dict_get "name" col_entries))).
Proof.
  intros Hid Hpost Hcode Hstatus Herror Hdata Hcols Hnames Hne Hn Hrows Hjson.
  split; [|split; [|apply column_name_dict]].
  2: { intros row j name cell _. by apply get_item_zip. }
  unfold execute_sql_query. rewrite Hid. cbn [mbind result_bind]. rewrite Hpost.
  assert (negb ((status_code =? 200) || (status_code =? 202)) = false) as ->.
  { destruct Hcode as [-> | ->]; done. }
  cbn [read_json mret result_ret mbind result_bind].
  unfold read_result. cbn [get mret result_ret mbind result_bind].
  rewrite Hstatus, Herror, Hdata. cbn [from_option id].
  unfold cols_metadata. cbn [get mret result_ret mbind result_bind].
  rewrite Hcols. cbn [from_option id].
  assert (cols <> []) as Hc.
  { intros ->. inversion Hnames. by subst. }
  assert (truthy (VList cols) = true) as ->.
  { destruct cols; done. }
  cbn [negb iterate mret result_ret mbind result_bind].
  assert (Json.traverse column_name cols = inr (map VStr names)) as ->.
  { apply JsonProps.traverse_inr. by apply Forall2_fmap_r. }
  cbn [mbind result_bind]. rewrite Hrows.
  cbn [from_option id iterate mret result_ret mbind result_bind].
  rewrite rows_to_dicts_names by done.
  cbn [mbind result_bind fst snd].
  rewrite clean_rows_json.
  - cbn [mbind result_bind]. rewrite clean_names. cbn [mbind result_bind].
    by rewrite length_map.
  - apply Forall_map. eapply Forall_impl; [exact Hjson|].
    intros row Hrow. simpl. by apply zip_json.
Qed.

(** X23.  Without column metadata the columns are named after the first
    row: [column_0], [column_1], ... for as many values as it holds.  The
    first row is keyed by these names, and so is every row that follows, up
    to the end of the shorter of the names and the row: the values a later
    row has beyond the width of the first are left out. *)
Theorem execute_sql_query_unnamed_columns (post : Request -> http_reply)
    (metabase_session_id sql_query : string) (database status_code : Z) (text : string)
    (entries data_entries : list (string * value))
    (first : list value) (rest : list (list value)) :
  int database_id = inr database ->
  post {| session := metabase_session_id; database := database;
          native_query := sql_query |}
  = Response status_code text (inr (VDict entries)) ->
  status_code = 200 \/ status_code = 202 ->
  eq_str (default VNone (dict_get "status" entries)) "failed" = false ->
  truthy (default VNone (dict_get "error" entries)) = false ->
  dict_get "data" entries = Some (VDict data_entries) ->
  cols_metadata (VDict data_entries) = inr (VList []) ->
  dict_get "rows" data_entries = Some (VList (map VList (first :: rest))) ->
  first <> [] ->
  Forall (Forall (fun cell => Json.json_dumps cell = inr tt)) (first :: rest) ->
  let names := map VStr (map fallback_name (seq 0 (length first))) in
  execute_sql_query database_id post metabase_session_id sql_query
  = inr {| data := zip names first :: map (fun row => zip names row) rest;
           columns := names;
           row_count := S (length rest);
           execution_time_ms := default (VInt 0) (dict_get "running_time" entries) |}.
Proof.
  intros Hid Hpost Hcode Hstatus Herror Hdata Hcols Hrows Hne Hjson names.
  unfold execute_sql_query. rewrite Hid. cbn [mbind result_bind]. rewrite Hpost.
  assert (negb ((status_code =? 200) || (status_code =? 202)) = false) as ->.
  { destruct Hcode as [-> | ->]; done. }
  cbn [read_json mret result_ret mbind result_bind].
  unfold read_result. cbn [get mret result_ret mbind result_bind].
  rewrite Hstatus, Herror, Hdata. cbn [from_option id].
  rewrite Hcols. cbn [mbind result_bind iterate mret result_ret Json.traverse].
  cbn [get mret result_ret mbind result_bind]. rewrite Hrows.
  cbn [from_option id iterate mret result_ret mbind result_bind].
  inversion Hjson as [|? ? Hfirst Hrest]; subst.
  cbn [map rows_to_dicts iterate mret result_ret mbind result_bind length Nat.ltb Nat.leb
       fst snd].
  assert (map to_python first = first) as ->.
  { clear -Hfirst. induction Hfirst as [|c row Hc _ IHr]; [done|].
    simpl. by rewrite (to_python_json c Hc), IHr. }
  rewrite (imap_fallback (fun i => i) first), map_id. fold names.
  assert (map (fun i => VStr (fallback_name i)) (seq 0 (length first)) = names) as ->.
  { unfold names. by rewrite map_map. }
  unfold names. rewrite rows_to_dicts_names.
  - cbn [mbind result_bind mret result_ret fst snd]. fold names.
    rewrite clean_rows_json.
    + cbn [mbind result_bind]. unfold names. rewrite clean_names.
      cbn [mbind result_bind mret result_ret length]. by rewrite length_map.
    + constructor; [by apply zip_json|].
      apply Forall_map. eapply Forall_impl; [exact Hrest|].
      intros row Hrow. simpl. by apply zip_json.
  - destruct first; [done|]. done.
  - apply fallback_names_NoDup.
  - done.
Qed.

End WithRuntime.

Lemma execute_sql_query_failures_witness :
  exists message,
    Error "Database query failed: invalid literal for int() with base 10: 'abc'..."
    = Error message
    /\ (contains "SQL Error:" message = true
        \/ contains "HTTP" message = true
        \/ exists cause,
             message = "Database query failed: " +:+ slice_to 200 cause +:+ "..."
             /\ Z.of_nat (String.length (slice_to 200 cause)) <= 200).
Proof.
  apply (execute_sql_query_failures "abc" (platform (Raises "refused")) "mb-1" "SELECT 1").
  reflexivity.
Defined.

Lemma platform_errors_in_full_witness :
  execute_sql_query "1" (platform (Response 500 "<html>down</html>" (inl "Expecting value")))
    "mb-1" "SELECT 1"
  = inl (Error "HTTP 500: <html>down</html>").
Proof.
  refine (proj1 (platform_errors_in_full "1"
                   (platform (Response 500 "<html>down</html>" (inl "Expecting value")))
                   "mb-1" "SELECT 1" 1 500 "<html>down</html>" (inl "Expecting value")
                   _ _) _ _).
  - reflexivity.
  - reflexivity.
  - lia.
  - lia.
Defined.

Lemma execute_sql_query_rows_witness :
  execute_sql_query "1" (platform (Response 202 "" (inr named_body))) "mb-1" "SELECT 1"
  = inr {| data := [ [(VStr "Region", VStr "east"); (VStr "total", VInt 15)];
                     [(VStr "Region", VStr "west"); (VStr "total", VInt 7)] ];
           columns := [VStr "Region"; VStr "total"];
           row_count := 2;
           execution_time_ms := VInt 12 |}.
Proof.
  refine (proj1 (execute_sql_query_rows "1"
                   (platform (Response 202 "" (inr named_body))) "mb-1" "SELECT 1"
                   1 202 ""
                   [ ("status", VStr "completed");
                     ("data",
                      VDict [ ("rows", VList [ VList [VStr "east"; VInt 15];
                                               VList [VStr "west"; VInt 7] ]);
                              ("cols", VList [ VDict [("name", VStr "region");
                                                      ("display_name", VStr "Region")];
                                               VDict [("name", VStr "total");
                                                      ("display_name", VStr "")] ]) ]);
                     ("running_time", VInt 12) ]
                   [ ("rows", VList [ VList [VStr "east"; VInt 15];
                                      VList [VStr "west"; VInt 7] ]);
                     ("cols", VList [ VDict [("name", VStr "region");
                                             ("display_name", VStr "Region")];
                                      VDict [("name", VStr "total");
                                             ("display_name", VStr "")] ]) ]
                   [ VDict [("name", VStr "region"); ("display_name", VStr "Region")];
                     VDict [("name", VStr "total"); ("display_name", VStr "")] ]
                   ["Region"; "total"]
                   [ [VStr "east"; VInt 15]; [VStr "west"; VInt 7] ]
                   _ _ _ _ _ _ _ _ _ _ _ _)).
  - reflexivity.
  - reflexivity.
  - by right.
  - reflexivity.
  - reflexivity.
  - reflexivity.
  - reflexivity.
  - repeat constructor.
  - done.
  - apply NoDup_cons. split; [by intros [=]%list_elem_of_singleton|].
    apply NoDup_singleton.
  - reflexivity.
  - repeat constructor.
Defined.

Lemma execute_sql_query_unnamed_columns_witness :
  execute_sql_query "1" (platform (Response 200 "" (inr unnamed_body))) "mb-1" "SELECT 1"
  = inr {| data := [ [(VStr "column_0", VInt 1); (VStr "column_1", VInt 2)];
                     [(VStr "column_0", VInt 3); (VStr "column_1", VInt 4)] ];
           columns := [VStr "column_0"; VStr "column_1"];
           row_count := 2;
           execution_time_ms := VInt 0 |}.
Proof.
  refine (execute_sql_query_unnamed_columns "1"
            (platform (Response 200 "" (inr unnamed_body))) "mb-1" "SELECT 1"
            1 200 ""
            [ ("data",
               VDict [ ("rows", VList [ VList [VInt 1; VInt 2];
                                        VList [VInt 3; VInt 4; VInt 5] ]) ]) ]
            [ ("rows", VList [ VList [VInt 1; VInt 2]; VList [VInt 3; VInt 4; VInt 5] ]) ]
            [VInt 1; VInt 2] [ [VInt 3; VInt 4; VInt 5] ]
            _ _ _ _ _ _ _ _ _ _).
  - reflexivity.
  - reflexivity.
  - by left.
  - reflexivity.
  - reflexivity.
  - reflexivity.
  - reflexivity.
  - reflexivity.
  - done.
  - repeat constructor.
Defined.

End DatabaseProps.

(** ** The schema of the database *)

Module SchemaProps.
Import PyStr Py Dyn Schema.

(** *** Tables *)

Lemma process_field_dict (field : list (string * value)) :
  process_field (VDict field)
  = inr (column_of field,
         if has_semantic_type "type/PK" field
         then Some (default VNone (dict_get "name" field)) else None,
         if has_semantic_type "type/FK" field
         then Some {| column := default VNone (dict_get "name" field);
                      references := default VNone (dict_get "fk_target_field_id" field) |}
         else None).
Proof. reflexivity. Qed.

Lemma process_field_other field :
  is_dict field = false -> exists message, process_field field = inl (Error message).
Proof. destruct field; try done; intros _; by eexists. Qed.

Lemma traverse_fields (fields : list (list (string * value))) :
  Json.traverse process_field (map VDict fields)
  = inr (map (fun field =>
                (column_of field,
                 if has_semantic_type "type/PK" field
                 then Some (default VNone (dict_get "name" field)) else None,
                 if has_semantic_type "type/FK" field
                 then Some {| column := default VNone (dict_get "name" field);
                              references :=
                                default VNone (dict_get "fk_target_field_id" field) |}
                 else None))
             fields).
Proof.
  apply JsonProps.traverse_inr. induction fields; constructor; auto.
Qed.

Lemma omap_filter {A B} (p : A -> bool) (f : A -> B) (l : list A) :
  omap (fun x => if p x then Some (f x) else None) l = map f (List.filter p l).
Proof.
  induction l as [|x l IH]; [done|]. csimpl. simpl.
  destruct (p x); csimpl; by rewrite IH.
Qed.

Lemma traverse_fails {A B} (f : A -> result B) (l : list A) x :
  x ∈ l -> (exists e, f x = inl e) -> exists e, Json.traverse f l = inl e.
Proof.
  intros Hin [e He]. induction l as [|y l IH]; [by inversion Hin|].
  simpl. destruct (f y) as [e'|b] eqn:Ey; simpl; [by eexists|].
  apply elem_of_cons in Hin as [->|Hin]; [congruence|].
  destruct (IH Hin) as [e' ->]. simpl. by eexists.
Qed.

Lemma process_table_dict (table : list (string * value)) (fields : list (list (string * value))) :
  default (VList []) (dict_get "fields" table) = VList (map VDict fields) ->
  _process_table_info (VDict table) = inr (Some (table_of table fields)).
Proof.
  intros Hf. unfold _process_table_info.
  cbn [get mret result_ret mbind result_bind]. rewrite Hf.
  cbn [iterate mret result_ret mbind result_bind]. rewrite traverse_fields.
  cbn [mret result_ret mbind result_bind]. unfold table_of. do 3 f_equal.
  - by rewrite map_map.
  - rewrite <- omap_filter. clear. induction fields as [|f fs IH]; [done|].
    csimpl. cbn [fst snd]. destruct (has_semantic_type "type/PK" f); csimpl; by rewrite IH.
  - rewrite <- omap_filter. clear. induction fields as [|f fs IH]; [done|].
    csimpl. cbn [fst snd]. destruct (has_semantic_type "type/FK" f); csimpl; by rewrite IH.
Qed.

Lemma process_table_returns (table : list (string * value)) :
  exists answer, _process_table_info (VDict table) = inr answer.
Proof.
  unfold _process_table_info.
  match goal with
  | |- context [match ?a with inl _ => _ | inr _ => _ end] => destruct a
  end; by eexists.
Qed.

(** X24.  [_process_table_info] raises only for a table that is no dict.
    For a dict whose fields are a list of dicts, or that has no fields, it
    returns the table with one column for each field, in order, the names of
    the fields of semantic type [type/PK] as primary keys and those of the
    fields of type [type/FK] as foreign keys; a column is nullable exactly
    when [database_required] is absent or false.  One field that is no dict
    makes it return [None] for the whole table. *)
Theorem process_table_info_cases (table : value) :
  match table with
  | VDict entries =>
      (exists answer, _process_table_info table = inr answer)
      /\ (forall fields,
            default (VList []) (dict_get "fields" entries) = VList (map VDict fields) ->
            _process_table_info table = inr (Some (table_of entries fields)))
      /\ (forall fields field,
            default (VList []) (dict_get "fields" entries) = VList fields ->
            field ∈ fields -> is_dict field = false ->
            _process_table_info table = inr None)
  | _ => exists message, _process_table_info table = inl (Error message)
  end.
Proof.
  destruct table as [ | | | | | |entries| ]; try (by eexists).
  split; [apply process_table_returns|]. split; [apply process_table_dict|].
  intros fields field Hf Hin Hd. unfold _process_table_info.
  cbn [get mret result_ret mbind result_bind]. rewrite Hf.
  cbn [iterate mret result_ret mbind result_bind].
  destruct (traverse_fails process_field fields field Hin) as [e ->]; [|done].
  destruct (process_field_other field Hd) as [message Hm]. by eexists.
Qed.

(** *** The schema *)

Lemma get_raises key fallback v e : get key fallback v = inl e -> exists m, e = Error m.
Proof. destruct v; simpl; try done; intros [= <-]; by eexists. Qed.

(** X25.  [get_database_schema] reports every failure as
    [Failed to retrieve database schema: ] followed by the text of the
    cause, which for a status code other than 200 is
    [Failed to get database info: ] or [Failed to get tables: ] and the
    code.  When both calls answer 200 with dicts and the tables are a list
    of dicts, it returns the name and the engine of the database and the
    tables that [_process_table_info] returns, in order: a table for which
    that answers [None] is left out without an error. *)
Theorem get_database_schema_cases
    (database_reply metadata_reply : Database.http_reply) :
  (forall e,
     get_database_schema database_reply metadata_reply = inl e ->
     exists cause, e = Error ("Failed to retrieve database schema: " +:+ cause))
  /\ (forall status_code text json,
        database_reply = Database.Response status_code text json ->
        status_code <> 200 ->
        get_database_schema database_reply metadata_reply
        = inl (Error ("Failed to retrieve database schema: "
                      +:+ "Failed to get database info: " +:+ pretty status_code)))
  /\ (forall text json status_code text' json',
        database_reply = Database.Response 200 text (inr json) ->
        metadata_reply = Database.Response status_code text' json' ->
        status_code <> 200 ->
        get_database_schema database_reply metadata_reply
        = inl (Error ("Failed to retrieve database schema: "
                      +:+ "Failed to get tables: " +:+ pretty status_code)))
  /\ (forall text text' database_info metadata tables,
        database_reply = Database.Response 200 text (inr (VDict database_info)) ->
        metadata_reply = Database.Response 200 text' (inr (VDict metadata)) ->
        default (VList []) (dict_get "tables" metadata) = VList (map VDict tables) ->
        get_database_schema database_reply metadata_reply
        = inr {| database_name := default VNone (dict_get "name" database_info);
                 database_engine := default VNone (dict_get "engine" database_info);
                 tables :=
                   omap (fun table =>
                           match _process_table_info (VDict table) with
                           | inr (Some table_info) => Some table_info
                           | _ => None
                           end)
                        tables |}).
Proof.
  split; [|split; [|split]].
  - intros e. unfold get_database_schema.
    match goal with
    | |- context [match ?a with inl _ => _ | inr _ => _ end] => destruct a
    end; [|done]. intros [= <-]. by eexists.
  - intros status_code text json -> Hcode. unfold get_database_schema.
    by destruct (Z.eqb_spec status_code 200).
  - intros text json status_code text' json' -> -> Hcode. unfold get_database_schema.
    cbn [Z.eqb Pos.eqb negb Database.read_json mret result_ret mbind result_bind].
    by destruct (Z.eqb_spec status_code 200).
  - intros text text' database_info metadata tables -> -> Ht.
    unfold get_database_schema.
    cbn [Z.eqb Pos.eqb negb Database.read_json get mret result_ret mbind result_bind].
    rewrite Ht. cbn [iterate mret result_ret mbind result_bind].
    assert (Json.traverse _process_table_info (map VDict tables)
            = inr (map (fun table =>
                          match _process_table_info (VDict table) with
                          | inr answer => answer
                          | inl _ => None
                          end) tables)) as ->.
    { apply JsonProps.traverse_inr. clear. induction tables as [|t ts IH]; constructor; [|done].
      by destruct (process_table_returns t) as [answer ->]. }
    cbn [mret result_ret mbind result_bind]. do 2 f_equal.
    clear. induction tables as [|t ts IH]; [done|]. csimpl.
    destruct (_process_table_info (VDict t)) as [e|[info|]]; csimpl; by rewrite IH.
Qed.

(** *** The text of the schema *)

Lemma strings_from_returns i items :
  Forall (fun k => is_str k = true) items ->
  exists strs, strings_from i items = inr strs.
Proof.
  intros Hall. revert i. induction Hall as [|k items Hk _ IH]; intros i.
  - by exists [].
  - destruct k; try done. simpl. destruct (IH (S i)) as [strs ->]. by eexists.
Qed.

Lemma strings_from_raises i items :
  ~ Forall (fun k => is_str k = true) items ->
  exists message, strings_from i items = inl (Error message).
Proof.
  revert i. induction items as [|k items IH]; intros i Hall.
  - exfalso. apply Hall. constructor.
  - destruct k; try (by eexists). simpl.
    destruct (IH (S i)) as [message ->]; [|by eexists].
    intros Hitems. apply Hall. by constructor.
Qed.

Section WithRuntime.
Context `{Runtime}.

Lemma table_lines_cases table :
  (Forall (fun k => is_str k = true) (primary_keys table) ->
   exists lines, table_lines table = inr lines)
  /\ (~ Forall (fun k => is_str k = true) (primary_keys table) ->
      exists message, table_lines table = inl (Error message)).
Proof.
  unfold table_lines, join. split.
  - intros Hall. destruct (primary_keys table) as [|k keys] eqn:Ek; [by eexists|].
    destruct (strings_from_returns 0 (k :: keys) Hall) as [strs ->]. by eexists.
  - intros Hall. destruct (primary_keys table) as [|k keys] eqn:Ek.
    + exfalso. apply Hall. constructor.
    + destruct (strings_from_raises 0 (k :: keys) Hall) as [message ->]. by eexists.
Qed.

(** X26.  [build_schema_context] returns a text exactly when every primary
    key of every table is a string; otherwise [join] raises.  A primary key
    is the [name] of a field of semantic type [type/PK]: a schema with a
    table read from the platform in which such a field has no name, or one
    that is no string, is one for which it raises. *)
Theorem build_schema_context_needs_names (schema_info : SchemaInfo) :
  ((exists text, build_schema_context schema_info = inr text)
   <-> Forall (fun table => Forall (fun k => is_str k = true) (primary_keys table))
              (tables schema_info))
  /\ ((exists message, build_schema_context schema_info = inl (Error message))
      <-> ~ Forall (fun table => Forall (fun k => is_str k = true) (primary_keys table))
                   (tables schema_info))
  /\ (forall table fields field,
        default (VList []) (dict_get "fields" table) = VList (map VDict fields) ->
        field ∈ fields ->
        has_semantic_type "type/PK" field = true ->
        is_str (default VNone (dict_get "name" field)) = false ->
        table_of table fields ∈ tables schema_info ->
        _process_table_info (VDict table) = inr (Some (table_of table fields))
        /\ exists message, build_schema_context schema_info = inl (Error message)).
Proof.
  assert ((exists lines, Json.traverse table_lines (tables schema_info) = inr lines)
          <-> Forall (fun table => Forall (fun k => is_str k = true) (primary_keys table))
                     (tables schema_info)) as Hreturns.
  { split.
    - intros [lines Hl]. apply JsonProps.traverse_inr in Hl.
      induction Hl as [|t l ts ls Ht _ IH]; constructor; [|done].
      destruct (decide (Forall (fun k => is_str k = true) (primary_keys t))) as [|Hn];
        [done|].
      destruct (proj2 (table_lines_cases t) Hn) as [message Hm]. congruence.
    - intros Hall. apply JsonProps.traverse_total.
      eapply Forall_impl; [exact Hall|]. intros t Ht. by apply table_lines_cases. }
  assert ((exists message, Json.traverse table_lines (tables schema_info) = inl (Error message))
          <-> ~ Forall (fun table => Forall (fun k => is_str k = true) (primary_keys table))
                       (tables schema_info)) as Hraises.
  { split.
    - intros [message Hm] Hall. apply Hreturns in Hall as [lines Hl]. congruence.
    - intros Hall.
      destruct (Json.traverse table_lines (tables schema_info)) as [e|lines] eqn:El.
      + apply VizProps.traverse_raises in El as (t & _ & Ht).
        destruct (decide (Forall (fun k => is_str k = true) (primary_keys t))) as [Hs|Hn].
        * destruct (proj1 (table_lines_cases t) Hs) as [lines Hl]. congruence.
        * destruct (proj2 (table_lines_cases t) Hn) as [message Hm].
          exists message. congruence.
      + exfalso. apply Hall, Hreturns. by eexists. }
  unfold build_schema_context. split; [|split].
  - rewrite <- Hreturns. split.
    + intros [text Ht]. destruct (Json.traverse _ _); [done|]. by eexists.
    + intros [lines ->]. by eexists.
  - rewrite <- Hraises. split.
    + intros [message Hm]. destruct (Json.traverse _ _) as [e|lines]; [|done].
      exists message. by injection Hm as ->.
    + intros [message ->]. by eexists.
  - intros table fields field Hf Hin Hpk Hname Htable.
    split; [by apply process_table_dict|].
    assert (exists message, Json.traverse table_lines (tables schema_info)
                            = inl (Error message)) as [message ->]; [|by eexists].
    apply Hraises. intros Hall.
    rewrite Forall_forall in Hall. specialize (Hall _ Htable).
    rewrite Forall_forall in Hall.
    specialize (Hall (default VNone (dict_get "name" field))).
    rewrite Hname in Hall. discriminate Hall.
    cbn [table_of primary_keys]. apply list_elem_of_In, in_map_iff.
    exists field. split; [done|]. apply filter_In. split; [|done].
    by apply list_elem_of_In.
Qed.

End WithRuntime.


(** *** Samples *)

Lemma rstrip_app a b : rstrip b <> "" -> rstrip (a +:+ b) = a +:+ rstrip b.
Proof.
  intros Hb. induction a as [|c a IH]; [done|].
  rewrite !SqlProps.append_cons. cbn [rstrip]. rewrite IH.
  destruct (a +:+ rstrip b) eqn:E; [|done].
  exfalso. destruct a; [|done]. by rewrite SqlProps.append_nil_l in E.
Qed.

Lemma rstrip_cons c s :
  is_space c = false \/ rstrip s <> "" -> rstrip (String c s) <> "".
Proof.
  intros Hc. cbn [rstrip]. destruct (rstrip s); [|done].
  destruct Hc as [-> |]; done.
Qed.

Lemma rstrip_limit numeral : rstrip (" limit " +:+ numeral) <> "".
Proof.
  rewrite !SqlProps.append_cons. apply rstrip_cons. right.
  apply rstrip_cons. by left.
Qed.

Lemma sample_query_rejected table_name limit :
  contains "drop " (lower table_name) = true ->
  Sql.validate_sql_safety (Database.sample_query table_name limit)
  = (false, "Dangerous SQL keyword detected: drop").
Proof.
  intros Hdrop. unfold Sql.validate_sql_safety, Database.sample_query.
  rewrite !SqlProps.lower_app.
  assert (strip (lower "SELECT * FROM " +:+ lower table_name +:+ lower " LIMIT "
                 +:+ lower (pretty limit))
          = "select * from " +:+ lower table_name
              +:+ rstrip (" limit " +:+ lower (pretty limit))) as ->.
  { unfold strip.
    change (lstrip (lower "SELECT * FROM " +:+ lower table_name +:+ lower " LIMIT "
                    +:+ lower (pretty limit)))
      with ("select * from " +:+ lower table_name +:+ " limit " +:+ lower (pretty limit)).
    rewrite <- (SqlProps.append_assoc "select * from " (lower table_name)).
    rewrite rstrip_app by apply rstrip_limit.
    by rewrite SqlProps.append_assoc. }
  assert (contains "drop " ("select * from " +:+ lower table_name
                            +:+ rstrip (" limit " +:+ lower (pretty limit))) = true) as Hc.
  { rewrite <- (SqlProps.append_assoc "select * from " (lower table_name)).
    apply ChatProps.contains_app_l. by apply SqlProps.contains_app_r. }
  cbn [Sql.dangerous_keywords Sql.first_rejected]. unfold Sql.keyword_passes at 1.
  rewrite Hc. done.
Qed.

(** X28.  [GET /table/{table_name}/sample] sends one query, the text
    [SELECT * FROM <table_name> LIMIT <limit>] with the name as it came and
    the limit cut to 20 from above only; the text does not go through
    [validate_sql_safety], which rejects it whenever the name holds [drop ].
    The answer counts the rows it carries; a reply other than a 200, or an
    exception of the call, gives no rows and no error. *)
Theorem sample_query_unchecked `{Runtime} (database_id : string)
    (post : Database.Request -> Database.http_reply)
    (metabase_session_id table_name : string) (limit database : Z) :
  Database.int database_id = inr database ->
  let query := "SELECT * FROM " +:+ table_name +:+ " LIMIT " +:+ pretty (Z.min limit 20) in
  let request := {| Database.session := metabase_session_id;
                    Database.database := database;
                    Database.native_query := query |} in
  let '(requests, answer) :=
    get_table_sample_data database_id post metabase_session_id table_name limit in
  requests = [request]
  /\ sample_count answer = length (sample_data answer)
  /\ (forall status_code text json,
        post request = Database.Response status_code text json ->
        status_code <> 200 -> sample_data answer = [])
  /\ (forall message, post request = Database.Raises message -> sample_data answer = [])
  /\ (contains "drop " (lower table_name) = true ->
      Sql.validate_sql_safety query = (false, "Dangerous SQL keyword detected: drop")).
Proof.
  intros Hid query request. unfold get_table_sample_data, Database.get_sample_data.
  rewrite Hid.
  assert ((if 20 <? limit then 20 else limit) = Z.min limit 20) as ->.
  { destruct (Z.ltb_spec 20 limit); lia. }
  fold (Database.sample_query table_name (Z.min limit 20)).
  change (Database.sample_query table_name (Z.min limit 20)) with query.
  fold request. cbn [fst snd sample_count sample_data].
  split; [done|]. split; [done|]. split; [|split].
  - intros status_code text json -> Hcode.
    by destruct (Z.eqb_spec status_code 200).
  - by intros message ->.
  - apply sample_query_rejected.
Qed.

Lemma sample_query_unchecked_witness :
  let query := "SELECT * FROM orders; drop table orders LIMIT 20" in
  let request := {| Database.session := "mb-1"; Database.database := 1;
                    Database.native_query := query |} in
  let '(requests, answer) :=
    get_table_sample_data "1" (Database.platform (Database.Raises "refused")) "mb-1"
      "orders; drop table orders" 50 in
  requests = [request]
  /\ sample_count answer = length (sample_data answer)
  /\ (forall status_code text json,
        Database.platform (Database.Raises "refused") request
        = Database.Response status_code text json ->
        status_code <> 200 -> sample_data answer = [])
  /\ (forall message,
        Database.platform (Database.Raises "refused") request = Database.Raises message ->
        sample_data answer = [])
  /\ (contains "drop " (lower "orders; drop table orders") = true ->
      Sql.validate_sql_safety query = (false, "Dangerous SQL keyword detected: drop")).
Proof.
  apply (sample_query_unchecked "1" (Database.platform (Database.Raises "refused")) "mb-1"
           "orders; drop table orders" 50 1).
  reflexivity.
Defined.

End SchemaProps.

(** ** The table for display *)

Module TableProps.
Import PyStr Py Viz Table.

Section WithRuntime.
Context `{Runtime}.

Lemma format_value_shown v cell : format_value v = inr cell -> shown cell.
Proof.
  destruct v as [ |b|n|x|s|l|d|m tl it s]; simpl; try (by intros [= <-]).
  destruct (round_float x 2); simpl; [done|]. by intros [= <-].
Qed.

Lemma format_row_keys (r formatted : row) :
  Json.traverse (fun kv : string * value => v ← format_value (snd kv); mret (fst kv, v)) r
  = inr formatted ->
  map fst formatted = map fst r /\ Forall (fun kv => shown kv.2) formatted.
Proof.
  intros Hr. apply JsonProps.traverse_inr in Hr.
  induction Hr as [|[k v] [k' v'] r formatted Hkv _ [IH1 IH2]]; [by split|].
  simpl in Hkv. destruct (format_value v) as [e|cell] eqn:Ev; simpl in Hkv; [done|].
  injection Hkv as <- <-. simpl. rewrite IH1. split; [done|].
  constructor; [|done]. simpl. by eapply format_value_shown.
Qed.

(** X29.  [create_formatted_table] shows the first 100 rows.  Each shown
    row keeps its columns in order; a cell is [N/A] for [None], [Yes] or
    [No] for a bool, the value rounded to two decimals for a float, and the
    text of the value for anything else, an int included, so that every
    cell is a string or a float.  The header of a column is its name with
    underscores turned to blanks and every word capitalised.
    [displayed_rows] is the number of rows shown, [total_rows] the
    [row_count] of the result, and [has_more] tells whether [row_count]
    exceeds the rows shown.  The answer with an [error] is given only when
    the rounding of a float among the first 100 rows raises. *)
Theorem create_formatted_table_shape (query_result : QueryResult) :
  match create_formatted_table query_result with
  | Formatted columns rows total_rows displayed_rows has_more =>
      displayed_rows = Nat.min 100 (length (data query_result))
      /\ length rows = displayed_rows
      /\ total_rows = row_count query_result
      /\ has_more = (Z.of_nat displayed_rows <? row_count query_result)
      /\ map field columns = Viz.columns query_result
      /\ map headerName columns
         = map (fun col => PyStr.title (replace_char "_" " " col)) (Viz.columns query_result)
      /\ map (map fst) rows = map (map fst) (take 100 (data query_result))
      /\ Forall (Forall (fun kv : string * value => shown kv.2)) rows
      /\ Forall2 (Forall2 (fun kv formatted =>
                             match kv.2 with
                             | VNone => formatted.2 = VStr "N/A"
                             | VBool b => formatted.2 = VStr (if b then "Yes" else "No")
                             | VFloat x => exists r, round_float x 2 = inr r
                                                     /\ formatted.2 = VFloat r
                             | v => formatted.2 = VStr (to_str v)
                             end))
                 (take 100 (data query_result)) rows
  | Failed error =>
      error = "rounded value too large to represent"
      /\ exists r k x, r ∈ take 100 (data query_result) /\ (k, VFloat x) ∈ r
                       /\ round_float x 2 = inl (Error error)
  end.
Proof.
  unfold create_formatted_table, max_rows_for_display.
  match goal with
  | |- context [mbind _ ?t] => destruct t as [e|rows] eqn:E
  end; cbn [mbind result_bind mret result_ret].
  - apply VizProps.traverse_raises in E as (r & Hr & E).
    apply VizProps.traverse_raises in E as ([k v] & Hkv & E). simpl in E.
    destruct v as [ |b|n|x|s|l|d|m tl it s]; simpl in E; try done.
    unfold round_float in *.
    assert (e = Error "rounded value too large to represent") as ->.
    { destruct (Prim2SF x); simpl in E; try done.
      destruct (Prim2SF (CPython.float_of_decimal _ _ _)); simpl in E; try done.
      by injection E as <-. }
    split; [done|]. exists r, k, x. repeat split; try done.
    destruct (Prim2SF x); simpl in *; try done.
    by destruct (Prim2SF (CPython.float_of_decimal _ _ _)).
  - apply JsonProps.traverse_inr in E.
    pose proof (Forall2_length _ _ _ E) as Hlen. rewrite length_take in Hlen.
    split; [by symmetry|]. split; [done|]. split; [done|]. split; [done|].
    split; [by rewrite map_map, map_id|]. split; [by rewrite map_map|].
    split; [|split].
    + clear Hlen. induction E as [|r f rs fs Hr _ IH]; [done|].
      simpl. rewrite IH. f_equal. by apply format_row_keys in Hr as [-> _].
    + clear Hlen. induction E as [|r f rs fs Hr _ IH]; constructor; [|done].
      by apply format_row_keys in Hr as [_ ?].
    + clear Hlen. eapply Forall2_impl; [exact E|].
      intros r f Hr. apply JsonProps.traverse_inr in Hr.
      eapply Forall2_impl; [exact Hr|].
      intros [k v] [k' v'] Hkv. simpl in *.
      destruct v as [ |b|n|x|s|l|d|m tl it s]; simpl in Hkv; try (by injection Hkv as <- <-).
      destruct (round_float x 2) as [e|r']; simpl in Hkv; [done|].
      injection Hkv as <- <-. by exists r'.
Qed.

End WithRuntime.

Lemma create_formatted_table_example :
  create_formatted_table mixed_rows
  = Formatted
      [ {| field := "customer_name"; headerName := "Customer Name";
           sortable := true; width := 150 |};
        {| field := "paid"; headerName := "Paid"; sortable := true; width := 150 |};
        {| field := "total"; headerName := "Total"; sortable := true; width := 150 |} ]
      [ [("customer_name", VStr "ada"); ("paid", VStr "Yes"); ("total", VFloat 2.67)];
        [("customer_name", VStr "N/A"); ("paid", VStr "No"); ("total", VStr "3")] ]
      2 2 false.
Proof. vm_compute. reflexivity. Qed.

End TableProps.

(** ** The settings *)

Module ConfigProps.
Import PyStr Py Config.

Lemma rstrip_slash_idem s : rstrip_slash (rstrip_slash s) = rstrip_slash s.
Proof.
  induction s as [|c s IH]; [done|]. cbn [rstrip_slash].
  destruct (rstrip_slash s) as [|x r] eqn:E.
  - destruct (Ascii.eqb_spec c "/") as [->|Hc]; [done|].
    cbn [rstrip_slash]. by destruct (Ascii.eqb_spec c "/").
  - cbn [rstrip_slash]. cbn [rstrip_slash] in IH. by rewrite IH.
Qed.

Lemma rstrip_slash_empty s : rstrip_slash s = "" <-> only_slashes s.
Proof.
  unfold only_slashes. induction s as [|c s IH]; cbn [rstrip_slash list_ascii_of_string].
  - split; [constructor|done].
  - rewrite Forall_cons. destruct (rstrip_slash s) as [|x r].
    + destruct (Ascii.eqb_spec c "/") as [->|Hc].
      * split; [intros _; split; [done|by apply IH]|done].
      * split; [done|]. by intros [? _].
    + split; [done|]. intros [_ Hs]. by apply IH in Hs.
Qed.

Lemma truthy_false s : truthy s = false <-> s = "".
Proof. unfold truthy. rewrite negb_false_iff. apply String.eqb_eq. Qed.

(** X30.  For the settings read from any environment, [validate_settings]
    returns [True] exactly when [_validate] printed no warning at start-up,
    and otherwise raises a [ValueError] whose message lists the very names
    of that warning, in the same order.  [OPENAI_API_KEY] and
    [METABASE_DATABASE_ID] are listed exactly when the variable is unset or
    empty; [METABASE_URL] is listed exactly when it is unset or made of
    slashes only, since the trailing slashes are stripped before the
    check.  No other name is ever listed. *)
Theorem validate_settings_names_missing (environ : string -> option string) :
  let settings := load environ in
  let missing := _validate settings in
  validate_settings settings
  = match missing with
    | [] => Returns true
    | _ => RaisesValueError
             ("Missing required environment variables: " +:+ CPython.join ", " missing)
    end
  /\ ("OPENAI_API_KEY" ∈ missing <-> default "" (environ "OPENAI_API_KEY") = "")
  /\ ("METABASE_URL" ∈ missing <-> only_slashes (default "" (environ "METABASE_URL")))
  /\ ("METABASE_DATABASE_ID" ∈ missing
      <-> default "" (environ "METABASE_DATABASE_ID") = "")
  /\ missing ⊆ ["OPENAI_API_KEY"; "METABASE_URL"; "METABASE_DATABASE_ID"].
Proof.
  intros settings missing. subst missing.
  rewrite <- rstrip_slash_empty.
  change (default "" (environ "OPENAI_API_KEY")) with (openai_api_key settings).
  change (rstrip_slash (default "" (environ "METABASE_URL")))
    with (metabase_url settings).
  change (default "" (environ "METABASE_DATABASE_ID"))
    with (metabase_database_id settings).
  rewrite <- !truthy_false.
  unfold validate_settings, _validate, is_valid.
  cbn [List.filter map fst snd].
  destruct (truthy (openai_api_key settings)),
           (truthy (metabase_url settings)),
           (truthy (metabase_database_id settings));
    cbn [negb andb app map fst List.filter];
    (split; [reflexivity|]);
    repeat split; try done;
    try (intros name; rewrite ?elem_of_cons, ?elem_of_nil; tauto);
    rewrite ?elem_of_cons, ?elem_of_nil;
    try (intros _; tauto);
    intros Hin; exfalso; decompose [or] Hin; done.
Qed.

End ConfigProps.
